(** * Arduino-MPPT: a shallow embedding of the charge controller's control core

    The repository holds two variants of one sketch:

    - [FloatVolt]: [Arduino-MPPT.ino], voltages are C [float]s in volts;
    - [DeciVolt]: the later integer variant, voltages are C [long]s in
      deci-volts.

    The target is an Arduino UNO (AVR): [int] is 16 bits, [long] and
    [unsigned long] are 32 bits, [float] and [double] are IEEE-754 binary32.
    Each global variable of the sketch is a field of a [machine] record, each
    function of the sketch is a computation in a small state monad over that
    record. Hardware inputs ([analogRead], [millis]) are read from oracles
    carried by the machine; hardware outputs ([digitalWrite], [pwmWrite],
    [delay], [Serial.print]) are appended to an event trace.

    What the model leaves out: [setup()], which configures pins and the PWM
    timer ([power_on] gives the globals the values of their initialisers);
    the text [Serial.print] makes of a number; the time [delay] takes, the
    clock being an oracle of its own. Floating-point arithmetic is taken to
    be correctly rounded, to nearest with ties to even, as [SpecFloat]
    defines it. *)

From Stdlib Require Import ZArith List Bool String Ascii Lia.
From Stdlib Require Import Floats.SpecFloat.
Import ListNotations.
Open Scope Z_scope.

(** ** Machine integers of the AVR target *)

Definition wrap_signed (w z : Z) : Z := (z + 2 ^ (w - 1)) mod 2 ^ w - 2 ^ (w - 1).

(** Conversion to [int] (16 bits), [long] (32 bits), [unsigned long] and
    [uint8_t]. *)
Definition to_int (z : Z) : Z := wrap_signed 16 z.
Definition to_long (z : Z) : Z := wrap_signed 32 z.
Definition to_ulong (z : Z) : Z := z mod 2 ^ 32.
Definition to_uint8 (z : Z) : Z := z mod 2 ^ 8.

(** Arduino.h: [#define constrain(amt,low,high)
    ((amt)<(low)?(low):((amt)>(high)?(high):(amt)))]. *)
Definition constrain (amt low high : Z) : Z :=
  if amt <? low then low else if amt >? high then high else amt.

(** WMath.cpp: [long map(long x, long in_min, long in_max, long out_min,
    long out_max)], with C's truncating division. *)
Definition map (x in_min in_max out_min out_max : Z) : Z :=
  to_long (to_long (to_long (to_long (x - in_min) * to_long (out_max - out_min))
                      ÷ to_long (in_max - in_min)) + out_min).

(** C's logical negation of an [int]. *)
Definition lnot (x : Z) : Z := if x =? 0 then 1 else 0.

Definition HIGH : Z := 1.
Definition LOW : Z := 0.
(** Analog pins A0 and A1 of the UNO. *)
Definition A0 : Z := 14.
Definition A1 : Z := 15.

(** ** The [float] type of the AVR target: IEEE-754 binary32 *)

Definition float : Type := spec_float.
Definition prec : Z := 24.
Definition emax : Z := 128.

Definition fadd : float -> float -> float := SFadd prec emax.
Definition fsub : float -> float -> float := SFsub prec emax.
Definition fmul : float -> float -> float := SFmul prec emax.
Definition fdiv : float -> float -> float := SFdiv prec emax.
Definition fneg : float -> float := SFopp.
Definition flt : float -> float -> bool := SFltb.
Definition fle : float -> float -> bool := SFleb.
Definition fgt (x y : float) : bool := SFltb y x.
Definition fge (x y : float) : bool := SFleb y x.

(** Conversion of an integer to [float] (rounding to nearest). *)
Definition of_int (z : Z) : float := binary_normalize prec emax z 0 false.

(** The [float] nearest to the decimal fraction [num / den]: what the
    compiler makes of a decimal literal. *)
Definition decimal (num den : positive) : float :=
  SFdiv prec emax (S754_finite false num 0) (S754_finite false den 0).

(** Conversion of a [float] to an integer type truncates toward zero. C leaves
    the conversion of a NaN, an infinity or a value out of range undefined;
    here a NaN or an infinity gives 0 and the caller wraps the integer to
    the destination type. *)
Definition truncate (x : float) : Z :=
  match x with
  | S754_finite s m e =>
      cond_Zopp s (match e with
                   | Z0 => Zpos m
                   | Zpos p => Zpos m * 2 ^ Zpos p
                   | Zneg p => Zpos m / 2 ^ Zpos p
                   end)
  | _ => 0
  end.

(** Arduino.h: [#define abs(x) ((x)>0?(x):-(x))], at type [float]. *)
Definition abs (x : float) : float :=
  if fgt x (of_int 0) then x else fneg x.

(** ** Hardware outputs *)

Inductive event : Type :=
| DigitalWrite (pin level : Z)
| PwmWrite (pin duty : Z)
| Delay (ms : Z)
| SerialText (s : string)
| SerialNum (z : Z)
| SerialReal (f : spec_float)
| SerialNewline.

Definition tab : string := String (ascii_of_nat 9) EmptyString.

(** ** The state monad the sketches run in *)

Section StateMonad.
Context {S : Type}.

Definition M (A : Type) : Type := S -> A * S.

Definition ret {A} (a : A) : M A := fun s => (a, s).

Definition bind {A B} (c : M A) (k : A -> M B) : M B :=
  fun s => k (fst (c s)) (snd (c s)).

Definition exec {A} (c : M A) (s : S) : S := snd (c s).
Definition eval {A} (c : M A) (s : S) : A := fst (c s).

(** Read an expression over the globals; update the globals. *)
Definition gets {A} (f : S -> A) : M A := fun s => (f s, s).
Definition modify (f : S -> S) : M unit := fun s => (tt, f s).

(** [if (c) t; else e;] and [if (c) t;], the condition being an expression
    over the globals. *)
Definition ifM (c : S -> bool) (t e : M unit) : M unit :=
  fun s => if c s then t s else e s.
Definition when (c : S -> bool) (t : M unit) : M unit := ifM c t (ret tt).

(** [for (int i = 0; i < n; i++) body]. *)
Fixpoint for_loop (n : nat) (body : M unit) : M unit :=
  match n with
  | O => ret tt
  | Datatypes.S k => bind body (fun _ => for_loop k body)
  end.
End StateMonad.

Declare Scope mppt_scope.
Delimit Scope mppt_scope with mppt.
Notation "x <- c ;; k" := (bind c (fun x => k))
  (at level 61, c at next level, right associativity) : mppt_scope.
Notation "c ;; k" := (bind c (fun _ => k))
  (at level 61, right associativity) : mppt_scope.

(** ** Oversampling

    The sum of the [n] samples the ADC returns on [pin] from its conversion
    number [start] on. *)
Fixpoint sum_samples (adc : Z -> nat -> Z) (pin : Z) (start n : nat) : Z :=
  match n with
  | O => 0
  | Datatypes.S k => adc pin start + sum_samples adc pin (Datatypes.S start) k
  end.

(** ** Vocabulary for what a computation does to the state *)

Section Vocabulary.
Context {S : Type}.

(** [c] leaves the observation [f] of the state as it found it. *)
Definition preserves {A B} (f : S -> B) (c : M A) : Prop :=
  forall s, f (exec c s) = f s.

(** [c] only appends to the trace [tr], and what it appends satisfies [P]. *)
Definition appends {A} (tr : S -> list event) (P : list event -> Prop)
    (c : M A) : Prop :=
  forall s, exists evs, tr (exec c s) = tr s ++ evs /\ P evs.

(** Started in a state that satisfies [P], [c] ends in a state that
    satisfies [Q]. *)
Definition hoare {A} (P : S -> Prop) (c : M A) (Q : S -> Prop) : Prop :=
  forall s, P s -> Q (exec c s).
End Vocabulary.

(** ** The discipline of the output trace

    [driver] is the PWM pin, [shutDown] the driver-enable pin, [lo] and [hi]
    the duty-cycle bounds. An event enables the converter when it drives
    [shutDown] to anything but [LOW]. A trace is [sequenced] when every duty
    written is within the bounds and every enabling event comes right after
    a write of the duty cycle. *)

Section TraceDiscipline.
Variables driver shutDown lo hi : Z.

Definition enables (e : event) : bool :=
  match e with
  | DigitalWrite p l => (p =? shutDown) && negb (l =? LOW)
  | _ => false
  end.

Definition duty_ok (e : event) : Prop :=
  match e with
  | PwmWrite _ d => lo <= d <= hi
  | _ => True
  end.

Inductive sequenced : list event -> Prop :=
| sequenced_nil : sequenced []
| sequenced_other e evs :
    enables e = false -> duty_ok e -> sequenced evs -> sequenced (e :: evs)
| sequenced_enable d evs :
    lo <= d <= hi -> sequenced evs ->
    sequenced (PwmWrite driver d :: DigitalWrite shutDown HIGH :: evs).

(** Every duty cycle written is within the bounds. *)
Definition duties_within (evs : list event) : Prop := Forall duty_ok evs.

(** Every enabling event comes right after a write of a duty cycle within the
    bounds to the PWM pin. *)
Definition enable_follows_write (evs : list event) : Prop :=
  forall pre e post, evs = pre ++ e :: post -> enables e = true ->
  exists pre' d, pre = pre' ++ [PwmWrite driver d] /\ lo <= d <= hi.

(** No event enables the converter; no event writes a duty cycle. *)
Definition never_enables (evs : list event) : Prop :=
  Forall (fun e => enables e = false) evs.
Definition no_duty_write (evs : list event) : Prop :=
  Forall (fun e => forall p d, e <> PwmWrite p d) evs.
End TraceDiscipline.

(** ** Hardware for the scenarios

    An ADC that returns [panel] on A0 and [battery] on every other pin, and a
    clock that advances by one millisecond from one call of [millis] to the
    next. *)
Definition steady_adc (panel battery : Z) : Z -> nat -> Z :=
  fun pin _ => if pin =? A0 then panel else battery.
Definition steady_clock : nat -> Z := fun k => Z.of_nat k.

(** An ADC for a night followed by a day: A0 returns 0 for the first 200
    conversions (the two channels of one tick of the integer variant) and
    [panel] afterwards; every other pin returns [battery]. *)
Definition night_then_day (panel battery : Z) : Z -> nat -> Z :=
  fun pin k =>
    if pin =? A0 then (if (k <? 200)%nat then 0 else panel) else battery.

(** ** Readings of a trace

    The milliseconds a trace spends in [delay], and the level the last write
    to [pin] left on it, if the trace writes to it at all. *)
Fixpoint delay_total (evs : list event) : Z :=
  match evs with
  | [] => 0
  | Delay ms :: rest => ms + delay_total rest
  | _ :: rest => delay_total rest
  end.

Fixpoint last_level (pin : Z) (evs : list event) : option Z :=
  match evs with
  | [] => None
  | e :: rest =>
      match last_level pin rest with
      | Some l => Some l
      | None =>
          match e with
          | DigitalWrite p l => if p =? pin then Some l else None
          | _ => None
          end
      end
  end.

(** [c] only appends to the trace [tr], and what it appends spends between
    [lo] and [hi] milliseconds in [delay]. *)
Definition delayed {S A} (tr : S -> list event) (lo hi : Z) (c : M A) : Prop :=
  appends tr (fun evs => lo <= delay_total evs <= hi) c.

(** * The integer variant (deci-volts) *)

Module DeciVolt.
Local Open Scope mppt_scope.

(** [#define]s of the sketch. *)
Definition panelMeter : Z := A0.
Definition batteryMeter : Z := A1.
Definition driver : Z := 3.
Definition shutDown : Z := 5.
Definition fan : Z := 6.
Definition load : Z := 4.
Definition Vbulk : Z := 130.
Definition lowBatt : Z := 110.
Definition Vmax : Z := 150.
Definition check : Z := 15000.
Definition Vfloat : Z := 136.

(** The bounds [run_charger] and [CVM] hold [pulseWidth] to. *)
Definition minDuty : Z := 75.
Definition maxDuty : Z := 245.

(** [enum charger_mode {no_battery, sleep, bulk, Float, error}]. *)
Inductive charger_mode : Type := no_battery | sleep | bulk | Float | error.

(** The enumerators' values, and the enumerator an [int] stands for.  The
    variable [charger_state] holds the value, so that the [default] branch of
    [set_charger] has a meaning. *)
Definition mode_code (c : charger_mode) : Z :=
  match c with
  | no_battery => 0 | sleep => 1 | bulk => 2 | Float => 3 | error => 4
  end.

Definition mode_of_code (z : Z) : option charger_mode :=
  match z with
  | 0 => Some no_battery | 1 => Some sleep | 2 => Some bulk
  | 3 => Some Float | 4 => Some error | _ => None
  end.

(** The globals of the sketch, then the hardware: the sample the ADC returns
    for a pin at the [n]-th conversion (0 to 1023 on the real converter), the
    value of the [n]-th call of [millis], and the outputs so far (oldest
    first). *)
Record machine : Type := mkMachine {
  panelVolts : Z;
  batteryVolts : Z;
  Voc : Z;
  Vcvm : Z;
  pulseWidth : Z;
  pwm : Z;
  b : Z;
  stepAmount : Z;
  state : Z;
  LEDstate : Z;
  time : Z;
  time2 : Z;
  enable : string;
  SOC : string;
  Load : string;
  charger_state : Z;
  adc : Z -> nat -> Z;
  adc_count : nat;
  clock : nat -> Z;
  clock_count : nat;
  trace : list event
}.

Definition set_panelVolts (v : Z) (m : machine) : machine :=
  mkMachine v (batteryVolts m) (Voc m) (Vcvm m) (pulseWidth m) (pwm m) (b
    m) (stepAmount m) (state m) (LEDstate m) (time m) (time2 m) (enable m)
    (SOC m) (Load m) (charger_state m) (adc m) (adc_count m) (clock m)
    (clock_count m) (trace m).
Definition set_batteryVolts (v : Z) (m : machine) : machine :=
  mkMachine (panelVolts m) v (Voc m) (Vcvm m) (pulseWidth m) (pwm m) (b m)
    (stepAmount m) (state m) (LEDstate m) (time m) (time2 m) (enable m)
    (SOC m) (Load m) (charger_state m) (adc m) (adc_count m) (clock m)
    (clock_count m) (trace m).
Definition set_Voc (v : Z) (m : machine) : machine :=
  mkMachine (panelVolts m) (batteryVolts m) v (Vcvm m) (pulseWidth m) (pwm
    m) (b m) (stepAmount m) (state m) (LEDstate m) (time m) (time2 m)
    (enable m) (SOC m) (Load m) (charger_state m) (adc m) (adc_count m)
    (clock m) (clock_count m) (trace m).
Definition set_Vcvm (v : Z) (m : machine) : machine :=
  mkMachine (panelVolts m) (batteryVolts m) (Voc m) v (pulseWidth m) (pwm
    m) (b m) (stepAmount m) (state m) (LEDstate m) (time m) (time2 m)
    (enable m) (SOC m) (Load m) (charger_state m) (adc m) (adc_count m)
    (clock m) (clock_count m) (trace m).
Definition set_pulseWidth (v : Z) (m : machine) : machine :=
  mkMachine (panelVolts m) (batteryVolts m) (Voc m) (Vcvm m) v (pwm m) (b
    m) (stepAmount m) (state m) (LEDstate m) (time m) (time2 m) (enable m)
    (SOC m) (Load m) (charger_state m) (adc m) (adc_count m) (clock m)
    (clock_count m) (trace m).
Definition set_pwm (v : Z) (m : machine) : machine :=
  mkMachine (panelVolts m) (batteryVolts m) (Voc m) (Vcvm m) (pulseWidth
    m) v (b m) (stepAmount m) (state m) (LEDstate m) (time m) (time2 m)
    (enable m) (SOC m) (Load m) (charger_state m) (adc m) (adc_count m)
    (clock m) (clock_count m) (trace m).
Definition set_b (v : Z) (m : machine) : machine :=
  mkMachine (panelVolts m) (batteryVolts m) (Voc m) (Vcvm m) (pulseWidth
    m) (pwm m) v (stepAmount m) (state m) (LEDstate m) (time m) (time2 m)
    (enable m) (SOC m) (Load m) (charger_state m) (adc m) (adc_count m)
    (clock m) (clock_count m) (trace m).
Definition set_stepAmount (v : Z) (m : machine) : machine :=
  mkMachine (panelVolts m) (batteryVolts m) (Voc m) (Vcvm m) (pulseWidth
    m) (pwm m) (b m) v (state m) (LEDstate m) (time m) (time2 m) (enable
    m) (SOC m) (Load m) (charger_state m) (adc m) (adc_count m) (clock m)
    (clock_count m) (trace m).
Definition set_state (v : Z) (m : machine) : machine :=
  mkMachine (panelVolts m) (batteryVolts m) (Voc m) (Vcvm m) (pulseWidth
    m) (pwm m) (b m) (stepAmount m) v (LEDstate m) (time m) (time2 m)
    (enable m) (SOC m) (Load m) (charger_state m) (adc m) (adc_count m)
    (clock m) (clock_count m) (trace m).
Definition set_LEDstate (v : Z) (m : machine) : machine :=
  mkMachine (panelVolts m) (batteryVolts m) (Voc m) (Vcvm m) (pulseWidth
    m) (pwm m) (b m) (stepAmount m) (state m) v (time m) (time2 m) (enable
    m) (SOC m) (Load m) (charger_state m) (adc m) (adc_count m) (clock m)
    (clock_count m) (trace m).
Definition set_time (v : Z) (m : machine) : machine :=
  mkMachine (panelVolts m) (batteryVolts m) (Voc m) (Vcvm m) (pulseWidth
    m) (pwm m) (b m) (stepAmount m) (state m) (LEDstate m) v (time2 m)
    (enable m) (SOC m) (Load m) (charger_state m) (adc m) (adc_count m)
    (clock m) (clock_count m) (trace m).
Definition set_time2 (v : Z) (m : machine) : machine :=
  mkMachine (panelVolts m) (batteryVolts m) (Voc m) (Vcvm m) (pulseWidth
    m) (pwm m) (b m) (stepAmount m) (state m) (LEDstate m) (time m) v
    (enable m) (SOC m) (Load m) (charger_state m) (adc m) (adc_count m)
    (clock m) (clock_count m) (trace m).
Definition set_enable (v : string) (m : machine) : machine :=
  mkMachine (panelVolts m) (batteryVolts m) (Voc m) (Vcvm m) (pulseWidth
    m) (pwm m) (b m) (stepAmount m) (state m) (LEDstate m) (time m) (time2
    m) v (SOC m) (Load m) (charger_state m) (adc m) (adc_count m) (clock
    m) (clock_count m) (trace m).
Definition set_SOC (v : string) (m : machine) : machine :=
  mkMachine (panelVolts m) (batteryVolts m) (Voc m) (Vcvm m) (pulseWidth
    m) (pwm m) (b m) (stepAmount m) (state m) (LEDstate m) (time m) (time2
    m) (enable m) v (Load m) (charger_state m) (adc m) (adc_count m)
    (clock m) (clock_count m) (trace m).
Definition set_Load (v : string) (m : machine) : machine :=
  mkMachine (panelVolts m) (batteryVolts m) (Voc m) (Vcvm m) (pulseWidth
    m) (pwm m) (b m) (stepAmount m) (state m) (LEDstate m) (time m) (time2
    m) (enable m) (SOC m) v (charger_state m) (adc m) (adc_count m) (clock
    m) (clock_count m) (trace m).
Definition set_charger_state (v : Z) (m : machine) : machine :=
  mkMachine (panelVolts m) (batteryVolts m) (Voc m) (Vcvm m) (pulseWidth
    m) (pwm m) (b m) (stepAmount m) (state m) (LEDstate m) (time m) (time2
    m) (enable m) (SOC m) (Load m) v (adc m) (adc_count m) (clock m)
    (clock_count m) (trace m).
Definition set_adc (v : Z -> nat -> Z) (m : machine) : machine :=
  mkMachine (panelVolts m) (batteryVolts m) (Voc m) (Vcvm m) (pulseWidth
    m) (pwm m) (b m) (stepAmount m) (state m) (LEDstate m) (time m) (time2
    m) (enable m) (SOC m) (Load m) (charger_state m) v (adc_count m)
    (clock m) (clock_count m) (trace m).
Definition set_adc_count (v : nat) (m : machine) : machine :=
  mkMachine (panelVolts m) (batteryVolts m) (Voc m) (Vcvm m) (pulseWidth
    m) (pwm m) (b m) (stepAmount m) (state m) (LEDstate m) (time m) (time2
    m) (enable m) (SOC m) (Load m) (charger_state m) (adc m) v (clock m)
    (clock_count m) (trace m).
Definition set_clock (v : nat -> Z) (m : machine) : machine :=
  mkMachine (panelVolts m) (batteryVolts m) (Voc m) (Vcvm m) (pulseWidth
    m) (pwm m) (b m) (stepAmount m) (state m) (LEDstate m) (time m) (time2
    m) (enable m) (SOC m) (Load m) (charger_state m) (adc m) (adc_count m)
    v (clock_count m) (trace m).
Definition set_clock_count (v : nat) (m : machine) : machine :=
  mkMachine (panelVolts m) (batteryVolts m) (Voc m) (Vcvm m) (pulseWidth
    m) (pwm m) (b m) (stepAmount m) (state m) (LEDstate m) (time m) (time2
    m) (enable m) (SOC m) (Load m) (charger_state m) (adc m) (adc_count m)
    (clock m) v (trace m).
Definition set_trace (v : list event) (m : machine) : machine :=
  mkMachine (panelVolts m) (batteryVolts m) (Voc m) (Vcvm m) (pulseWidth
    m) (pwm m) (b m) (stepAmount m) (state m) (LEDstate m) (time m) (time2
    m) (enable m) (SOC m) (Load m) (charger_state m) (adc m) (adc_count m)
    (clock m) (clock_count m) v.

(** Hardware access. *)
Definition emit (e : event) : M unit :=
  modify (fun m => set_trace (trace m ++ [e]) m).
Definition digitalWrite (pin level : Z) : M unit :=
  emit (DigitalWrite pin (to_uint8 level)).
Definition pwmWrite (pin duty : Z) : M unit :=
  emit (PwmWrite pin (to_uint8 duty)).
Definition delay (ms : Z) : M unit := emit (Delay ms).
Definition analogRead (pin : Z) : M Z :=
  fun m => (adc m pin (adc_count m), set_adc_count (Datatypes.S (adc_count m)) m).
Definition millis : M Z :=
  fun m => (to_ulong (clock m (clock_count m)),
            set_clock_count (Datatypes.S (clock_count m)) m).

Definition read_data : M unit :=
  modify (set_panelVolts 0) ;;
  for_loop 100
    (v <- analogRead panelMeter ;;
     modify (fun m => set_panelVolts (to_long (panelVolts m + v)) m)) ;;
  modify (set_batteryVolts 0) ;;
  for_loop 100
    (v <- analogRead batteryMeter ;;
     modify (fun m => set_batteryVolts (to_long (batteryVolts m + v)) m)) ;;
  modify (fun m => set_panelVolts (to_long (panelVolts m ÷ 100)) m) ;;
  modify (fun m => set_batteryVolts (to_long (batteryVolts m ÷ 100)) m) ;;
  modify (fun m => set_panelVolts (to_long (to_long (panelVolts m * 488) ÷ 1197)) m) ;;
  modify (fun m => set_batteryVolts (to_long (to_long (batteryVolts m * 488) ÷ 2441)) m).

Definition mode_select : M unit :=
  ifM (fun m => batteryVolts m <? 100)
    (modify (set_charger_state (mode_code no_battery)))
  (ifM (fun m => batteryVolts m >? Vmax)
    (modify (set_charger_state (mode_code error)))
  (ifM (fun m => (batteryVolts m >? 100) && (batteryVolts m <? Vmax)
                 && (panelVolts m >? Vmax))
    (ifM (fun m => batteryVolts m >=? to_int (Vfloat - 1))
       (modify (set_charger_state (mode_code Float)))
       (modify (set_charger_state (mode_code bulk))))
  (when (fun m => panelVolts m <? Vmax)
    (modify (set_charger_state (mode_code sleep)))))).

Definition run_charger : M unit :=
  modify (fun m => set_pulseWidth (constrain (pulseWidth m) 75 245) m) ;;
  modify (fun m => set_pwm (to_int (map (pulseWidth m) 0 255 0 100)) m) ;;
  pw <- gets pulseWidth ;;
  pwmWrite driver pw ;;
  digitalWrite shutDown HIGH ;;
  modify (set_enable "On"%string).

Definition disable_charger : M unit :=
  digitalWrite shutDown LOW ;;
  modify (set_enable "Off"%string).

Definition update_Vcvm : M unit :=
  disable_charger ;;
  delay 10 ;;
  modify (set_Voc 0) ;;
  for_loop 100
    (v <- analogRead panelMeter ;;
     modify (fun m => set_Voc (to_long (Voc m + v)) m)) ;;
  modify (fun m => set_Voc (to_long (Voc m ÷ 100)) m) ;;
  modify (fun m => set_Voc (to_long (to_long (Voc m * 488) ÷ 1197)) m) ;;
  modify (fun m => set_Vcvm (to_long (to_long (Voc m * 76) ÷ 100)) m) ;;
  modify (set_b 1).

(** [CVM], first part: the timer. [while (b > 0) { time = millis(); b--; }]
    runs its body [b] times when [b] is positive and not at all otherwise;
    then the open-circuit voltage is sampled again when [check] milliseconds
    have passed. *)
Definition CVM_timer : M unit :=
  n <- gets (fun m => Z.to_nat (b m)) ;;
  for_loop n
    (t <- millis ;;
     modify (set_time t) ;;
     modify (fun m => set_b (to_int (b m - 1)) m)) ;;
  now <- millis ;;
  when (fun m => to_ulong (now - time m) >=? check) update_Vcvm.

(** [CVM], second part: the step and the adjustment of [pulseWidth]. The
    guard [if (Vcvm < batteryVolts) Vcvm = (batteryVolts + 10);] that stood
    between the two parts is commented out in this variant. *)
Definition CVM_adjust : M unit :=
  modify (fun m => set_stepAmount
                     (to_int (to_long (to_long (Vcvm m - panelVolts m) ÷ 10))) m) ;;
  when (fun m => stepAmount m <? 1) (modify (set_stepAmount 1)) ;;
  ifM (fun m => panelVolts m >? Vcvm m)
    (ifM (fun m => pulseWidth m <? 245)
       (modify (fun m => set_pulseWidth (to_int (pulseWidth m + stepAmount m)) m))
       (modify (set_pulseWidth 245)))
  (when (fun m => panelVolts m <? Vcvm m)
    (ifM (fun m => pulseWidth m >? 75)
       (modify (fun m => set_pulseWidth (to_int (pulseWidth m - stepAmount m)) m))
       (modify (set_pulseWidth 75)))).

Definition CVM : M unit :=
  CVM_timer ;;
  CVM_adjust.

Definition error_blink : M unit :=
  now <- millis ;;
  when (fun m => to_ulong (now - time2 m) >=? 200)
    (modify (fun m => set_LEDstate (lnot (LEDstate m)) m) ;;
     l <- gets LEDstate ;;
     digitalWrite 13 l ;;
     t <- millis ;;
     modify (set_time2 t)).

Definition sleep_blink : M unit :=
  now <- millis ;;
  when (fun m => to_ulong (now - time2 m) >=? 2000)
    (modify (fun m => set_LEDstate (lnot (LEDstate m)) m) ;;
     l <- gets LEDstate ;;
     digitalWrite 13 l ;;
     t <- millis ;;
     modify (set_time2 t)).

Definition set_charger : M unit :=
  cs <- gets charger_state ;;
  match mode_of_code cs with
  | Some no_battery =>
      disable_charger ;;
      error_blink ;;
      modify (set_SOC "No Battery!"%string) ;;
      modify (set_state 0)
  | Some sleep =>
      disable_charger ;;
      modify (set_SOC "Sleep"%string) ;;
      sleep_blink ;;
      modify (set_state 1) ;;
      modify (set_pulseWidth 100)
  | Some bulk =>
      modify (set_SOC "Bulk"%string) ;;
      CVM ;;
      run_charger ;;
      digitalWrite 13 HIGH ;;
      modify (set_state 2)
  | Some Float =>
      modify (set_SOC "Float"%string) ;;
      modify (set_pulseWidth 245) ;;
      ifM (fun m => batteryVolts m <? Vfloat) run_charger disable_charger ;;
      digitalWrite 13 LOW ;;
      modify (set_state 3)
  | Some error =>
      disable_charger ;;
      error_blink ;;
      modify (set_SOC "Error"%string) ;;
      modify (set_state 4)
  | None =>
      disable_charger ;;
      error_blink ;;
      modify (set_SOC "Off"%string)
  end.

Definition run_fan : M unit :=
  cs <- gets charger_state ;;
  match mode_of_code cs with
  | Some bulk => digitalWrite fan HIGH
  | _ => digitalWrite fan LOW
  end.

Definition run_load : M unit :=
  ifM (fun m => batteryVolts m >? lowBatt)
    (digitalWrite load LOW ;; modify (set_Load "On"%string))
    (digitalWrite load HIGH ;; modify (set_Load "Off"%string)).

Definition print_data : M unit :=
  emit (SerialText "Voc:"%string) ;;
  v <- gets Voc ;; emit (SerialNum v) ;;
  emit (SerialText tab) ;;
  emit (SerialText "Vpanel:"%string) ;;
  v <- gets panelVolts ;; emit (SerialNum v) ;;
  emit (SerialText tab) ;;
  emit (SerialText "Vcvm:"%string) ;;
  v <- gets Vcvm ;; emit (SerialNum v) ;;
  emit (SerialText tab) ;;
  emit (SerialText "Vbatt:"%string) ;;
  v <- gets batteryVolts ;; emit (SerialNum v) ;;
  emit (SerialText tab) ;;
  emit (SerialText "PWM:"%string) ;;
  v <- gets pwm ;; emit (SerialNum v) ;;
  emit (SerialText "%"%string) ;;
  emit (SerialText tab) ;;
  emit (SerialText "pulseWidth:"%string) ;;
  v <- gets pulseWidth ;; emit (SerialNum v) ;;
  emit (SerialText tab) ;;
  emit (SerialText "Enabled:"%string) ;;
  s <- gets enable ;; emit (SerialText s) ;;
  emit (SerialText tab) ;;
  emit (SerialText "Charger State:"%string) ;;
  s <- gets SOC ;; emit (SerialText s) ;;
  emit (SerialText tab) ;;
  emit (SerialText "Load State:"%string) ;;
  s <- gets Load ;; emit (SerialText s) ;;
  emit SerialNewline.

(** One pass of [loop()]: one control tick. *)
Definition loop : M unit :=
  read_data ;;
  mode_select ;;
  set_charger ;;
  run_load ;;
  run_fan ;;
  print_data.

(** The rules of this variant's [mode_select], read as a function of the
    two voltages: no_battery below 100, else error above [Vmax], else, with
    the panel above [Vmax], Float from [Vfloat - 1] up and bulk below, else
    sleep. The test for light on the panel (the panel above [Vmax], whatever
    the battery) and the float threshold are those of the code, not of the
    specification; [mode_select] follows these rules on all readings but
    those where none of its tests holds. *)
Definition classify (pv bv : Z) : charger_mode :=
  if bv <? 100 then no_battery
  else if bv >? Vmax then error
  else if pv >? Vmax then (if bv >=? Vfloat - 1 then Float else bulk)
  else sleep.

(** The step of the CVM Controller as the specification words it (section
    4.4): [max(1, scale * |Vcvm - panelVoltage|)], the scale of this variant
    being one unit of duty per volt, that is per ten deci-volts. *)
Definition spec_stepAmount (vcvm pv : Z) : Z := Z.max 1 (Z.abs (vcvm - pv) ÷ 10).

(** The globals as their initialisers leave them at power-on or reset, on a
    given hardware. *)
Definition power_on (adc : Z -> nat -> Z) (clock : nat -> Z) : machine :=
  mkMachine 0 120 0 0 100 0 1 1 0 LOW 0 0
    "starting"%string "Initializing"%string "Off"%string
    (mode_code no_battery) adc 0%nat clock 0%nat [].

(** [n] passes of [loop()], as the Arduino core's [main] runs them one after
    the other. *)
Definition ticks (n : nat) : M unit := for_loop n loop.

End DeciVolt.

(** * The floating-point variant (volts), [Arduino-MPPT.ino] *)

Module FloatVolt.
Local Open Scope mppt_scope.

(** Constants of the sketch. *)
Definition panelMeter : Z := A0.
Definition batteryMeter : Z := A1.
Definition driver : Z := 3.
Definition shutDown : Z := 4.
Definition load : Z := 2.
Definition Vbulk : Z := 13.
Definition lowBatt : Z := 11.
Definition Vmax : Z := 15.
Definition check : Z := 15000.
Definition Vfloat : float := Eval vm_compute in decimal 136 10.

(** The decimal literals of the sketch. *)
Definition lit_0_1 : float := Eval vm_compute in decimal 1 10.
Definition lit_0_76 : float := Eval vm_compute in decimal 76 100.
Definition panel_scale : float :=
  Eval vm_compute in decimal 38136466707895 1000000000000000.
Definition battery_scale : float :=
  Eval vm_compute in decimal 19550342130987 1000000000000000.

(** The bounds [run_charger] and [CVM] hold [pulseWidth] to. *)
Definition minDuty : Z := 100.
Definition maxDuty : Z := 245.

(** [enum charger_mode {no_battery, sleep, bulk, Float, error}]. *)
Inductive charger_mode : Type := no_battery | sleep | bulk | Float | error.

Definition mode_code (c : charger_mode) : Z :=
  match c with
  | no_battery => 0 | sleep => 1 | bulk => 2 | Float => 3 | error => 4
  end.

Definition mode_of_code (z : Z) : option charger_mode :=
  match z with
  | 0 => Some no_battery | 1 => Some sleep | 2 => Some bulk
  | 3 => Some Float | 4 => Some error | _ => None
  end.

(** The globals of the sketch, then the hardware, as in [DeciVolt]. *)
Record machine : Type := mkMachine {
  panelVolts : float;
  batteryVolts : float;
  Voc : float;
  Vcvm : float;
  pulseWidth : Z;
  pwm : Z;
  b : Z;
  stepAmount : Z;
  time : Z;
  enable : string;
  SOC : string;
  Load : string;
  charger_state : Z;
  adc : Z -> nat -> Z;
  adc_count : nat;
  clock : nat -> Z;
  clock_count : nat;
  trace : list event
}.

Definition set_panelVolts (v : float) (m : machine) : machine :=
  mkMachine v (batteryVolts m) (Voc m) (Vcvm m) (pulseWidth m) (pwm m) (b
    m) (stepAmount m) (time m) (enable m) (SOC m) (Load m) (charger_state
    m) (adc m) (adc_count m) (clock m) (clock_count m) (trace m).
Definition set_batteryVolts (v : float) (m : machine) : machine :=
  mkMachine (panelVolts m) v (Voc m) (Vcvm m) (pulseWidth m) (pwm m) (b m)
    (stepAmount m) (time m) (enable m) (SOC m) (Load m) (charger_state m)
    (adc m) (adc_count m) (clock m) (clock_count m) (trace m).
Definition set_Voc (v : float) (m : machine) : machine :=
  mkMachine (panelVolts m) (batteryVolts m) v (Vcvm m) (pulseWidth m) (pwm
    m) (b m) (stepAmount m) (time m) (enable m) (SOC m) (Load m)
    (charger_state m) (adc m) (adc_count m) (clock m) (clock_count m)
    (trace m).
Definition set_Vcvm (v : float) (m : machine) : machine :=
  mkMachine (panelVolts m) (batteryVolts m) (Voc m) v (pulseWidth m) (pwm
    m) (b m) (stepAmount m) (time m) (enable m) (SOC m) (Load m)
    (charger_state m) (adc m) (adc_count m) (clock m) (clock_count m)
    (trace m).
Definition set_pulseWidth (v : Z) (m : machine) : machine :=
  mkMachine (panelVolts m) (batteryVolts m) (Voc m) (Vcvm m) v (pwm m) (b
    m) (stepAmount m) (time m) (enable m) (SOC m) (Load m) (charger_state
    m) (adc m) (adc_count m) (clock m) (clock_count m) (trace m).
Definition set_pwm (v : Z) (m : machine) : machine :=
  mkMachine (panelVolts m) (batteryVolts m) (Voc m) (Vcvm m) (pulseWidth
    m) v (b m) (stepAmount m) (time m) (enable m) (SOC m) (Load m)
    (charger_state m) (adc m) (adc_count m) (clock m) (clock_count m)
    (trace m).
Definition set_b (v : Z) (m : machine) : machine :=
  mkMachine (panelVolts m) (batteryVolts m) (Voc m) (Vcvm m) (pulseWidth
    m) (pwm m) v (stepAmount m) (time m) (enable m) (SOC m) (Load m)
    (charger_state m) (adc m) (adc_count m) (clock m) (clock_count m)
    (trace m).
Definition set_stepAmount (v : Z) (m : machine) : machine :=
  mkMachine (panelVolts m) (batteryVolts m) (Voc m) (Vcvm m) (pulseWidth
    m) (pwm m) (b m) v (time m) (enable m) (SOC m) (Load m) (charger_state
    m) (adc m) (adc_count m) (clock m) (clock_count m) (trace m).
Definition set_time (v : Z) (m : machine) : machine :=
  mkMachine (panelVolts m) (batteryVolts m) (Voc m) (Vcvm m) (pulseWidth
    m) (pwm m) (b m) (stepAmount m) v (enable m) (SOC m) (Load m)
    (charger_state m) (adc m) (adc_count m) (clock m) (clock_count m)
    (trace m).
Definition set_enable (v : string) (m : machine) : machine :=
  mkMachine (panelVolts m) (batteryVolts m) (Voc m) (Vcvm m) (pulseWidth
    m) (pwm m) (b m) (stepAmount m) (time m) v (SOC m) (Load m)
    (charger_state m) (adc m) (adc_count m) (clock m) (clock_count m)
    (trace m).
Definition set_SOC (v : string) (m : machine) : machine :=
  mkMachine (panelVolts m) (batteryVolts m) (Voc m) (Vcvm m) (pulseWidth
    m) (pwm m) (b m) (stepAmount m) (time m) (enable m) v (Load m)
    (charger_state m) (adc m) (adc_count m) (clock m) (clock_count m)
    (trace m).
Definition set_Load (v : string) (m : machine) : machine :=
  mkMachine (panelVolts m) (batteryVolts m) (Voc m) (Vcvm m) (pulseWidth
    m) (pwm m) (b m) (stepAmount m) (time m) (enable m) (SOC m) v
    (charger_state m) (adc m) (adc_count m) (clock m) (clock_count m)
    (trace m).
Definition set_charger_state (v : Z) (m : machine) : machine :=
  mkMachine (panelVolts m) (batteryVolts m) (Voc m) (Vcvm m) (pulseWidth
    m) (pwm m) (b m) (stepAmount m) (time m) (enable m) (SOC m) (Load m) v
    (adc m) (adc_count m) (clock m) (clock_count m) (trace m).
Definition set_adc (v : Z -> nat -> Z) (m : machine) : machine :=
  mkMachine (panelVolts m) (batteryVolts m) (Voc m) (Vcvm m) (pulseWidth
    m) (pwm m) (b m) (stepAmount m) (time m) (enable m) (SOC m) (Load m)
    (charger_state m) v (adc_count m) (clock m) (clock_count m) (trace m).
Definition set_adc_count (v : nat) (m : machine) : machine :=
  mkMachine (panelVolts m) (batteryVolts m) (Voc m) (Vcvm m) (pulseWidth
    m) (pwm m) (b m) (stepAmount m) (time m) (enable m) (SOC m) (Load m)
    (charger_state m) (adc m) v (clock m) (clock_count m) (trace m).
Definition set_clock (v : nat -> Z) (m : machine) : machine :=
  mkMachine (panelVolts m) (batteryVolts m) (Voc m) (Vcvm m) (pulseWidth
    m) (pwm m) (b m) (stepAmount m) (time m) (enable m) (SOC m) (Load m)
    (charger_state m) (adc m) (adc_count m) v (clock_count m) (trace m).
Definition set_clock_count (v : nat) (m : machine) : machine :=
  mkMachine (panelVolts m) (batteryVolts m) (Voc m) (Vcvm m) (pulseWidth
    m) (pwm m) (b m) (stepAmount m) (time m) (enable m) (SOC m) (Load m)
    (charger_state m) (adc m) (adc_count m) (clock m) v (trace m).
Definition set_trace (v : list event) (m : machine) : machine :=
  mkMachine (panelVolts m) (batteryVolts m) (Voc m) (Vcvm m) (pulseWidth
    m) (pwm m) (b m) (stepAmount m) (time m) (enable m) (SOC m) (Load m)
    (charger_state m) (adc m) (adc_count m) (clock m) (clock_count m) v.

(** Hardware access. *)
Definition emit (e : event) : M unit :=
  modify (fun m => set_trace (trace m ++ [e]) m).
Definition digitalWrite (pin level : Z) : M unit :=
  emit (DigitalWrite pin (to_uint8 level)).
Definition pwmWrite (pin duty : Z) : M unit :=
  emit (PwmWrite pin (to_uint8 duty)).
Definition delay (ms : Z) : M unit := emit (Delay ms).
Definition analogRead (pin : Z) : M Z :=
  fun m => (adc m pin (adc_count m), set_adc_count (Datatypes.S (adc_count m)) m).
Definition millis : M Z :=
  fun m => (to_ulong (clock m (clock_count m)),
            set_clock_count (Datatypes.S (clock_count m)) m).

Definition read_data : M unit :=
  for_loop 100
    (v <- analogRead panelMeter ;;
     modify (fun m => set_panelVolts (fadd (panelVolts m) (of_int v)) m) ;;
     delay 1) ;;
  for_loop 100
    (v <- analogRead batteryMeter ;;
     modify (fun m => set_batteryVolts (fadd (batteryVolts m) (of_int v)) m) ;;
     delay 1) ;;
  modify (fun m => set_panelVolts (fdiv (panelVolts m) (of_int 100)) m) ;;
  modify (fun m => set_batteryVolts (fdiv (batteryVolts m) (of_int 100)) m) ;;
  modify (fun m => set_panelVolts (fmul (panelVolts m) panel_scale) m) ;;
  modify (fun m => set_batteryVolts (fmul (batteryVolts m) battery_scale) m).

Definition mode_select : M unit :=
  ifM (fun m => flt (batteryVolts m) (of_int 10))
    (modify (set_charger_state (mode_code no_battery)))
  (ifM (fun m => fgt (batteryVolts m) (of_int Vmax))
    (modify (set_charger_state (mode_code error)))
  (ifM (fun m => fgt (batteryVolts m) (of_int 10)
                 && flt (batteryVolts m) (of_int Vmax)
                 && fgt (panelVolts m) (fadd (batteryVolts m) (of_int 1)))
    (ifM (fun m => fle (batteryVolts m) (fsub Vfloat lit_0_1))
       (modify (set_charger_state (mode_code bulk)))
       (when (fun m => fge (batteryVolts m) Vfloat)
          (modify (set_charger_state (mode_code Float)))))
  (modify (set_charger_state (mode_code sleep))))).

Definition run_charger : M unit :=
  modify (fun m => set_pulseWidth (constrain (pulseWidth m) 100 245) m) ;;
  modify (fun m => set_pwm (to_int (map (pulseWidth m) 0 255 0 100)) m) ;;
  pw <- gets pulseWidth ;;
  pwmWrite driver pw ;;
  digitalWrite shutDown HIGH ;;
  modify (set_enable "On"%string).

Definition disable_charger : M unit :=
  digitalWrite shutDown LOW ;;
  modify (set_enable "Off"%string).

Definition update_Vcvm : M unit :=
  disable_charger ;;
  delay 100 ;;
  for_loop 100
    (v <- analogRead panelMeter ;;
     modify (fun m => set_Voc (fadd (Voc m) (of_int v)) m) ;;
     delay 1) ;;
  modify (fun m => set_Voc (fdiv (Voc m) (of_int 100)) m) ;;
  modify (fun m => set_Voc (fmul (Voc m) panel_scale) m) ;;
  modify (fun m => set_Vcvm (fmul (Voc m) lit_0_76) m) ;;
  modify (set_b 1).

(** [CVM], first part: the timer. [while (b > 0) { time = millis(); b--; }]
    runs its body [b] times when [b] is positive and not at all otherwise;
    then the open-circuit voltage is sampled again when [check] milliseconds
    have passed. *)
Definition CVM_timer : M unit :=
  n <- gets (fun m => Z.to_nat (b m)) ;;
  for_loop n
    (t <- millis ;;
     modify (set_time t) ;;
     modify (fun m => set_b (to_int (b m - 1)) m)) ;;
  now <- millis ;;
  when (fun m => to_ulong (now - time m) >=? check) update_Vcvm.

(** [CVM], second part: the guard on the target voltage. *)
Definition CVM_guard : M unit :=
  when (fun m => flt (Vcvm m) (batteryVolts m))
    (modify (fun m => set_Vcvm (fadd (batteryVolts m) (of_int 1)) m)).

(** [CVM], third part: the step and the adjustment of [pulseWidth]. *)
Definition CVM_adjust : M unit :=
  modify (fun m => set_stepAmount
                     (to_int (truncate (abs (fsub (Vcvm m) (panelVolts m))))) m) ;;
  when (fun m => stepAmount m <? 1) (modify (set_stepAmount 1)) ;;
  ifM (fun m => fgt (panelVolts m) (Vcvm m))
    (ifM (fun m => pulseWidth m <? 245)
       (modify (fun m => set_pulseWidth (to_int (pulseWidth m + stepAmount m)) m))
       (modify (set_pulseWidth 245)))
  (when (fun m => flt (panelVolts m) (Vcvm m))
    (ifM (fun m => pulseWidth m >? 100)
       (modify (fun m => set_pulseWidth (to_int (pulseWidth m - stepAmount m)) m))
       (modify (set_pulseWidth 100)))).

Definition CVM : M unit :=
  CVM_timer ;;
  CVM_guard ;;
  CVM_adjust.

Definition error_blink : M unit :=
  digitalWrite 13 HIGH ;; delay 100 ;;
  digitalWrite 13 LOW ;; delay 100 ;;
  digitalWrite 13 HIGH ;; delay 100 ;;
  digitalWrite 13 LOW ;; delay 100 ;;
  digitalWrite 13 HIGH ;; delay 100 ;;
  digitalWrite 13 LOW ;; delay 100 ;;
  digitalWrite 13 HIGH ;; delay 100 ;;
  digitalWrite 13 LOW ;; delay 100.

Definition sleep_blink : M unit :=
  digitalWrite 13 HIGH ;; delay 2000 ;;
  digitalWrite 13 LOW ;; delay 2000.

Definition set_charger : M unit :=
  cs <- gets charger_state ;;
  match mode_of_code cs with
  | Some no_battery =>
      disable_charger ;;
      error_blink ;;
      modify (set_SOC "No Battery!"%string)
  | Some sleep =>
      disable_charger ;;
      modify (set_SOC "Sleep"%string) ;;
      sleep_blink
  | Some bulk =>
      modify (set_SOC "Bulk"%string) ;;
      CVM ;;
      run_charger ;;
      digitalWrite 13 HIGH
  | Some Float =>
      modify (set_SOC "Float"%string) ;;
      modify (set_pulseWidth 245) ;;
      ifM (fun m => flt (batteryVolts m) Vfloat) run_charger disable_charger ;;
      digitalWrite 13 LOW
  | Some error =>
      disable_charger ;;
      error_blink ;;
      modify (set_SOC "Error"%string)
  | None =>
      disable_charger ;;
      error_blink ;;
      modify (set_SOC "Off"%string)
  end.

Definition run_load : M unit :=
  ifM (fun m => fgt (batteryVolts m) (of_int lowBatt))
    (digitalWrite load LOW ;; modify (set_Load "On"%string))
    (digitalWrite load HIGH ;; modify (set_Load "Off"%string)).

Definition print_data : M unit :=
  emit (SerialText "Voc:"%string) ;;
  v <- gets Voc ;; emit (SerialReal v) ;;
  emit (SerialText tab) ;;
  emit (SerialText "Vpanel:"%string) ;;
  v <- gets panelVolts ;; emit (SerialReal v) ;;
  emit (SerialText tab) ;;
  emit (SerialText "Vcvm:"%string) ;;
  v <- gets Vcvm ;; emit (SerialReal v) ;;
  emit (SerialText tab) ;;
  emit (SerialText "Vbatt:"%string) ;;
  v <- gets batteryVolts ;; emit (SerialReal v) ;;
  emit (SerialText tab) ;;
  emit (SerialText "PWM:"%string) ;;
  v <- gets pwm ;; emit (SerialNum v) ;;
  emit (SerialText "%"%string) ;;
  emit (SerialText tab) ;;
  emit (SerialText "pulseWidth:"%string) ;;
  v <- gets pulseWidth ;; emit (SerialNum v) ;;
  emit (SerialText tab) ;;
  emit (SerialText "Enabled:"%string) ;;
  s <- gets enable ;; emit (SerialText s) ;;
  emit (SerialText tab) ;;
  emit (SerialText "Charger State:"%string) ;;
  s <- gets SOC ;; emit (SerialText s) ;;
  emit (SerialText tab) ;;
  emit (SerialText "Load State:"%string) ;;
  s <- gets Load ;; emit (SerialText s) ;;
  emit SerialNewline.

(** One pass of [loop()]: one control tick. *)
Definition loop : M unit :=
  read_data ;;
  mode_select ;;
  set_charger ;;
  run_load ;;
  print_data.

(** The Mode Selector as a function of the two voltages, in the decision
    order of the specification (section 4.2) on this variant's thresholds:
    the first rule that matches decides; [None] stands for the hysteresis
    band, with light on the panel and the battery between [Vfloat - 0.1] and
    [Vfloat], where no rule names a state. *)
Definition classify (pv bv : float) : option charger_mode :=
  if flt bv (of_int 10) then Some no_battery
  else if fgt bv (of_int Vmax) then Some error
  else if fgt bv (of_int 10) && flt bv (of_int Vmax)
          && fgt pv (fadd bv (of_int 1))
  then (if fle bv (fsub Vfloat lit_0_1) then Some bulk
        else if fge bv Vfloat then Some Float else None)
  else Some sleep.

(** The globals as their initialisers leave them at power-on or reset, on a
    given hardware. *)
Definition power_on (adc : Z -> nat -> Z) (clock : nat -> Z) : machine :=
  mkMachine (of_int 0) (of_int 12) (of_int 0) (of_int 0) 245 0 1 1 0
    "starting"%string "Initializing"%string "Off"%string
    (mode_code no_battery) adc 0%nat clock 0%nat [].

(** [n] passes of [loop()], as the Arduino core's [main] runs them one after
    the other. *)
Definition ticks (n : nat) : M unit := for_loop n loop.

(** The two blink routines that [set_charger] no longer calls ("this takes too
    long"). *)
Definition bulk_blink : M unit :=
  digitalWrite 13 HIGH ;; delay 200 ;;
  digitalWrite 13 LOW ;; delay 100 ;;
  digitalWrite 13 HIGH ;; delay 400 ;;
  digitalWrite 13 LOW ;; delay 100 ;;
  digitalWrite 13 HIGH ;; delay 600 ;;
  digitalWrite 13 LOW ;; delay 100.

Definition float_blink : M unit :=
  digitalWrite 13 HIGH ;; delay 500 ;;
  digitalWrite 13 LOW ;; delay 500.

End FloatVolt.

(** * Properties *)

(** ** The state monad *)

Section MonadFacts.
Context {S : Type}.
Implicit Types s : S.

Lemma exec_bind {A B} (c : M A) (k : A -> M B) s :
  exec (bind c k) s = exec (k (eval c s)) (exec c s).
Proof. reflexivity. Qed.

Lemma exec_ifM (c : S -> bool) (t e : M unit) s :
  exec (ifM c t e) s = if c s then exec t s else exec e s.
Proof. unfold exec, ifM. destruct (c s); reflexivity. Qed.

Lemma exec_when (c : S -> bool) (t : M unit) s :
  exec (when c t) s = if c s then exec t s else s.
Proof. unfold when. rewrite exec_ifM. reflexivity. Qed.

Lemma exec_for_loop_S (n : nat) (body : M unit) s :
  exec (for_loop (Datatypes.S n) body) s = exec (for_loop n body) (exec body s).
Proof. reflexivity. Qed.

Section Preserves.
Context {B : Type} (f : S -> B).

Lemma preserves_ret {A} (a : A) : preserves f (ret a).
Proof. intro s. reflexivity. Qed.

Lemma preserves_gets {A} (g : S -> A) : preserves f (gets g).
Proof. intro s. reflexivity. Qed.

Lemma preserves_modify (g : S -> S) :
  (forall s, f (g s) = f s) -> preserves f (modify g).
Proof. intros H s. apply H. Qed.

Lemma preserves_bind {A C} (c : M A) (k : A -> M C) :
  preserves f c -> (forall a, preserves f (k a)) -> preserves f (bind c k).
Proof.
  intros Hc Hk s. rewrite exec_bind, Hk. apply Hc.
Qed.

Lemma preserves_ifM (c : S -> bool) (t e : M unit) :
  preserves f t -> preserves f e -> preserves f (ifM c t e).
Proof.
  intros Ht He s. rewrite exec_ifM. destruct (c s); [apply Ht | apply He].
Qed.

Lemma preserves_when (c : S -> bool) (t : M unit) :
  preserves f t -> preserves f (when c t).
Proof. intro Ht. apply preserves_ifM; [exact Ht | apply preserves_ret]. Qed.

Lemma preserves_for_loop (n : nat) (body : M unit) :
  preserves f body -> preserves f (for_loop n body).
Proof.
  intro Hb. induction n as [|n IH]; intro s.
  - reflexivity.
  - rewrite exec_for_loop_S, IH. apply Hb.
Qed.
End Preserves.

Section Appends.
Variable tr : S -> list event.
Variable P : list event -> Prop.
Hypothesis P_nil : P [].
Hypothesis P_app : forall xs ys, P xs -> P ys -> P (xs ++ ys).

Lemma appends_quiet {A} (c : M A) : preserves tr c -> appends tr P c.
Proof.
  intros H s. exists []. rewrite app_nil_r. split; [apply H | exact P_nil].
Qed.

Lemma appends_bind {A C} (c : M A) (k : A -> M C) :
  appends tr P c -> (forall a, appends tr P (k a)) -> appends tr P (bind c k).
Proof.
  intros Hc Hk s. rewrite exec_bind.
  destruct (Hc s) as (xs & Exs & Pxs).
  destruct (Hk (eval c s) (exec c s)) as (ys & Eys & Pys).
  exists (xs ++ ys). split; [| apply P_app; assumption].
  rewrite Eys, Exs, app_assoc. reflexivity.
Qed.

Lemma appends_ifM (c : S -> bool) (t e : M unit) :
  appends tr P t -> appends tr P e -> appends tr P (ifM c t e).
Proof.
  intros Ht He s. rewrite exec_ifM. destruct (c s); [apply Ht | apply He].
Qed.

Lemma appends_when (c : S -> bool) (t : M unit) :
  appends tr P t -> appends tr P (when c t).
Proof.
  intro Ht. apply appends_ifM; [exact Ht |].
  apply appends_quiet, preserves_ret.
Qed.

Lemma appends_for_loop (n : nat) (body : M unit) :
  appends tr P body -> appends tr P (for_loop n body).
Proof.
  intro Hb. induction n as [|n IH].
  - apply appends_quiet, preserves_ret.
  - apply (appends_bind body (fun _ => for_loop n body)); [exact Hb | intros _; exact IH].
Qed.
End Appends.
End MonadFacts.

(** ** Sequenced traces *)

Section SequencedFacts.
Variables driver shutDown lo hi : Z.
Let seqd := sequenced driver shutDown lo hi.

Lemma sequenced_app xs ys : seqd xs -> seqd ys -> seqd (xs ++ ys).
Proof.
  intros Hx Hy. induction Hx; simpl.
  - exact Hy.
  - apply sequenced_other; assumption.
  - apply sequenced_enable; assumption.
Qed.

(** Every duty cycle written in a sequenced trace is within the bounds. *)
Lemma sequenced_duty xs : seqd xs -> Forall (duty_ok lo hi) xs.
Proof.
  induction 1; constructor; try assumption.
  constructor; [exact I | assumption].
Qed.

(** Every enabling event of a sequenced trace comes right after a write of
    a duty cycle within the bounds to the PWM pin. *)
Lemma sequenced_enable_after_write xs :
  seqd xs ->
  forall pre e post, xs = pre ++ e :: post -> enables shutDown e = true ->
  exists pre' d, pre = pre' ++ [PwmWrite driver d] /\ lo <= d <= hi.
Proof.
  induction 1 as [|e0 evs He0 Hd Hs IH|d evs Hd Hs IH]; intros pre e post E En.
  - destruct pre; discriminate.
  - destruct pre as [|x pre]; simpl in E; injection E as -> E.
    + congruence.
    + destruct (IH _ _ _ E En) as (pre' & d & -> & Hr).
      exists (x :: pre'), d. split; [reflexivity | exact Hr].
  - destruct pre as [|x pre]; simpl in E; injection E as <- E.
    + discriminate.
    + destruct pre as [|y pre]; simpl in E; injection E as <- E.
      * exists [], d. split; [reflexivity | exact Hd].
      * destruct (IH _ _ _ E En) as (pre' & d' & -> & Hr).
        exists (PwmWrite driver d :: DigitalWrite shutDown HIGH :: pre'), d'.
        split; [reflexivity | exact Hr].
Qed.
End SequencedFacts.

(** ** Machine integers *)

Lemma constrain_range amt low high :
  low <= high -> low <= constrain amt low high <= high.
Proof.
  intro H. unfold constrain.
  destruct (Z.ltb_spec amt low); [lia |].
  rewrite Z.gtb_ltb. destruct (Z.ltb_spec high amt); lia.
Qed.

(** [constrain] returns a value within the bounds as it is, and the nearer
    bound otherwise. *)
Lemma constrain_clamp amt low high :
  low <= high -> constrain amt low high = Z.max low (Z.min high amt).
Proof.
  intro H. unfold constrain.
  destruct (Z.ltb_spec amt low); [lia |].
  rewrite Z.gtb_ltb. destruct (Z.ltb_spec high amt); lia.
Qed.

Lemma to_uint8_small z : 0 <= z < 256 -> to_uint8 z = z.
Proof. intro H. unfold to_uint8. apply Z.mod_small. change (2 ^ 8) with 256. lia. Qed.

Lemma to_int_small z : - 32768 <= z < 32768 -> to_int z = z.
Proof.
  intro H. unfold to_int, wrap_signed.
  change (2 ^ (16 - 1)) with 32768. change (2 ^ 16) with 65536.
  rewrite Z.mod_small; lia.
Qed.

Lemma to_long_small z : - 2147483648 <= z < 2147483648 -> to_long z = z.
Proof.
  intro H. unfold to_long, wrap_signed.
  change (2 ^ (32 - 1)) with 2147483648. change (2 ^ 32) with 4294967296.
  rewrite Z.mod_small; lia.
Qed.

Lemma to_int_range z : - 32768 <= to_int z < 32768.
Proof.
  unfold to_int, wrap_signed.
  change (2 ^ (16 - 1)) with 32768. change (2 ^ 16) with 65536.
  pose proof (Z.mod_pos_bound (z + 32768) 65536 eq_refl). lia.
Qed.

Lemma to_long_add_l x y : to_long (to_long x + y) = to_long (x + y).
Proof.
  unfold to_long, wrap_signed.
  change (2 ^ (32 - 1)) with 2147483648. change (2 ^ 32) with 4294967296.
  f_equal.
  replace ((x + 2147483648) mod 4294967296 - 2147483648 + y + 2147483648)
    with ((x + 2147483648) mod 4294967296 + y) by lia.
  rewrite Zplus_mod_idemp_l. f_equal. lia.
Qed.

Lemma to_long_idem x : to_long (to_long x) = to_long x.
Proof.
  pose proof (to_long_add_l x 0) as H. rewrite !Z.add_0_r in H. exact H.
Qed.

(** ** Binary32 arithmetic: adding one never goes down

    The floating-point variant guards its target voltage with
    [batteryVolts + 1]. That the sum is not below [batteryVolts] is a fact
    about rounding; it is proved here from the definition of the operations,
    for every valid binary32 number. *)

Lemma digits2_pos_log2 m : Zpos (digits2_pos m) = Z.log2 (Zpos m) + 1.
Proof.
  induction m as [m IH|m IH|]; simpl digits2_pos.
  - rewrite Pos2Z.inj_succ, IH. destruct m; simpl; lia.
  - rewrite Pos2Z.inj_succ, IH. destruct m; simpl; lia.
  - reflexivity.
Qed.

Lemma digits2_pos_bounds m :
  2 ^ (Zpos (digits2_pos m) - 1) <= Zpos m < 2 ^ Zpos (digits2_pos m).
Proof.
  rewrite digits2_pos_log2.
  pose proof (Z.log2_spec (Zpos m) eq_refl) as H.
  replace (Z.log2 (Z.pos m) + 1 - 1) with (Z.log2 (Zpos m)) by lia.
  replace (Z.log2 (Z.pos m) + 1) with (Z.succ (Z.log2 (Zpos m))) by lia.
  exact H.
Qed.

Lemma digits2_pos_unique m d :
  2 ^ (d - 1) <= Zpos m < 2 ^ d -> Zpos (digits2_pos m) = d.
Proof.
  intro H. rewrite digits2_pos_log2.
  assert (0 < d).
  { destruct (Z.lt_trichotomy d 0) as [Hd|[Hd|Hd]]; [| |exact Hd].
    - rewrite (Z.pow_neg_r 2 d Hd) in H. lia.
    - subst d. simpl in H. lia. }
  rewrite (Z.log2_unique (Zpos m) (d - 1)); [lia | lia |].
  replace (Z.succ (d - 1)) with d by lia. exact H.
Qed.

Lemma shr_1_m mrs : 0 <= shr_m mrs -> shr_m (shr_1 mrs) = shr_m mrs / 2.
Proof.
  destruct mrs as [m r s]. simpl. intro H.
  destruct m as [|[p|p|]|p]; simpl; try reflexivity; try lia.
  - rewrite Pos2Z.inj_xI. rewrite Z.mul_comm, Z.div_add_l by lia. reflexivity.
  - rewrite Pos2Z.inj_xO. rewrite Z.mul_comm, Z.div_mul by lia. reflexivity.
Qed.

Lemma shr_1_nonneg mrs : 0 <= shr_m mrs -> 0 <= shr_m (shr_1 mrs).
Proof. intro H. rewrite shr_1_m by exact H. apply Z.div_pos; lia. Qed.

Lemma iter_shr_1 p : forall mrs, 0 <= shr_m mrs ->
  shr_m (iter_pos shr_1 p mrs) = shr_m mrs / 2 ^ Zpos p.
Proof.
  induction p as [p IH|p IH|]; intros mrs H; simpl iter_pos.
  - assert (H1 := shr_1_nonneg _ H).
    assert (H2 : 0 <= shr_m (iter_pos shr_1 p (shr_1 mrs))).
    { rewrite IH by exact H1. apply Z.div_pos; lia. }
    rewrite IH by exact H2. rewrite IH by exact H1. rewrite shr_1_m by exact H.
    rewrite !Z.div_div by lia. f_equal.
    rewrite Pos2Z.inj_xI, Z.pow_add_r, Z.pow_mul_r, Z.pow_1_r by lia.
    change (2 ^ 2) with 4. rewrite <- Z.pow_add_r by lia.
    replace (Z.pos p + Z.pos p) with (2 * Z.pos p) by lia.
    rewrite Z.pow_mul_r by lia. change (2 ^ 2) with 4. lia.
  - assert (H2 : 0 <= shr_m (iter_pos shr_1 p mrs)).
    { rewrite IH by exact H. apply Z.div_pos; lia. }
    rewrite IH by exact H2. rewrite IH by exact H.
    rewrite Z.div_div by lia. f_equal.
    rewrite Pos2Z.inj_xO. rewrite <- Z.pow_add_r by lia. f_equal. lia.
  - rewrite shr_1_m by exact H. reflexivity.
Qed.

Lemma shr_spec mrs e n : 0 <= n -> 0 <= shr_m mrs ->
  shr_m (fst (shr mrs e n)) = shr_m mrs / 2 ^ n /\ snd (shr mrs e n) = e + n.
Proof.
  intros Hn Hm. destruct n as [|p|p]; simpl.
  - rewrite Z.div_1_r. lia.
  - split; [apply iter_shr_1; exact Hm | reflexivity].
  - lia.
Qed.

Lemma round_nearest_even_range m l :
  m <= round_nearest_even m l <= m + 1.
Proof.
  destruct l as [|[]]; simpl; try lia.
  destruct (Z.even m); lia.
Qed.

(** Rounding a positive integer of at least 24 digits. *)
Lemma round_aux_spec (s : bool) (M : positive) (e : Z) :
  let D := Zpos (digits2_pos M) in
  24 <= D -> -149 <= e + D - 24 ->
  exists m3 e3,
    binary_round_aux prec emax s (Zpos M) e loc_Exact
    = (if e3 <=? emax - prec then S754_finite s m3 e3 else S754_infinity s)
    /\ ((e3 = e + D - 24
         /\ Zpos M / 2 ^ (D - 24) <= Zpos m3 <= Zpos M / 2 ^ (D - 24) + 1
         /\ Zpos m3 < 2 ^ 24)
        \/ (e3 = e + D - 23 /\ Zpos m3 = 2 ^ 23
            /\ Zpos M / 2 ^ (D - 24) + 1 = 2 ^ 24)).
Proof.
  intros D HD He.
  pose proof (digits2_pos_bounds M) as HM. fold D in HM.
  unfold binary_round_aux, shr_fexp.
  change (Zdigits2 (Zpos M)) with D. clearbody D.
  replace (fexp prec emax (D + e) - e) with (D - 24)
    by (unfold fexp, emin, prec, emax; lia).
  destruct (shr_spec (shr_record_of_loc (Zpos M) loc_Exact) e (D - 24))
    as [Hm1 He1]; [lia | simpl; lia |].
  destruct (shr (shr_record_of_loc (Zpos M) loc_Exact) e (D - 24)) as [mrs1 e1].
  simpl in Hm1, He1. subst e1.
  set (m1 := Zpos M / 2 ^ (D - 24)) in *.
  assert (Hm1r : 2 ^ 23 <= m1 < 2 ^ 24).
  { unfold m1. split.
    - apply Z.div_le_lower_bound; [apply Z.pow_pos_nonneg; lia |].
      rewrite <- Z.pow_add_r by lia.
      replace (D - 24 + 23) with (D - 1) by lia. lia.
    - apply Z.div_lt_upper_bound; [apply Z.pow_pos_nonneg; lia |].
      rewrite <- Z.pow_add_r by lia.
      replace (D - 24 + 24) with D by lia. lia. }
  pose proof (round_nearest_even_range (shr_m mrs1) (loc_of_shr_record mrs1)) as Hr.
  remember (round_nearest_even (shr_m mrs1) (loc_of_shr_record mrs1)) as m2 eqn:Em2.
  clear Em2. rewrite Hm1 in Hr. change (2 ^ 23) with 8388608 in Hm1r.
  change (2 ^ 24) with 16777216 in Hm1r.
  destruct m2 as [|q|q]; [lia | | lia].
  change (Zdigits2 (Zpos q)) with (Zpos (digits2_pos q)).
  destruct (Z.eq_dec (Zpos q) (2 ^ 24)) as [Hq|Hq].
  - (* the mantissa overflows by one digit *)
    assert (Dq : Zpos (digits2_pos q) = 25).
    { apply digits2_pos_unique. rewrite Hq. simpl. lia. }
    rewrite Dq.
    replace (fexp prec emax (25 + (e + (D - 24))) - (e + (D - 24))) with 1
      by (unfold fexp, emin, prec, emax; lia).
    destruct (shr_spec (shr_record_of_loc (Zpos q) loc_Exact) (e + (D - 24)) 1)
      as [Hm3 He3]; [lia | simpl; lia |].
    destruct (shr (shr_record_of_loc (Zpos q) loc_Exact) (e + (D - 24)) 1)
      as [mrs3 e3].
    simpl in Hm3, He3. subst e3. rewrite Hm3, Hq.
    change (2 ^ 24 / 2 ^ 1) with (Zpos 8388608).
    exists 8388608%positive, (e + (D - 24) + 1). split; [reflexivity |].
    right. split; [lia |]. split; [reflexivity | lia].
  - assert (Dq : Zpos (digits2_pos q) = 24).
    { apply digits2_pos_unique. simpl. change (2 ^ 24) with 16777216 in *.
      change (2 ^ 23) with 8388608 in *. lia. }
    rewrite Dq.
    replace (fexp prec emax (24 + (e + (D - 24))) - (e + (D - 24))) with 0
      by (unfold fexp, emin, prec, emax; lia).
    simpl shr. cbv beta iota. simpl shr_m.
    exists q, (e + (D - 24)). split; [reflexivity |].
    left. split; [lia |]. split; [lia |].
    change (2 ^ 24) with 16777216 in *. lia.
Qed.

Lemma iter_xO m d : Zpos (Pos.iter xO m d) = Zpos m * 2 ^ Zpos d.
Proof.
  induction d as [|d IH] using Pos.peano_ind.
  - simpl. lia.
  - rewrite Pos.iter_succ, Pos2Z.inj_xO, IH, Pos2Z.inj_succ, Z.pow_succ_r by lia.
    lia.
Qed.

Lemma shl_align_id mx ex ex' : ex <= ex' -> shl_align mx ex ex' = (mx, ex).
Proof.
  intro H. unfold shl_align.
  destruct (ex' - ex) eqn:E; try reflexivity. lia.
Qed.

Lemma shl_align_shift mx ex ex' :
  ex' <= ex -> Zpos (fst (shl_align mx ex ex')) = Zpos mx * 2 ^ (ex - ex').
Proof.
  intro H. unfold shl_align.
  destruct (ex' - ex) as [|p|p] eqn:E; cbn [fst].
  - replace (ex - ex') with 0 by lia. lia.
  - lia.
  - rewrite iter_xO. f_equal. f_equal. lia.
Qed.

Lemma shl_align_exp mx ex ex' : ex' < ex -> snd (shl_align mx ex ex') = ex'.
Proof.
  intro H. unfold shl_align.
  destruct (ex' - ex) as [|p|p] eqn:E; cbn [snd]; lia.
Qed.

(** The sign of what rounding returns is the sign it was given. *)
Lemma round_aux_sign s m e l :
  match binary_round_aux prec emax s m e l with
  | S754_zero s' | S754_infinity s' | S754_finite s' _ _ => s' = s
  | S754_nan => True
  end.
Proof.
  unfold binary_round_aux.
  destruct (shr_fexp prec emax m e l) as [mrs1 e1].
  destruct (shr_fexp prec emax _ e1 loc_Exact) as [mrs2 e2].
  destruct (shr_m mrs2); [reflexivity | | exact I].
  destruct (e2 <=? emax - prec); reflexivity.
Qed.

Lemma round_sign s m e :
  match binary_round prec emax s m e with
  | S754_zero s' | S754_infinity s' | S754_finite s' _ _ => s' = s
  | S754_nan => True
  end.
Proof.
  unfold binary_round.
  destruct (shl_align m e _) as [mz ez]. apply round_aux_sign.
Qed.

(** Order of two finite numbers of the same sign. *)
Lemma flt_pos_pos m3 e3 m e :
  e < e3 \/ (e3 = e /\ Zpos m <= Zpos m3) ->
  flt (S754_finite false m3 e3) (S754_finite false m e) = false.
Proof.
  intro H. unfold flt, SFltb, SFcompare.
  destruct (Z.compare_spec e3 e); try reflexivity; [| lia].
  change (Pos.compare_cont Eq m3 m) with (Pos.compare m3 m).
  destruct (Pos.compare_spec m3 m); try reflexivity. lia.
Qed.

Lemma flt_neg_neg m3 e3 m e :
  e3 < e \/ (e3 = e /\ Zpos m3 <= Zpos m) ->
  flt (S754_finite true m3 e3) (S754_finite true m e) = false.
Proof.
  intro H. unfold flt, SFltb, SFcompare.
  destruct (Z.compare_spec e3 e); try reflexivity; [| lia].
  change (Pos.compare_cont Eq m3 m) with (Pos.compare m3 m).
  destruct (Pos.compare_spec m3 m); try reflexivity. lia.
Qed.

Lemma valid_finite s m e :
  valid_binary prec emax (S754_finite s m e) = true ->
  e <= 104
  /\ (Zpos (digits2_pos m) = 24 /\ -149 <= e
      \/ e = -149 /\ Zpos (digits2_pos m) <= 24).
Proof.
  unfold valid_binary, bounded, canonical_mantissa, fexp, emin, prec, emax.
  intro H. apply andb_prop in H. destruct H as [H1 H2].
  apply Z.eqb_eq in H1. apply Z.leb_le in H2. lia.
Qed.

Lemma digits_lower (m : positive) k :
  0 <= k -> 2 ^ k <= Zpos m -> k + 1 <= Zpos (digits2_pos m).
Proof.
  intros Hk H. pose proof (digits2_pos_bounds m) as [_ Hu].
  assert (2 ^ k < 2 ^ Zpos (digits2_pos m)) as Hlt by lia.
  apply Z.pow_lt_mono_r_iff in Hlt; lia.
Qed.

Lemma digits_upper (m : positive) k :
  0 <= k -> Zpos m < 2 ^ k -> Zpos (digits2_pos m) <= k.
Proof.
  intros Hk H. pose proof (digits2_pos_bounds m) as [Hl _].
  assert (2 ^ (Zpos (digits2_pos m) - 1) < 2 ^ k) as Hlt by lia.
  apply Z.pow_lt_mono_r_iff in Hlt; lia.
Qed.

Lemma flt_inf_false x : flt (S754_infinity false) x = false.
Proof. destruct x as [| [] | |]; reflexivity. Qed.

Lemma fadd_one_pos m e :
  valid_binary prec emax (S754_finite false m e) = true ->
  flt (fadd (S754_finite false m e) (of_int 1)) (S754_finite false m e) = false.
Proof.
  intro Hv. destruct (valid_finite _ _ _ Hv) as [He Hc].
  pose proof (digits2_pos_bounds m) as Hm.
  change (of_int 1) with (S754_finite false 8388608 (-23)).
  unfold fadd, SFadd. cbn [cond_Zopp].
  set (ez := Z.min e (-23)).
  assert (Ha := shl_align_shift m e ez ltac:(unfold ez; lia)).
  assert (Hb := shl_align_shift 8388608 (-23) ez ltac:(unfold ez; lia)).
  remember (fst (shl_align m e ez)) as a eqn:Ea.
  remember (fst (shl_align 8388608 (-23) ez)) as b eqn:Eb.
  clear Ea Eb.
  change (Zpos a + Zpos b) with (Zpos (a + b)).
  assert (HS : Zpos (a + b) = Zpos m * 2 ^ (e - ez) + 8388608 * 2 ^ (-23 - ez))
    by (rewrite Pos2Z.inj_add; lia).
  remember (a + b)%positive as S eqn:ES. clear ES Ha Hb a b.
  cbn [binary_normalize]. unfold binary_round.
  set (D := Zpos (digits2_pos S)).
  assert (HD : 24 <= D /\ -23 <= ez + D - 24
               /\ (e < ez + D - 24
                   \/ ez + D - 24 = e /\ Zpos m <= Zpos S / 2 ^ (D - 24))).
  { destruct (Z.le_gt_cases (-23) e) as [Hge|Hlt].
    - (* the number is at least 1 in magnitude: it has 24 digits *)
      assert (Hez : ez = -23) by (unfold ez; lia). rewrite Hez in *.
      assert (Hd : Zpos (digits2_pos m) = 24) by lia. rewrite Hd in Hm.
      replace (e - -23) with (e + 23) in HS by lia.
      replace (-23 - -23) with 0 in HS by lia.
      rewrite Z.pow_0_r, Z.mul_1_r in HS.
      assert (Hp : 0 < 2 ^ (e + 23)) by (apply Z.pow_pos_nonneg; lia).
      assert (HDl : e + 47 <= D).
      { replace (e + 47) with (e + 46 + 1) by lia.
        apply digits_lower; [lia |].
        replace (e + 46) with (23 + (e + 23)) by lia.
        rewrite Z.pow_add_r by lia. rewrite HS.
        change (2 ^ (24 - 1)) with (2 ^ 23) in Hm. nia. }
      split; [lia |]. split; [lia |].
      destruct (Z.eq_dec D (e + 47)) as [HDe|HDe]; [right | left; lia].
      split; [lia |].
      replace (D - 24) with (e + 23) by lia. rewrite HS.
      rewrite Z.div_add_l by lia.
      assert (0 <= 8388608 / 2 ^ (e + 23)) by (apply Z.div_pos; lia). lia.
    - (* the number is below 1 in magnitude *)
      assert (Hez : ez = e) by (unfold ez; lia). rewrite Hez in *.
      replace (e - e) with 0 in HS by lia.
      rewrite Z.pow_0_r, Z.mul_1_r in HS.
      assert (HDl : - e + 1 <= D).
      { apply digits_lower; [lia |]. rewrite HS.
        change 8388608 with (2 ^ 23). rewrite <- Z.pow_add_r by lia.
        replace (23 + (-23 - e)) with (- e) by lia. lia. }
      split; [lia |]. split; [lia |]. left. lia. }
  destruct HD as (HD1 & HD2 & HD3).
  rewrite shl_align_id
    by (fold D; unfold fexp, emin, prec, emax; lia).
  destruct (round_aux_spec false S ez) as (m3 & e3 & -> & Halt);
    [exact HD1 | fold D; lia |]. fold D in Halt.
  destruct (e3 <=? emax - prec); [| apply flt_inf_false].
  apply flt_pos_pos.
  destruct Halt as [(-> & Hm3 & _) | (-> & Hm3 & _)]; lia.
Qed.

Lemma flt_nonneg_neg x m e :
  match x with
  | S754_zero s | S754_infinity s | S754_finite s _ _ => s = false
  | S754_nan => True
  end ->
  flt x (S754_finite true m e) = false.
Proof. destruct x as [s|s| |s m' e']; intro H; try subst s; reflexivity. Qed.

Lemma fadd_one_neg m e :
  valid_binary prec emax (S754_finite true m e) = true ->
  flt (fadd (S754_finite true m e) (of_int 1)) (S754_finite true m e) = false.
Proof.
  intro Hv. destruct (valid_finite _ _ _ Hv) as [He Hc].
  pose proof (digits2_pos_bounds m) as Hm.
  change (of_int 1) with (S754_finite false 8388608 (-23)).
  unfold fadd, SFadd. cbn [cond_Zopp].
  set (ez := Z.min e (-23)).
  assert (Ha := shl_align_shift m e ez ltac:(unfold ez; lia)).
  assert (Hb := shl_align_shift 8388608 (-23) ez ltac:(unfold ez; lia)).
  remember (fst (shl_align m e ez)) as a eqn:Ea.
  remember (fst (shl_align 8388608 (-23) ez)) as b eqn:Eb.
  clear Ea Eb.
  remember (- Zpos a + Zpos b) as Sz eqn:ES.
  destruct Sz as [|q|q]; cbn [binary_normalize].
  - reflexivity.
  - apply flt_nonneg_neg, round_sign.
  - (* the sum is negative: the number is at most -1 *)
    assert (Hq : Zpos q = Zpos a - Zpos b) by lia. clear ES.
    assert (Hge : -23 <= e).
    { destruct (Z.le_gt_cases (-23) e) as [Hge|Hlt]; [exact Hge | exfalso].
      assert (Hez : ez = e) by (unfold ez; lia). rewrite Hez in *.
      replace (e - e) with 0 in Ha by lia.
      rewrite Z.pow_0_r, Z.mul_1_r in Ha.
      change 8388608 with (2 ^ 23) in Hb. rewrite <- Z.pow_add_r in Hb by lia.
      replace (23 + (-23 - e)) with (- e) in Hb by lia.
      assert (Zpos (digits2_pos m) <= 24) by lia.
      assert (2 ^ Zpos (digits2_pos m) <= 2 ^ (- e))
        by (apply Z.pow_le_mono_r; lia).
      lia. }
    assert (Hez : ez = -23) by (unfold ez; lia). rewrite Hez in *. clear Hez ez.
    assert (Hd : Zpos (digits2_pos m) = 24) by lia. rewrite Hd in Hm.
    change (2 ^ (24 - 1)) with 8388608 in Hm. change (2 ^ 24) with 16777216 in Hm.
    replace (e - -23) with (e + 23) in Ha by lia.
    replace (-23 - -23) with 0 in Hb by lia.
    rewrite Z.pow_0_r, Z.mul_1_r in Hb.
    assert (Hp : 0 < 2 ^ (e + 23)) by (apply Z.pow_pos_nonneg; lia).
    assert (Hqm : Zpos q < Zpos m * 2 ^ (e + 23)) by lia.
    clear Ha Hb Hq a b.
    unfold binary_round.
    pose proof (digits2_pos_bounds q) as Hqd.
    set (D := Zpos (digits2_pos q)) in *.
    assert (HDu : D <= e + 47).
    { apply digits_upper; [lia |].
      replace (e + 47) with (24 + (e + 23)) by lia.
      rewrite Z.pow_add_r by lia. change (2 ^ 24) with 16777216. nia. }
    assert (HD0 : 0 < D) by (unfold D; lia).
    destruct (Z.le_gt_cases 24 D) as [HD|HD].
    + rewrite shl_align_id by (unfold fexp, emin, prec, emax; lia).
      destruct (round_aux_spec true q (-23)) as (m3 & e3 & -> & Halt);
        [exact HD | fold D; lia |]. fold D in Halt.
      assert (Hdiv : D = e + 47 -> Zpos q / 2 ^ (D - 24) < Zpos m).
      { intros ->. replace (e + 47 - 24) with (e + 23) by lia.
        apply Z.div_lt_upper_bound; lia. }
      change (2 ^ 24) with 16777216 in Halt.
      change (2 ^ 23) with 8388608 in Halt.
      assert (Hres : e3 < e \/ e3 = e /\ Zpos m3 <= Zpos m).
      { destruct Halt as [(-> & Hm3 & _) | (-> & Hm3 & Hc3)];
          destruct (Z.eq_dec D (e + 47)) as [HDe|HDe];
          try (specialize (Hdiv HDe)); lia. }
      destruct (Z.leb_spec e3 (emax - prec)) as [_|Hbig];
        [apply flt_neg_neg; exact Hres | unfold emax, prec in Hbig; lia].
    + (* cancellation: the mantissa is shifted left to 24 digits, exactly *)
      replace (fexp prec emax (D + -23)) with (D - 47)
        by (unfold fexp, emin, prec, emax; lia).
      assert (Hsh := shl_align_shift q (-23) (D - 47) ltac:(lia)).
      assert (Hse := shl_align_exp q (-23) (D - 47) ltac:(lia)).
      destruct (shl_align q (-23) (D - 47)) as [mz e'].
      cbn [fst snd] in Hsh, Hse. subst e'.
      replace (-23 - (D - 47)) with (24 - D) in Hsh by lia.
      assert (Hmz : 2 ^ 23 <= Zpos mz < 2 ^ 24).
      { assert (E23 : 2 ^ 23 = 2 ^ (D - 1) * 2 ^ (24 - D))
          by (rewrite <- Z.pow_add_r by lia; f_equal; lia).
        assert (E24 : 2 ^ 24 = 2 ^ D * 2 ^ (24 - D))
          by (rewrite <- Z.pow_add_r by lia; f_equal; lia).
        assert (0 < 2 ^ (24 - D)) by (apply Z.pow_pos_nonneg; lia).
        rewrite Hsh, E23, E24. split.
        - apply Z.mul_le_mono_nonneg_r; lia.
        - apply Z.mul_lt_mono_pos_r; lia. }
      assert (Hdz : Zpos (digits2_pos mz) = 24)
        by (apply digits2_pos_unique; exact Hmz).
      destruct (round_aux_spec true mz (D - 47)) as (m3 & e3 & -> & Halt);
        [lia | lia |]. rewrite Hdz in Halt.
      change (2 ^ 23) with 8388608 in Halt.
      assert (Hres : e3 < e \/ e3 = e /\ Zpos m3 <= Zpos m).
      { destruct Halt as [(-> & _) | (-> & Hm3 & _)]; lia. }
      destruct (Z.leb_spec e3 (emax - prec)) as [_|Hbig];
        [apply flt_neg_neg; exact Hres | unfold emax, prec in Hbig; lia].
Qed.

(** Adding 1 to a binary32 number never gives a number below it. *)
Lemma fadd_one_not_below x :
  valid_binary prec emax x = true -> flt (fadd x (of_int 1)) x = false.
Proof.
  destruct x as [s|s| |s m e]; intro Hv.
  - destruct s; reflexivity.
  - destruct s; reflexivity.
  - reflexivity.
  - destruct s; [apply fadd_one_neg | apply fadd_one_pos]; exact Hv.
Qed.

(** ** Proof automation: what a computation keeps, case analysis *)

Ltac keep1 :=
  lazymatch goal with
  | |- preserves _ (ret _) => apply preserves_ret
  | |- preserves _ (gets _) => apply preserves_gets
  | |- preserves _ (modify _) => apply preserves_modify; intro; reflexivity
  | |- preserves _ (bind _ _) => apply preserves_bind; [| intro]
  | |- preserves _ (ifM _ _ _) => apply preserves_ifM
  | |- preserves _ (when _ _) => apply preserves_when
  | |- preserves _ (for_loop _ _) => apply preserves_for_loop
  | |- preserves _ (match ?x with _ => _ end) => destruct x
  | |- preserves _ _ => intro; reflexivity
  end.
Ltac keep := repeat keep1.

(** A named command is looked up among the hypotheses. *)
Ltac by_hyp :=
  lazymatch goal with
  | |- appends _ _ ?c =>
      is_const c;
      match goal with
      | H : appends _ _ ?d |- _ => constr_eq c d; exact H
      end
  end.

Ltac split_ifs :=
  repeat match goal with
         | |- context [if ?c then _ else _] => destruct c
         end.

(** ** The integer variant *)

Section DeciVoltFacts.
Import DeciVolt.
Local Open Scope mppt_scope.

Let seqd := sequenced driver shutDown minDuty maxDuty.

Lemma seqd_single e : enables shutDown e = false ->
  duty_ok minDuty maxDuty e -> seqd [e].
Proof. intros. apply sequenced_other; [assumption .. | apply sequenced_nil]. Qed.

Lemma appends_emit e : enables shutDown e = false ->
  duty_ok minDuty maxDuty e -> appends trace seqd (emit e).
Proof.
  intros He Hd m. exists [e]. split; [reflexivity | apply seqd_single; assumption].
Qed.

Lemma run_charger_trace m :
  trace (exec run_charger m)
  = trace m ++ [PwmWrite driver (constrain (pulseWidth m) 75 245);
                DigitalWrite shutDown HIGH].
Proof.
  unfold run_charger, exec, bind, modify, gets, pwmWrite, digitalWrite, emit.
  simpl. rewrite <- app_assoc. simpl.
  rewrite to_uint8_small; [reflexivity |].
  pose proof (constrain_range (pulseWidth m) 75 245). lia.
Qed.

Lemma run_charger_pulseWidth m :
  pulseWidth (exec run_charger m) = constrain (pulseWidth m) 75 245.
Proof. reflexivity. Qed.

Lemma appends_run_charger : appends trace seqd run_charger.
Proof.
  intro m. eexists. split; [apply run_charger_trace |].
  apply sequenced_enable; [| apply sequenced_nil].
  apply constrain_range. unfold minDuty, maxDuty. lia.
Qed.

Ltac say1 :=
  first [ by_hyp |
  lazymatch goal with
  | |- appends _ _ run_charger => apply appends_run_charger
  | |- appends _ _ (emit _) => apply appends_emit; [reflexivity | exact I]
  | |- appends _ _ (bind _ _) =>
      apply (appends_bind trace seqd (sequenced_app _ _ _ _)); [| intro]
  | |- appends _ _ (ifM _ _ _) => apply appends_ifM
  | |- appends _ _ (when _ _) =>
      apply (appends_when trace seqd (sequenced_nil _ _ _ _))
  | |- appends _ _ (for_loop _ _) =>
      apply (appends_for_loop trace seqd (sequenced_nil _ _ _ _)
               (sequenced_app _ _ _ _))
  | |- appends _ _ (match ?x with _ => _ end) => destruct x
  | |- appends _ _ _ =>
      apply (appends_quiet trace seqd (sequenced_nil _ _ _ _)); solve [keep]
  end ].
Ltac say := repeat say1.

Lemma appends_disable_charger : appends trace seqd disable_charger.
Proof. unfold disable_charger, digitalWrite. say. Qed.

Lemma appends_update_Vcvm : appends trace seqd update_Vcvm.
Proof. unfold update_Vcvm, disable_charger, digitalWrite, delay. say. Qed.

Lemma appends_CVM : appends trace seqd CVM.
Proof.
  unfold CVM, CVM_timer, CVM_adjust. say.
  apply appends_update_Vcvm.
Qed.

Lemma appends_error_blink : appends trace seqd error_blink.
Proof. unfold error_blink, digitalWrite. say. Qed.

Lemma appends_sleep_blink : appends trace seqd sleep_blink.
Proof. unfold sleep_blink, digitalWrite. say. Qed.

Lemma appends_set_charger : appends trace seqd set_charger.
Proof.
  pose proof appends_disable_charger. pose proof appends_error_blink.
  pose proof appends_sleep_blink. pose proof appends_CVM.
  unfold set_charger, digitalWrite. say.
Qed.

(** What one tick appends to the trace is sequenced. *)
Lemma loop_sequenced : appends trace seqd loop.
Proof.
  pose proof appends_set_charger.
  unfold loop, read_data, mode_select, run_load, run_fan, print_data, digitalWrite.
  say.
Qed.

(** *** The states that switch the converter off *)

Lemma set_charger_off m :
  mode_of_code (charger_state m) <> Some bulk ->
  mode_of_code (charger_state m) <> Some Float ->
  exists evs,
    trace (exec set_charger m) = trace m ++ DigitalWrite shutDown LOW :: evs
    /\ never_enables shutDown evs /\ no_duty_write evs.
Proof.
  intros Hb Hf. unfold set_charger. rewrite exec_bind.
  change (eval (gets charger_state) m) with (charger_state m).
  change (exec (gets charger_state) m) with m.
  destruct (mode_of_code (charger_state m)) as [[]|]; try congruence;
    cbv beta iota delta [exec bind disable_charger error_blink sleep_blink
      when ifM digitalWrite emit modify gets millis ret fst snd]; simpl;
    match goal with |- context [if ?c then _ else _] => destruct c end; simpl;
    repeat rewrite <- app_assoc; simpl;
    eexists; (split; [reflexivity |]);
    split; repeat constructor; discriminate.
Qed.

(** *** The tracking step *)

Lemma CVM_parts m : exec CVM m = exec CVM_adjust (exec CVM_timer m).
Proof. unfold CVM. apply exec_bind. Qed.

Lemma CVM_timer_panelVolts : preserves panelVolts CVM_timer.
Proof.
  unfold CVM_timer, update_Vcvm, disable_charger, digitalWrite, delay, emit.
  keep.
Qed.

Lemma CVM_timer_batteryVolts : preserves batteryVolts CVM_timer.
Proof.
  unfold CVM_timer, update_Vcvm, disable_charger, digitalWrite, delay, emit.
  keep.
Qed.

Lemma CVM_timer_pulseWidth : preserves pulseWidth CVM_timer.
Proof.
  unfold CVM_timer, update_Vcvm, disable_charger, digitalWrite, delay, emit.
  keep.
Qed.

Lemma CVM_adjust_Vcvm : preserves Vcvm CVM_adjust.
Proof. unfold CVM_adjust. keep. Qed.

Lemma CVM_adjust_panelVolts : preserves panelVolts CVM_adjust.
Proof. unfold CVM_adjust. keep. Qed.

Lemma CVM_adjust_batteryVolts : preserves batteryVolts CVM_adjust.
Proof. unfold CVM_adjust. keep. Qed.

(** The second part of [CVM] as one expression over the state it starts in. *)
Lemma CVM_adjust_exec m :
  exec CVM_adjust m
  = let s := Z.max 1 (to_int (to_long (to_long (Vcvm m - panelVolts m) ÷ 10))) in
    let m1 := set_stepAmount s m in
    if panelVolts m >? Vcvm m then
      if pulseWidth m <? 245
      then set_pulseWidth (to_int (pulseWidth m + s)) m1
      else set_pulseWidth 245 m1
    else if panelVolts m <? Vcvm m then
      if pulseWidth m >? 75
      then set_pulseWidth (to_int (pulseWidth m - s)) m1
      else set_pulseWidth 75 m1
    else m1.
Proof.
  destruct m.
  cbv beta iota zeta delta [exec CVM_adjust bind when ifM modify gets ret fst snd
    set_stepAmount set_pulseWidth panelVolts batteryVolts Voc Vcvm pulseWidth
    pwm b stepAmount state LEDstate time time2 enable SOC Load charger_state
    adc adc_count clock clock_count trace].
  match goal with |- context [Z.max 1 ?x] => set (s0 := x) end.
  destruct (Z.ltb_spec s0 1).
  - rewrite (Z.max_l 1 s0) by lia. split_ifs; reflexivity.
  - rewrite (Z.max_r 1 s0) by lia. split_ifs; reflexivity.
Qed.

Lemma CVM_adjust_stepAmount m :
  stepAmount (exec CVM_adjust m)
  = Z.max 1 (to_int (to_long (to_long (Vcvm m - panelVolts m) ÷ 10))).
Proof.
  rewrite CVM_adjust_exec. cbv zeta. split_ifs; reflexivity.
Qed.

Lemma CVM_adjust_pulseWidth m :
  pulseWidth (exec CVM_adjust m)
  = if panelVolts m >? Vcvm m then
      if pulseWidth m <? 245
      then to_int (pulseWidth m + stepAmount (exec CVM_adjust m)) else 245
    else if panelVolts m <? Vcvm m then
      if pulseWidth m >? 75
      then to_int (pulseWidth m - stepAmount (exec CVM_adjust m)) else 75
    else pulseWidth m.
Proof.
  rewrite CVM_adjust_stepAmount, CVM_adjust_exec. cbv zeta.
  split_ifs; reflexivity.
Qed.

(** *** Voltage acquisition *)

Lemma sum_samples_bounds adc pin start n :
  (forall k, 0 <= adc pin k <= 1023) ->
  0 <= sum_samples adc pin start n <= 1023 * Z.of_nat n.
Proof.
  intro H. revert start. induction n as [|n IH]; intro start.
  - simpl. lia.
  - change (sum_samples adc pin start (S n))
      with (adc pin start + sum_samples adc pin (S start) n).
    specialize (IH (S start)). specialize (H start). lia.
Qed.

Ltac fields :=
  cbv beta iota delta [set_panelVolts set_batteryVolts set_Voc set_Vcvm
    set_pulseWidth set_pwm set_b set_stepAmount set_state set_LEDstate set_time
    set_time2 set_enable set_SOC set_Load set_charger_state set_adc
    set_adc_count set_clock set_clock_count set_trace
    panelVolts batteryVolts Voc Vcvm pulseWidth
    pwm b stepAmount state LEDstate time time2 enable SOC Load charger_state
    adc adc_count clock clock_count trace].

Ltac sample_loop n m IH :=
  induction n as [|n IH]; intros m Hm;
  [ destruct m; cbv [for_loop exec ret snd sum_samples]; revert Hm; fields;
    intro Hm; rewrite Z.add_0_r, Hm, Nat.add_0_r; reflexivity
  | rewrite exec_for_loop_S, IH
      by (cbv [exec bind analogRead modify fst snd]; fields; apply to_long_idem);
    destruct m; cbv [exec bind analogRead modify fst snd]; fields;
    rewrite to_long_add_l; cbn [sum_samples];
    f_equal; [f_equal; lia | lia] ].

Lemma panel_loop n : forall m,
  to_long (panelVolts m) = panelVolts m ->
  exec (for_loop n
          (v <- analogRead panelMeter ;;
           modify (fun m => set_panelVolts (to_long (panelVolts m + v)) m))) m
  = set_panelVolts
      (to_long (panelVolts m + sum_samples (adc m) panelMeter (adc_count m) n))
      (set_adc_count (adc_count m + n)%nat m).
Proof. sample_loop n m IH. Qed.

Lemma battery_loop n : forall m,
  to_long (batteryVolts m) = batteryVolts m ->
  exec (for_loop n
          (v <- analogRead batteryMeter ;;
           modify (fun m => set_batteryVolts (to_long (batteryVolts m + v)) m))) m
  = set_batteryVolts
      (to_long (batteryVolts m + sum_samples (adc m) batteryMeter (adc_count m) n))
      (set_adc_count (adc_count m + n)%nat m).
Proof. sample_loop n m IH. Qed.

Lemma Voc_loop n : forall m,
  to_long (Voc m) = Voc m ->
  exec (for_loop n
          (v <- analogRead panelMeter ;;
           modify (fun m => set_Voc (to_long (Voc m + v)) m))) m
  = set_Voc
      (to_long (Voc m + sum_samples (adc m) panelMeter (adc_count m) n))
      (set_adc_count (adc_count m + n)%nat m).
Proof. sample_loop n m IH. Qed.

(** The calibrated value of a channel: the mean of the samples, C's
    truncating division, times the channel's scale [488 / den]. *)
Lemma scale_no_wrap total den :
  0 <= total <= 102300 -> 1000 <= den ->
  to_long (to_long (to_long (to_long (0 + total) ÷ 100) * 488) ÷ den)
  = (total ÷ 100 * 488) ÷ den.
Proof.
  intros Ht Hd. rewrite Z.add_0_l.
  assert (0 <= total ÷ 100 <= 1023).
  { rewrite Z.quot_div_nonneg by lia.
    split; [apply Z.div_pos; lia |].
    apply Z.div_le_upper_bound; lia. }
  assert (0 <= (total ÷ 100 * 488) ÷ den <= total ÷ 100 * 488).
  { rewrite (Z.quot_div_nonneg (_ * _)) by lia.
    split; [apply Z.div_pos; lia |].
    apply Z.div_le_upper_bound; nia. }
  rewrite (to_long_small total) by lia.
  rewrite (to_long_small (total ÷ 100)) by lia.
  rewrite (to_long_small (total ÷ 100 * 488)) by lia.
  apply to_long_small. lia.
Qed.

Lemma read_data_exec m :
  exec read_data m
  = let p := sum_samples (adc m) panelMeter (adc_count m) 100 in
    let q := sum_samples (adc m) batteryMeter (adc_count m + 100)%nat 100 in
    set_batteryVolts
      (to_long (to_long (to_long (to_long (0 + q) ÷ 100) * 488) ÷ 2441))
      (set_panelVolts
         (to_long (to_long (to_long (to_long (0 + p) ÷ 100) * 488) ÷ 1197))
         (set_adc_count (adc_count m + 100 + 100)%nat m)).
Proof.
  unfold read_data. rewrite !exec_bind.
  rewrite panel_loop by reflexivity.
  rewrite battery_loop by reflexivity.
  destruct m. cbv [exec modify snd]. fields. reflexivity.
Qed.

End DeciVoltFacts.

(** ** The floating-point variant *)

Section FloatVoltFacts.
Import FloatVolt.
Local Open Scope mppt_scope.

Let seqf := sequenced driver shutDown minDuty maxDuty.

Ltac ffields :=
  cbv beta iota delta [set_panelVolts set_batteryVolts set_Voc set_Vcvm
    set_pulseWidth set_pwm set_b set_stepAmount set_time
    set_enable set_SOC set_Load set_charger_state set_adc
    set_adc_count set_clock set_clock_count set_trace
    panelVolts batteryVolts Voc Vcvm pulseWidth
    pwm b stepAmount time enable SOC Load charger_state
    adc adc_count clock clock_count trace].

Lemma float_appends_emit e : enables shutDown e = false ->
  duty_ok minDuty maxDuty e -> appends trace seqf (emit e).
Proof.
  intros He Hd m. exists [e]. split; [reflexivity |].
  apply sequenced_other; [assumption .. | apply sequenced_nil].
Qed.

Lemma float_run_charger_trace m :
  trace (exec run_charger m)
  = trace m ++ [PwmWrite driver (constrain (pulseWidth m) 100 245);
                DigitalWrite shutDown HIGH].
Proof.
  unfold run_charger, exec, bind, modify, gets, pwmWrite, digitalWrite, emit.
  simpl. rewrite <- app_assoc. simpl.
  rewrite to_uint8_small; [reflexivity |].
  pose proof (constrain_range (pulseWidth m) 100 245). lia.
Qed.

Lemma float_run_charger_pulseWidth m :
  pulseWidth (exec run_charger m) = constrain (pulseWidth m) 100 245.
Proof. reflexivity. Qed.

Lemma float_appends_run_charger : appends trace seqf run_charger.
Proof.
  intro m. eexists. split; [apply float_run_charger_trace |].
  apply sequenced_enable; [| apply sequenced_nil].
  apply constrain_range. unfold minDuty, maxDuty. lia.
Qed.

Ltac fsay1 :=
  first [ by_hyp |
  lazymatch goal with
  | |- appends _ _ run_charger => apply float_appends_run_charger
  | |- appends _ _ (emit _) => apply float_appends_emit; [reflexivity | exact I]
  | |- appends _ _ (bind _ _) =>
      apply (appends_bind trace seqf (sequenced_app _ _ _ _)); [| intro]
  | |- appends _ _ (ifM _ _ _) => apply appends_ifM
  | |- appends _ _ (when _ _) =>
      apply (appends_when trace seqf (sequenced_nil _ _ _ _))
  | |- appends _ _ (for_loop _ _) =>
      apply (appends_for_loop trace seqf (sequenced_nil _ _ _ _)
               (sequenced_app _ _ _ _))
  | |- appends _ _ (match ?x with _ => _ end) => destruct x
  | |- appends _ _ _ =>
      apply (appends_quiet trace seqf (sequenced_nil _ _ _ _)); solve [keep]
  end ].
Ltac fsay := repeat fsay1.

Lemma float_appends_disable_charger : appends trace seqf disable_charger.
Proof. unfold disable_charger, digitalWrite. fsay. Qed.

Lemma float_appends_update_Vcvm : appends trace seqf update_Vcvm.
Proof. unfold update_Vcvm, disable_charger, digitalWrite, delay. fsay. Qed.

Lemma float_appends_CVM : appends trace seqf CVM.
Proof.
  pose proof float_appends_update_Vcvm.
  unfold CVM, CVM_timer, CVM_guard, CVM_adjust. fsay.
Qed.

Lemma float_appends_error_blink : appends trace seqf error_blink.
Proof. unfold error_blink, digitalWrite, delay. fsay. Qed.

Lemma float_appends_sleep_blink : appends trace seqf sleep_blink.
Proof. unfold sleep_blink, digitalWrite, delay. fsay. Qed.

Lemma float_appends_set_charger : appends trace seqf set_charger.
Proof.
  pose proof float_appends_disable_charger. pose proof float_appends_error_blink.
  pose proof float_appends_sleep_blink. pose proof float_appends_CVM.
  unfold set_charger, digitalWrite. fsay.
Qed.

(** What one tick appends to the trace is sequenced. *)
Lemma float_loop_sequenced : appends trace seqf loop.
Proof.
  pose proof float_appends_set_charger.
  unfold loop, read_data, mode_select, run_load, print_data, digitalWrite, delay.
  fsay.
Qed.

(** *** The states that switch the converter off *)

Lemma float_set_charger_off m :
  mode_of_code (charger_state m) <> Some bulk ->
  mode_of_code (charger_state m) <> Some Float ->
  exists evs,
    trace (exec set_charger m) = trace m ++ DigitalWrite shutDown LOW :: evs
    /\ never_enables shutDown evs /\ no_duty_write evs.
Proof.
  intros Hb Hf. unfold set_charger. rewrite exec_bind.
  change (eval (gets charger_state) m) with (charger_state m).
  change (exec (gets charger_state) m) with m.
  destruct (mode_of_code (charger_state m)) as [[]|]; try congruence;
    cbv beta iota delta [exec bind disable_charger error_blink sleep_blink
      when ifM digitalWrite delay emit modify gets millis ret fst snd]; simpl;
    repeat rewrite <- app_assoc; simpl;
    eexists; (split; [reflexivity |]);
    split; repeat constructor; discriminate.
Qed.

(** *** The tracking step *)

Lemma float_CVM_parts m :
  exec CVM m = exec CVM_adjust (exec CVM_guard (exec CVM_timer m)).
Proof. unfold CVM. rewrite !exec_bind. reflexivity. Qed.

Lemma float_CVM_timer_panelVolts : preserves panelVolts CVM_timer.
Proof.
  unfold CVM_timer, update_Vcvm, disable_charger, digitalWrite, delay, emit.
  keep.
Qed.

Lemma float_CVM_timer_batteryVolts : preserves batteryVolts CVM_timer.
Proof.
  unfold CVM_timer, update_Vcvm, disable_charger, digitalWrite, delay, emit.
  keep.
Qed.

Lemma float_CVM_timer_pulseWidth : preserves pulseWidth CVM_timer.
Proof.
  unfold CVM_timer, update_Vcvm, disable_charger, digitalWrite, delay, emit.
  keep.
Qed.

Lemma float_CVM_guard_exec m :
  exec CVM_guard m
  = if flt (Vcvm m) (batteryVolts m)
    then set_Vcvm (fadd (batteryVolts m) (of_int 1)) m else m.
Proof. unfold CVM_guard. rewrite exec_when. reflexivity. Qed.

Lemma float_CVM_adjust_Vcvm : preserves Vcvm CVM_adjust.
Proof. unfold CVM_adjust. keep. Qed.

Lemma float_CVM_adjust_panelVolts : preserves panelVolts CVM_adjust.
Proof. unfold CVM_adjust. keep. Qed.

Lemma float_CVM_adjust_batteryVolts : preserves batteryVolts CVM_adjust.
Proof. unfold CVM_adjust. keep. Qed.

(** The third part of [CVM] as one expression over the state it starts in. *)
Lemma float_CVM_adjust_exec m :
  exec CVM_adjust m
  = let s := Z.max 1 (to_int (truncate (abs (fsub (Vcvm m) (panelVolts m))))) in
    let m1 := set_stepAmount s m in
    if fgt (panelVolts m) (Vcvm m) then
      if pulseWidth m <? 245
      then set_pulseWidth (to_int (pulseWidth m + s)) m1
      else set_pulseWidth 245 m1
    else if flt (panelVolts m) (Vcvm m) then
      if pulseWidth m >? 100
      then set_pulseWidth (to_int (pulseWidth m - s)) m1
      else set_pulseWidth 100 m1
    else m1.
Proof.
  destruct m.
  cbv beta iota zeta delta [exec CVM_adjust bind when ifM modify gets ret fst snd].
  ffields.
  match goal with |- context [Z.max 1 ?x] => set (s0 := x) end.
  destruct (Z.ltb_spec s0 1).
  - rewrite (Z.max_l 1 s0) by lia. split_ifs; reflexivity.
  - rewrite (Z.max_r 1 s0) by lia. split_ifs; reflexivity.
Qed.

Lemma float_CVM_adjust_stepAmount m :
  stepAmount (exec CVM_adjust m)
  = Z.max 1 (to_int (truncate (abs (fsub (Vcvm m) (panelVolts m))))).
Proof.
  rewrite float_CVM_adjust_exec. cbv zeta. split_ifs; reflexivity.
Qed.

Lemma float_CVM_adjust_pulseWidth m :
  pulseWidth (exec CVM_adjust m)
  = if fgt (panelVolts m) (Vcvm m) then
      if pulseWidth m <? 245
      then to_int (pulseWidth m + stepAmount (exec CVM_adjust m)) else 245
    else if flt (panelVolts m) (Vcvm m) then
      if pulseWidth m >? 100
      then to_int (pulseWidth m - stepAmount (exec CVM_adjust m)) else 100
    else pulseWidth m.
Proof.
  rewrite float_CVM_adjust_stepAmount, float_CVM_adjust_exec. cbv zeta.
  split_ifs; reflexivity.
Qed.

End FloatVoltFacts.

(** ** One tick, stage by stage *)

Section DeciVoltTick.
Import DeciVolt.
Local Open Scope mppt_scope.

Lemma loop_stages m :
  exec loop m
  = exec (run_load ;; run_fan ;; print_data)
      (exec set_charger (exec mode_select (exec read_data m))).
Proof. unfold loop. rewrite 3!exec_bind. reflexivity. Qed.

Lemma set_charger_keeps_state : preserves charger_state set_charger.
Proof.
  unfold set_charger, CVM, CVM_timer, CVM_adjust, update_Vcvm, run_charger,
    disable_charger, error_blink, sleep_blink, pwmWrite, digitalWrite, delay, emit.
  keep.
Qed.

Lemma outputs_keep_state : preserves charger_state (run_load ;; run_fan ;; print_data).
Proof. unfold run_load, run_fan, print_data, digitalWrite, emit. keep. Qed.

Lemma outputs_keep_pulseWidth : preserves pulseWidth (run_load ;; run_fan ;; print_data).
Proof. unfold run_load, run_fan, print_data, digitalWrite, emit. keep. Qed.

Lemma inputs_keep_pulseWidth m :
  pulseWidth (exec mode_select (exec read_data m)) = pulseWidth m.
Proof.
  assert (H1 : preserves pulseWidth mode_select) by (unfold mode_select; keep).
  assert (H2 : preserves pulseWidth read_data) by (unfold read_data; keep).
  rewrite H1. apply H2.
Qed.

Lemma set_charger_sleep m :
  charger_state m = mode_code sleep -> pulseWidth (exec set_charger m) = 100.
Proof.
  intro H. unfold set_charger. rewrite exec_bind.
  change (eval (gets charger_state) m) with (charger_state m).
  rewrite H. reflexivity.
Qed.

Lemma loop_sleep m :
  charger_state (exec loop m) = mode_code sleep -> pulseWidth (exec loop m) = 100.
Proof.
  rewrite loop_stages, outputs_keep_state, outputs_keep_pulseWidth,
    set_charger_keeps_state.
  apply set_charger_sleep.
Qed.

End DeciVoltTick.

Section FloatVoltTick.
Import FloatVolt.
Local Open Scope mppt_scope.

Lemma float_loop_stages m :
  exec loop m
  = exec (run_load ;; print_data)
      (exec set_charger (exec mode_select (exec read_data m))).
Proof. unfold loop. rewrite 3!exec_bind. reflexivity. Qed.

Lemma float_set_charger_keeps_state : preserves charger_state set_charger.
Proof.
  unfold set_charger, CVM, CVM_timer, CVM_guard, CVM_adjust, update_Vcvm,
    run_charger, disable_charger, error_blink, sleep_blink, pwmWrite,
    digitalWrite, delay, emit.
  keep.
Qed.

Lemma float_outputs_keep_state : preserves charger_state (run_load ;; print_data).
Proof. unfold run_load, print_data, digitalWrite, emit. keep. Qed.

Lemma float_outputs_keep_pulseWidth : preserves pulseWidth (run_load ;; print_data).
Proof. unfold run_load, print_data, digitalWrite, emit. keep. Qed.

Lemma float_inputs_keep_pulseWidth m :
  pulseWidth (exec mode_select (exec read_data m)) = pulseWidth m.
Proof.
  assert (H1 : preserves pulseWidth mode_select) by (unfold mode_select; keep).
  assert (H2 : preserves pulseWidth read_data)
    by (unfold read_data, delay, emit; keep).
  rewrite H1. apply H2.
Qed.

Lemma float_set_charger_sleep m :
  charger_state m = mode_code sleep ->
  pulseWidth (exec set_charger m) = pulseWidth m.
Proof.
  intro H. unfold set_charger. rewrite exec_bind.
  change (eval (gets charger_state) m) with (charger_state m).
  rewrite H. reflexivity.
Qed.

Lemma float_loop_sleep m :
  charger_state (exec loop m) = mode_code sleep ->
  pulseWidth (exec loop m) = pulseWidth m.
Proof.
  rewrite float_loop_stages, float_outputs_keep_state,
    float_outputs_keep_pulseWidth, float_set_charger_keeps_state.
  intro H. rewrite float_set_charger_sleep by exact H.
  apply float_inputs_keep_pulseWidth.
Qed.

End FloatVoltTick.

(** ** The tracking step as a whole, and the mode selector *)

Section DeciVoltCVM.
Import DeciVolt.
Local Open Scope mppt_scope.

Lemma CVM_Vcvm m : Vcvm (exec CVM m) = Vcvm (exec CVM_timer m).
Proof. rewrite CVM_parts. apply CVM_adjust_Vcvm. Qed.

Lemma CVM_panelVolts m : panelVolts (exec CVM m) = panelVolts m.
Proof. rewrite CVM_parts, CVM_adjust_panelVolts. apply CVM_timer_panelVolts. Qed.

Lemma CVM_stepAmount m :
  stepAmount (exec CVM m)
  = Z.max 1 (to_int (to_long (to_long (Vcvm (exec CVM m) - panelVolts m) ÷ 10))).
Proof.
  rewrite CVM_Vcvm, CVM_parts, CVM_adjust_stepAmount, CVM_timer_panelVolts.
  reflexivity.
Qed.

Lemma CVM_pulseWidth m :
  pulseWidth (exec CVM m)
  = if panelVolts m >? Vcvm (exec CVM m) then
      if pulseWidth m <? 245
      then to_int (pulseWidth m + stepAmount (exec CVM m)) else 245
    else if panelVolts m <? Vcvm (exec CVM m) then
      if pulseWidth m >? 75
      then to_int (pulseWidth m - stepAmount (exec CVM m)) else 75
    else pulseWidth m.
Proof.
  rewrite CVM_Vcvm, CVM_parts, CVM_adjust_pulseWidth, !CVM_timer_panelVolts,
    !CVM_timer_pulseWidth.
  reflexivity.
Qed.

Lemma CVM_stepAmount_range m : 1 <= stepAmount (exec CVM m) < 32768.
Proof.
  rewrite CVM_stepAmount.
  match goal with |- context [to_int ?x] => pose proof (to_int_range x) end.
  lia.
Qed.

(** [mode_select] changes [charger_state] and nothing else. *)
Lemma mode_select_exec m :
  exec mode_select m = set_charger_state (charger_state (exec mode_select m)) m.
Proof.
  destruct m.
  cbv beta iota delta [exec mode_select ifM when modify ret snd
    set_charger_state panelVolts batteryVolts charger_state].
  split_ifs; reflexivity.
Qed.

Lemma mode_select_classify m :
  batteryVolts m <> 100 -> batteryVolts m <> Vmax -> panelVolts m <> Vmax ->
  charger_state (exec mode_select m)
  = mode_code (classify (panelVolts m) (batteryVolts m)).
Proof.
  unfold Vmax. intros H1 H2 H3. destruct m.
  cbv beta iota delta [exec mode_select ifM when modify ret snd classify
    set_charger_state panelVolts batteryVolts charger_state to_int wrap_signed
    Vmax Vfloat] in *.
  change ((136 - 1 + 2 ^ (16 - 1)) mod 2 ^ 16 - 2 ^ (16 - 1)) with (136 - 1).
  rewrite !Z.gtb_ltb.
  repeat match goal with
         | |- context [?a <? ?b] => destruct (Z.ltb_spec a b)
         | |- context [?a >=? ?b] => destruct (Z.geb_spec a b)
         end; simpl; try reflexivity; lia.
Qed.

End DeciVoltCVM.

Section FloatVoltCVM.
Import FloatVolt.
Local Open Scope mppt_scope.

Lemma float_CVM_guard_panelVolts : preserves panelVolts CVM_guard.
Proof. unfold CVM_guard. keep. Qed.

Lemma float_CVM_guard_batteryVolts : preserves batteryVolts CVM_guard.
Proof. unfold CVM_guard. keep. Qed.

Lemma float_CVM_guard_pulseWidth : preserves pulseWidth CVM_guard.
Proof. unfold CVM_guard. keep. Qed.

Lemma float_CVM_Vcvm m :
  Vcvm (exec CVM m)
  = if flt (Vcvm (exec CVM_timer m)) (batteryVolts m)
    then fadd (batteryVolts m) (of_int 1) else Vcvm (exec CVM_timer m).
Proof.
  rewrite float_CVM_parts, float_CVM_adjust_Vcvm, float_CVM_guard_exec,
    float_CVM_timer_batteryVolts.
  destruct (flt _ _); [| reflexivity].
  cbn [Vcvm set_Vcvm]. rewrite float_CVM_timer_batteryVolts. reflexivity.
Qed.

Lemma float_CVM_panelVolts m : panelVolts (exec CVM m) = panelVolts m.
Proof.
  rewrite float_CVM_parts, float_CVM_adjust_panelVolts, float_CVM_guard_panelVolts.
  apply float_CVM_timer_panelVolts.
Qed.

Lemma float_CVM_batteryVolts m : batteryVolts (exec CVM m) = batteryVolts m.
Proof.
  rewrite float_CVM_parts, float_CVM_adjust_batteryVolts,
    float_CVM_guard_batteryVolts.
  apply float_CVM_timer_batteryVolts.
Qed.

Lemma float_CVM_stepAmount m :
  stepAmount (exec CVM m)
  = Z.max 1 (to_int (truncate (abs (fsub (Vcvm (exec CVM m)) (panelVolts m))))).
Proof.
  rewrite float_CVM_parts at 2. rewrite float_CVM_adjust_Vcvm.
  rewrite float_CVM_parts, float_CVM_adjust_stepAmount,
    float_CVM_guard_panelVolts, float_CVM_timer_panelVolts.
  reflexivity.
Qed.

Lemma float_CVM_pulseWidth m :
  pulseWidth (exec CVM m)
  = if fgt (panelVolts m) (Vcvm (exec CVM m)) then
      if pulseWidth m <? 245
      then to_int (pulseWidth m + stepAmount (exec CVM m)) else 245
    else if flt (panelVolts m) (Vcvm (exec CVM m)) then
      if pulseWidth m >? 100
      then to_int (pulseWidth m - stepAmount (exec CVM m)) else 100
    else pulseWidth m.
Proof.
  rewrite !float_CVM_parts, !float_CVM_adjust_Vcvm, float_CVM_adjust_pulseWidth,
    !float_CVM_guard_panelVolts, !float_CVM_timer_panelVolts,
    !float_CVM_guard_pulseWidth, !float_CVM_timer_pulseWidth.
  reflexivity.
Qed.

Lemma float_CVM_stepAmount_range m : 1 <= stepAmount (exec CVM m) < 32768.
Proof.
  rewrite float_CVM_stepAmount.
  match goal with |- context [to_int ?x] => pose proof (to_int_range x) end.
  lia.
Qed.

(** [mode_select] changes [charger_state] and nothing else. *)
Lemma float_mode_select_exec m :
  exec mode_select m = set_charger_state (charger_state (exec mode_select m)) m.
Proof.
  destruct m.
  cbv beta iota delta [exec mode_select ifM when modify ret snd
    set_charger_state panelVolts batteryVolts charger_state].
  split_ifs; reflexivity.
Qed.

Lemma float_mode_select_classify m :
  charger_state (exec mode_select m)
  = match classify (panelVolts m) (batteryVolts m) with
    | Some s => mode_code s
    | None => charger_state m
    end.
Proof.
  destruct m.
  cbv beta iota delta [exec mode_select ifM when modify ret snd classify
    set_charger_state panelVolts batteryVolts charger_state].
  split_ifs; reflexivity.
Qed.

End FloatVoltCVM.

Section DeciVoltAcquisition.
Import DeciVolt.
Local Open Scope mppt_scope.

Lemma update_Vcvm_Voc m :
  Voc (exec update_Vcvm m)
  = let p := sum_samples (adc m) panelMeter (adc_count m) 100 in
    to_long (to_long (to_long (to_long (0 + p) ÷ 100) * 488) ÷ 1197).
Proof.
  unfold update_Vcvm. rewrite !exec_bind.
  rewrite Voc_loop by reflexivity.
  destruct m. reflexivity.
Qed.

Lemma read_data_calibrated m :
  (forall pin k, 0 <= adc m pin k <= 1023) ->
  panelVolts (exec read_data m)
  = (sum_samples (adc m) panelMeter (adc_count m) 100 ÷ 100 * 488) ÷ 1197
  /\ batteryVolts (exec read_data m)
     = (sum_samples (adc m) batteryMeter (adc_count m + 100) 100 ÷ 100 * 488)
       ÷ 2441.
Proof.
  intro H. rewrite read_data_exec. cbv zeta.
  cbn [panelVolts batteryVolts set_batteryVolts set_panelVolts].
  pose proof (sum_samples_bounds (adc m) panelMeter (adc_count m) 100 (H _)).
  pose proof (sum_samples_bounds (adc m) batteryMeter (adc_count m + 100) 100 (H _)).
  split; apply scale_no_wrap; lia.
Qed.

Lemma update_Vcvm_calibrated m :
  (forall pin k, 0 <= adc m pin k <= 1023) ->
  Voc (exec update_Vcvm m)
  = (sum_samples (adc m) panelMeter (adc_count m) 100 ÷ 100 * 488) ÷ 1197.
Proof.
  intro H. rewrite update_Vcvm_Voc. cbv zeta.
  pose proof (sum_samples_bounds (adc m) panelMeter (adc_count m) 100 (H _)).
  apply scale_no_wrap; lia.
Qed.

End DeciVoltAcquisition.

(** ** The integer variant: a tick in the bulk state *)

Section DeciVoltBulkTick.
Import DeciVolt.
Local Open Scope mppt_scope.

(** What a tick in the bulk state makes of the [pulseWidth] it starts from:
    the step of [CVM], then the clamp of [run_charger]. *)
Lemma set_charger_bulk_pulseWidth m :
  charger_state m = mode_code bulk ->
  let m' := exec set_charger m in
  pulseWidth m'
  = constrain
      (if panelVolts m' >? Vcvm m' then
         if pulseWidth m <? 245
         then to_int (pulseWidth m + stepAmount m') else 245
       else if panelVolts m' <? Vcvm m' then
         if pulseWidth m >? 75
         then to_int (pulseWidth m - stepAmount m') else 75
       else pulseWidth m) 75 245.
Proof.
  intro H. cbv zeta. unfold set_charger. rewrite exec_bind.
  change (eval (gets charger_state) m) with (charger_state m).
  rewrite H. cbn [mode_of_code mode_code].
  change (exec (gets charger_state) m) with m.
  rewrite !exec_bind.
  set (m1 := exec (modify (set_SOC "Bulk")) m).
  pose proof (CVM_pulseWidth m1) as Hp.
  change (pulseWidth m1) with (pulseWidth m) in Hp.
  pose proof (CVM_panelVolts m1) as Hv.
  set (m2 := exec CVM m1) in *. rewrite <- Hv in Hp. clearbody m2.
  match goal with |- pulseWidth ?s = _ => set (m3 := s) end.
  assert (E : pulseWidth m3 = constrain (pulseWidth m2) 75 245
              /\ panelVolts m3 = panelVolts m2 /\ Vcvm m3 = Vcvm m2
              /\ stepAmount m3 = stepAmount m2).
  { unfold m3. destruct m2. repeat split. }
  destruct E as (-> & -> & -> & ->). rewrite Hp. reflexivity.
Qed.

Lemma outputs_keep_panelVolts :
  preserves panelVolts (run_load ;; run_fan ;; print_data).
Proof. unfold run_load, run_fan, print_data, digitalWrite, emit. keep. Qed.

Lemma outputs_keep_Vcvm : preserves Vcvm (run_load ;; run_fan ;; print_data).
Proof. unfold run_load, run_fan, print_data, digitalWrite, emit. keep. Qed.

Lemma outputs_keep_stepAmount :
  preserves stepAmount (run_load ;; run_fan ;; print_data).
Proof. unfold run_load, run_fan, print_data, digitalWrite, emit. keep. Qed.

Lemma loop_bulk_pulseWidth m :
  charger_state (exec loop m) = mode_code bulk ->
  let m' := exec loop m in
  pulseWidth m'
  = constrain
      (if panelVolts m' >? Vcvm m' then
         if pulseWidth m <? 245
         then to_int (pulseWidth m + stepAmount m') else 245
       else if panelVolts m' <? Vcvm m' then
         if pulseWidth m >? 75
         then to_int (pulseWidth m - stepAmount m') else 75
       else pulseWidth m) 75 245.
Proof.
  cbv zeta.
  rewrite loop_stages, outputs_keep_state, outputs_keep_pulseWidth,
    !outputs_keep_panelVolts, !outputs_keep_Vcvm, !outputs_keep_stepAmount,
    set_charger_keeps_state.
  intro H. rewrite (set_charger_bulk_pulseWidth _ H).
  rewrite inputs_keep_pulseWidth. reflexivity.
Qed.
End DeciVoltBulkTick.

(** * The claims of the specification *)

(** ** C1: the output guard *)

(** C1. In both variants, whatever [pulseWidth] holds before, [run_charger]
    clamps it: a value within the duty-cycle bounds (100..245 in the
    floating-point variant, 75..245 in the integer variant) is kept as it
    is, a value outside is replaced by the nearer bound; the clamped value
    is what [pulseWidth] holds afterwards and what is written to the PWM
    pin, the clamp coming before the write; and every duty cycle one whole
    tick writes is within the bounds. *)
Theorem run_charger_clamps_duty :
  (forall m : FloatVolt.machine,
     FloatVolt.pulseWidth (exec FloatVolt.run_charger m)
     = Z.max 100 (Z.min 245 (FloatVolt.pulseWidth m))
     /\ 100 <= FloatVolt.pulseWidth (exec FloatVolt.run_charger m) <= 245
     /\ FloatVolt.trace (exec FloatVolt.run_charger m)
        = FloatVolt.trace m
          ++ [PwmWrite FloatVolt.driver
                (Z.max 100 (Z.min 245 (FloatVolt.pulseWidth m)));
              DigitalWrite FloatVolt.shutDown HIGH])
  /\ (forall m : DeciVolt.machine,
     DeciVolt.pulseWidth (exec DeciVolt.run_charger m)
     = Z.max 75 (Z.min 245 (DeciVolt.pulseWidth m))
     /\ 75 <= DeciVolt.pulseWidth (exec DeciVolt.run_charger m) <= 245
     /\ DeciVolt.trace (exec DeciVolt.run_charger m)
        = DeciVolt.trace m
          ++ [PwmWrite DeciVolt.driver
                (Z.max 75 (Z.min 245 (DeciVolt.pulseWidth m)));
              DigitalWrite DeciVolt.shutDown HIGH])
  /\ (forall m : FloatVolt.machine,
     exists evs,
       FloatVolt.trace (exec FloatVolt.loop m) = FloatVolt.trace m ++ evs
       /\ duties_within 100 245 evs)
  /\ (forall m : DeciVolt.machine,
     exists evs,
       DeciVolt.trace (exec DeciVolt.loop m) = DeciVolt.trace m ++ evs
       /\ duties_within 75 245 evs).
Proof.
  split; [| split; [| split]]; intro m.
  - rewrite float_run_charger_trace, float_run_charger_pulseWidth.
    rewrite constrain_clamp by lia.
    split; [reflexivity | split; [lia | reflexivity]].
  - rewrite run_charger_trace, run_charger_pulseWidth.
    rewrite constrain_clamp by lia.
    split; [reflexivity | split; [lia | reflexivity]].
  - destruct (float_loop_sequenced m) as (evs & E & Hs).
    exists evs. split; [exact E |].
    apply (sequenced_duty _ _ _ _ _ Hs).
  - destruct (loop_sequenced m) as (evs & E & Hs).
    exists evs. split; [exact E |].
    apply (sequenced_duty _ _ _ _ _ Hs).
Qed.

(** ** C2: the order of the duty-cycle write and the driver enable *)

(** C2. In both variants [run_charger] appends exactly a write of the duty
    cycle to the PWM pin followed by the assertion of the driver-enable pin;
    [disable_charger] appends exactly the deassertion of the driver-enable pin
    and leaves [pulseWidth] as it was; and in one whole tick every event that
    enables the driver comes right after a write of the duty cycle. *)
Theorem enable_after_write_disable_first :
  (forall m : FloatVolt.machine,
     (exists d,
         FloatVolt.trace (exec FloatVolt.run_charger m)
         = FloatVolt.trace m ++ [PwmWrite FloatVolt.driver d;
                                 DigitalWrite FloatVolt.shutDown HIGH])
     /\ FloatVolt.trace (exec FloatVolt.disable_charger m)
        = FloatVolt.trace m ++ [DigitalWrite FloatVolt.shutDown LOW]
     /\ FloatVolt.pulseWidth (exec FloatVolt.disable_charger m)
        = FloatVolt.pulseWidth m
     /\ exists evs,
         FloatVolt.trace (exec FloatVolt.loop m) = FloatVolt.trace m ++ evs
         /\ enable_follows_write FloatVolt.driver FloatVolt.shutDown 100 245 evs)
  /\ (forall m : DeciVolt.machine,
     (exists d,
         DeciVolt.trace (exec DeciVolt.run_charger m)
         = DeciVolt.trace m ++ [PwmWrite DeciVolt.driver d;
                                DigitalWrite DeciVolt.shutDown HIGH])
     /\ DeciVolt.trace (exec DeciVolt.disable_charger m)
        = DeciVolt.trace m ++ [DigitalWrite DeciVolt.shutDown LOW]
     /\ DeciVolt.pulseWidth (exec DeciVolt.disable_charger m)
        = DeciVolt.pulseWidth m
     /\ exists evs,
         DeciVolt.trace (exec DeciVolt.loop m) = DeciVolt.trace m ++ evs
         /\ enable_follows_write DeciVolt.driver DeciVolt.shutDown 75 245 evs).
Proof.
  split; intro m; (split; [| split; [| split]]).
  - eexists. apply float_run_charger_trace.
  - reflexivity.
  - reflexivity.
  - destruct (float_loop_sequenced m) as (evs & E & Hs).
    exists evs. split; [exact E |].
    exact (sequenced_enable_after_write _ _ _ _ _ Hs).
  - eexists. apply run_charger_trace.
  - reflexivity.
  - reflexivity.
  - destruct (loop_sequenced m) as (evs & E & Hs).
    exists evs. split; [exact E |].
    exact (sequenced_enable_after_write _ _ _ _ _ Hs).
Qed.

(** ** C9: the states that switch the converter off *)

(** C9. In both variants, when the charger state is no_battery, sleep or
    error, or no enumerator at all (the [default] branch), the first thing
    [set_charger] does is to deassert the driver-enable pin, and nothing it
    does afterwards enables the driver or writes a duty cycle. *)
Theorem idle_states_disable_output :
  (forall m : FloatVolt.machine,
     FloatVolt.mode_of_code (FloatVolt.charger_state m) <> Some FloatVolt.bulk ->
     FloatVolt.mode_of_code (FloatVolt.charger_state m) <> Some FloatVolt.Float ->
     exists evs,
       FloatVolt.trace (exec FloatVolt.set_charger m)
       = FloatVolt.trace m ++ DigitalWrite FloatVolt.shutDown LOW :: evs
       /\ never_enables FloatVolt.shutDown evs /\ no_duty_write evs)
  /\ (forall m : DeciVolt.machine,
     DeciVolt.mode_of_code (DeciVolt.charger_state m) <> Some DeciVolt.bulk ->
     DeciVolt.mode_of_code (DeciVolt.charger_state m) <> Some DeciVolt.Float ->
     exists evs,
       DeciVolt.trace (exec DeciVolt.set_charger m)
       = DeciVolt.trace m ++ DigitalWrite DeciVolt.shutDown LOW :: evs
       /\ never_enables DeciVolt.shutDown evs /\ no_duty_write evs).
Proof.
  split; intros m Hb Hf.
  - apply float_set_charger_off; assumption.
  - apply set_charger_off; assumption.
Qed.

(** C9 at work: a machine without battery, in either variant. *)
Lemma idle_states_disable_output_witness :
  (exists evs,
      FloatVolt.trace
        (exec FloatVolt.set_charger (FloatVolt.power_on (steady_adc 0 0) steady_clock))
      = DigitalWrite FloatVolt.shutDown LOW :: evs
      /\ never_enables FloatVolt.shutDown evs /\ no_duty_write evs)
  /\ (exists evs,
      DeciVolt.trace
        (exec DeciVolt.set_charger (DeciVolt.power_on (steady_adc 0 0) steady_clock))
      = DigitalWrite DeciVolt.shutDown LOW :: evs
      /\ never_enables DeciVolt.shutDown evs /\ no_duty_write evs).
Proof.
  split.
  - apply (proj1 idle_states_disable_output
             (FloatVolt.power_on (steady_adc 0 0) steady_clock));
      simpl; discriminate.
  - apply (proj2 idle_states_disable_output
             (DeciVolt.power_on (steady_adc 0 0) steady_clock));
      simpl; discriminate.
Defined.

(** ** C10: the duty cycle after a tick in the sleep state *)

(** C10, as stated, fails: in the integer variant the duty cycle a tick in
    the sleep state leaves, 100, is not the minimum duty of that variant; the
    output guard lets 80 through. *)
Lemma sleep_duty_is_not_the_minimum :
  let m := DeciVolt.set_charger_state (DeciVolt.mode_code DeciVolt.sleep)
             (DeciVolt.set_pulseWidth 80
                (DeciVolt.power_on (steady_adc 0 601) steady_clock)) in
  DeciVolt.pulseWidth (exec DeciVolt.set_charger m) = 100
  /\ DeciVolt.pulseWidth (exec DeciVolt.set_charger m) <> DeciVolt.minDuty
  /\ DeciVolt.trace (exec DeciVolt.run_charger m)
     = [PwmWrite DeciVolt.driver 80; DigitalWrite DeciVolt.shutDown HIGH].
Proof. vm_compute. repeat split. discriminate. Qed.

(** C10, amended. In the integer variant [set_charger] in the sleep state
    leaves [pulseWidth] at 100, and so does every tick that ends in the sleep
    state; when the tick after it ends in the bulk state, the duty cycle
    that tick leaves is [CVM]'s step from 100, one [stepAmount] up or down
    or none, clamped by [run_charger], whatever [pulseWidth] held before the
    sleep tick. 100 is above the minimum duty of that variant, [minDuty] =
    75: the bound [run_charger] clamps to from below and the floor [CVM]
    assigns. In the floating-point variant [set_charger] in the sleep
    state, and every tick that ends in the sleep state, leaves [pulseWidth]
    as it was. *)
Theorem sleep_resets_duty :
  (forall m : DeciVolt.machine,
     (DeciVolt.charger_state m = DeciVolt.mode_code DeciVolt.sleep ->
      DeciVolt.pulseWidth (exec DeciVolt.set_charger m) = 100)
     /\ (DeciVolt.charger_state (exec DeciVolt.loop m)
         = DeciVolt.mode_code DeciVolt.sleep ->
         DeciVolt.pulseWidth (exec DeciVolt.loop m) = 100)
     /\ (let m1 := exec DeciVolt.loop m in
         let m2 := exec DeciVolt.loop m1 in
         DeciVolt.charger_state m1 = DeciVolt.mode_code DeciVolt.sleep ->
         DeciVolt.charger_state m2 = DeciVolt.mode_code DeciVolt.bulk ->
         DeciVolt.pulseWidth m2
         = Z.max 75
             (Z.min 245
                (if DeciVolt.panelVolts m2 >? DeciVolt.Vcvm m2
                 then to_int (100 + DeciVolt.stepAmount m2)
                 else if DeciVolt.panelVolts m2 <? DeciVolt.Vcvm m2
                 then to_int (100 - DeciVolt.stepAmount m2)
                 else 100)))
     /\ DeciVolt.pulseWidth (exec DeciVolt.run_charger m)
        = Z.max DeciVolt.minDuty (Z.min DeciVolt.maxDuty (DeciVolt.pulseWidth m))
     /\ (DeciVolt.panelVolts m < DeciVolt.Vcvm m ->
         DeciVolt.pulseWidth m <= DeciVolt.minDuty ->
         DeciVolt.pulseWidth (exec DeciVolt.CVM_adjust m) = DeciVolt.minDuty)
     /\ DeciVolt.minDuty < 100)
  /\ (forall m : FloatVolt.machine,
     (FloatVolt.charger_state m = FloatVolt.mode_code FloatVolt.sleep ->
      FloatVolt.pulseWidth (exec FloatVolt.set_charger m) = FloatVolt.pulseWidth m)
     /\ (FloatVolt.charger_state (exec FloatVolt.loop m)
         = FloatVolt.mode_code FloatVolt.sleep ->
         FloatVolt.pulseWidth (exec FloatVolt.loop m) = FloatVolt.pulseWidth m)).
Proof.
  split; intro m.
  - split; [apply set_charger_sleep |].
    split; [apply loop_sleep |].
    split; [| split; [| split]].
    + cbv zeta. intros Hs Hb.
      rewrite (loop_bulk_pulseWidth _ Hb). cbv zeta.
      rewrite (loop_sleep _ Hs).
      change (100 <? 245) with true. change (100 >? 75) with true.
      cbv iota. apply constrain_clamp. lia.
    + rewrite run_charger_pulseWidth. apply constrain_clamp.
      unfold DeciVolt.minDuty, DeciVolt.maxDuty. lia.
    + unfold DeciVolt.minDuty. intros Hv Hp.
      rewrite CVM_adjust_pulseWidth, Z.gtb_ltb.
      destruct (Z.ltb_spec (DeciVolt.Vcvm m) (DeciVolt.panelVolts m)); [lia |].
      destruct (Z.ltb_spec (DeciVolt.panelVolts m) (DeciVolt.Vcvm m)); [| lia].
      rewrite Z.gtb_ltb.
      destruct (Z.ltb_spec 75 (DeciVolt.pulseWidth m)); [lia | reflexivity].
    + reflexivity.
  - split; [apply float_set_charger_sleep | apply float_loop_sleep].
Qed.

(** C10 at work. Integer variant: a duty cycle of 180, a tick in the dark
    and a tick with 18 V on the panel, the battery at 12 V: the sleep tick
    leaves 100 and the bulk tick steps from 100 to 101. Floating-point
    variant: a tick in the dark leaves 180. *)
Lemma sleep_resets_duty_witness :
  (let m := DeciVolt.set_pulseWidth 180
              (DeciVolt.power_on (night_then_day 442 601) steady_clock) in
   DeciVolt.pulseWidth (exec DeciVolt.loop m) = 100
   /\ DeciVolt.pulseWidth (exec DeciVolt.loop (exec DeciVolt.loop m)) = 101)
  /\ FloatVolt.pulseWidth
       (exec FloatVolt.loop
          (FloatVolt.set_pulseWidth 180
             (FloatVolt.power_on (steady_adc 0 614) steady_clock)))
     = 180.
Proof.
  split; [cbv zeta; split |].
  - apply (proj1 (proj2 (proj1 sleep_resets_duty _))). vm_compute. reflexivity.
  - rewrite (proj1 (proj2 (proj2 (proj1 sleep_resets_duty _))));
      vm_compute; reflexivity.
  - rewrite (proj2 (proj2 sleep_resets_duty _)); [reflexivity |].
    vm_compute. reflexivity.
Defined.

(** ** C3: the error state *)

(** C3 fails on the code. Integer variant: a tick with the battery at 16.0 V
    puts the charger in the error state; the next tick, with the battery back
    at 12.0 V and the panel at 18.0 V, puts it in the bulk state and enables
    the converter. The floating-point variant does the same. *)
Theorem error_state_clears_itself :
  (let m1 := exec DeciVolt.loop
               (DeciVolt.power_on (steady_adc 442 801) steady_clock) in
   let m2 := exec DeciVolt.loop (DeciVolt.set_adc (steady_adc 442 601) m1) in
   DeciVolt.batteryVolts m1 = 160
   /\ DeciVolt.charger_state m1 = DeciVolt.mode_code DeciVolt.error
   /\ DeciVolt.batteryVolts m2 = 120
   /\ DeciVolt.panelVolts m2 = 180
   /\ DeciVolt.charger_state m2 = DeciVolt.mode_code DeciVolt.bulk
   /\ DeciVolt.enable m2 = "On"%string)
  /\ (let m1 := exec FloatVolt.loop
                  (FloatVolt.power_on (steady_adc 472 819) steady_clock) in
      let m2 := exec FloatVolt.loop (FloatVolt.set_adc (steady_adc 472 614) m1) in
      fgt (FloatVolt.batteryVolts m1) (of_int 15) = true
      /\ FloatVolt.charger_state m1 = FloatVolt.mode_code FloatVolt.error
      /\ flt (FloatVolt.batteryVolts m2) (decimal 121 10) = true
      /\ FloatVolt.charger_state m2 = FloatVolt.mode_code FloatVolt.bulk
      /\ FloatVolt.enable m2 = "On"%string).
Proof. vm_compute. repeat split. Qed.

(** ** C4: the mode selector *)

(** C4, as stated, fails in both variants. Floating-point variant: with
    light on the panel (18 V) and the battery at 13.55 V, inside the
    hysteresis band, [mode_select] assigns nothing, and the state it leaves
    is the state stored before, whichever it was. Integer variant: with
    18.0 V on the panel and the battery at exactly 10.0 V no test of the
    chain holds, and the stored state stays as well; and the test for light
    on the panel is not a margin of the panel over the battery: a panel 2 V
    above the battery (14.0 V over 12.0 V) gives sleep, a panel 0.2 V above
    it (15.1 V over 14.9 V) gives Float. *)
Lemma mode_select_reads_previous_state :
  (let m := FloatVolt.set_batteryVolts (decimal 1355 100)
              (FloatVolt.set_panelVolts (of_int 18)
                 (FloatVolt.power_on (steady_adc 0 0) steady_clock)) in
   let stays c :=
     FloatVolt.charger_state
       (exec FloatVolt.mode_select
          (FloatVolt.set_charger_state (FloatVolt.mode_code c) m))
     = FloatVolt.mode_code c in
   stays FloatVolt.bulk /\ stays FloatVolt.Float /\ stays FloatVolt.sleep
   /\ stays FloatVolt.error /\ stays FloatVolt.no_battery)
  /\ (let m := DeciVolt.set_batteryVolts 100
                 (DeciVolt.set_panelVolts 180
                    (DeciVolt.power_on (steady_adc 0 0) steady_clock)) in
      let stays c :=
        DeciVolt.charger_state
          (exec DeciVolt.mode_select
             (DeciVolt.set_charger_state (DeciVolt.mode_code c) m))
        = DeciVolt.mode_code c in
      stays DeciVolt.bulk /\ stays DeciVolt.Float /\ stays DeciVolt.sleep
      /\ stays DeciVolt.error /\ stays DeciVolt.no_battery)
  /\ (let at_reading pv bv :=
        DeciVolt.charger_state
          (exec DeciVolt.mode_select
             (DeciVolt.set_batteryVolts bv
                (DeciVolt.set_panelVolts pv
                   (DeciVolt.power_on (steady_adc 0 0) steady_clock)))) in
      at_reading 140 120 = DeciVolt.mode_code DeciVolt.sleep
      /\ at_reading 151 149 = DeciVolt.mode_code DeciVolt.Float).
Proof. vm_compute. repeat split. Qed.

(** C4, amended. [mode_select] always returns and changes nothing but
    [charger_state]. In the floating-point variant the state it leaves is
    the one the first matching rule of the decision order names from the
    two voltages alone, except in the hysteresis band (light on the panel,
    the battery above [Vfloat - 0.1] and below [Vfloat]), where it leaves
    the state stored before. In the integer variant, on deci-volts, it
    leaves no_battery below 100, else error above 150, else, with the
    battery strictly between 100 and 150 and the panel above 150, Float
    from 135 up and bulk below, else sleep with the panel below 150; on the
    readings that are left (the panel at 150 or more and the battery at
    exactly 100 or 150, or strictly between with the panel at exactly 150)
    it leaves the state stored before. *)
Theorem mode_select_first_match :
  (forall m : FloatVolt.machine,
     exec FloatVolt.mode_select m
     = FloatVolt.set_charger_state
         (FloatVolt.charger_state (exec FloatVolt.mode_select m)) m
     /\ FloatVolt.charger_state (exec FloatVolt.mode_select m)
        = match FloatVolt.classify (FloatVolt.panelVolts m)
                  (FloatVolt.batteryVolts m) with
          | Some s => FloatVolt.mode_code s
          | None => FloatVolt.charger_state m
          end)
  /\ (forall m : DeciVolt.machine,
     exec DeciVolt.mode_select m
     = DeciVolt.set_charger_state
         (DeciVolt.charger_state (exec DeciVolt.mode_select m)) m
     /\ DeciVolt.charger_state (exec DeciVolt.mode_select m)
        = let pv := DeciVolt.panelVolts m in
          let bv := DeciVolt.batteryVolts m in
          if bv <? 100 then DeciVolt.mode_code DeciVolt.no_battery
          else if 150 <? bv then DeciVolt.mode_code DeciVolt.error
          else if (100 <? bv) && (bv <? 150) && (150 <? pv)
          then (if 135 <=? bv then DeciVolt.mode_code DeciVolt.Float
                else DeciVolt.mode_code DeciVolt.bulk)
          else if pv <? 150 then DeciVolt.mode_code DeciVolt.sleep
          else DeciVolt.charger_state m).
Proof.
  split; intro m; split.
  - apply float_mode_select_exec.
  - apply float_mode_select_classify.
  - apply mode_select_exec.
  - destruct m.
    cbv beta iota zeta delta [exec DeciVolt.mode_select ifM when modify ret snd
      DeciVolt.set_charger_state DeciVolt.panelVolts DeciVolt.batteryVolts
      DeciVolt.charger_state to_int wrap_signed DeciVolt.Vmax DeciVolt.Vfloat].
    change ((136 - 1 + 2 ^ (16 - 1)) mod 2 ^ 16 - 2 ^ (16 - 1)) with 135.
    rewrite !Z.gtb_ltb.
    repeat match goal with
           | |- context [?a <? ?b] => destruct (Z.ltb_spec a b)
           | |- context [?a >=? ?b] => destruct (Z.geb_spec a b)
           | |- context [?a <=? ?b] => destruct (Z.leb_spec a b)
           end; cbn [andb]; try reflexivity; lia.
Qed.

(** C4 at work: battery at 12.0 V, panel at 18.0 V, whatever was stored. *)
Lemma mode_select_first_match_witness :
  DeciVolt.charger_state
    (exec DeciVolt.mode_select
       (DeciVolt.set_charger_state (DeciVolt.mode_code DeciVolt.error)
          (DeciVolt.set_panelVolts 180
             (DeciVolt.power_on (steady_adc 0 0) steady_clock))))
  = DeciVolt.mode_code DeciVolt.bulk.
Proof.
  rewrite (proj2 (proj2 mode_select_first_match _)). reflexivity.
Defined.

(** ** C5: the step of the CVM controller on the duty cycle *)

(** C5, as stated, fails, in both variants. Integer variant: from a duty
    cycle of 76, with the panel 10 V under the target, one CVM step leaves 66,
    under the minimum duty 75. Floating-point variant: from 244, with the
    panel 5 V over the target, one CVM step leaves 249, over the maximum duty
    245. *)
Lemma CVM_step_leaves_the_bounds :
  (let m := DeciVolt.set_pulseWidth 76
              (DeciVolt.set_Vcvm 200
                 (DeciVolt.set_panelVolts 100
                    (DeciVolt.power_on (steady_adc 0 0) steady_clock))) in
   DeciVolt.stepAmount (exec DeciVolt.CVM m) = 10
   /\ DeciVolt.pulseWidth (exec DeciVolt.CVM m) = 66)
  /\ (let m := FloatVolt.set_pulseWidth 244
                 (FloatVolt.set_Vcvm (of_int 13)
                    (FloatVolt.set_panelVolts (of_int 18)
                       (FloatVolt.power_on (steady_adc 0 0) steady_clock))) in
      FloatVolt.stepAmount (exec FloatVolt.CVM m) = 5
      /\ FloatVolt.pulseWidth (exec FloatVolt.CVM m) = 249).
Proof. vm_compute. repeat split. Qed.

(** C5, amended. In both variants one CVM invocation does exactly one of
    three things to [pulseWidth], the target being [Vcvm] as CVM leaves it:
    with the panel over the target, it adds [stepAmount] when [pulseWidth] is
    under 245 and sets 245 otherwise; with the panel under the target, it
    subtracts [stepAmount] when [pulseWidth] is over the minimum duty and sets
    the minimum duty otherwise; else it leaves [pulseWidth] alone. The sum and
    the difference are not clamped by CVM: from a duty cycle within the
    bounds, the duty cycle after one step is less than a step away from them,
    and it is the [run_charger] that follows that brings it back within. *)
Theorem CVM_adjusts_duty_by_step :
  (forall m : DeciVolt.machine,
     let m' := exec DeciVolt.CVM m in
     DeciVolt.pulseWidth m'
     = (if DeciVolt.panelVolts m >? DeciVolt.Vcvm m' then
          if DeciVolt.pulseWidth m <? 245
          then to_int (DeciVolt.pulseWidth m + DeciVolt.stepAmount m') else 245
        else if DeciVolt.panelVolts m <? DeciVolt.Vcvm m' then
          if DeciVolt.pulseWidth m >? 75
          then to_int (DeciVolt.pulseWidth m - DeciVolt.stepAmount m') else 75
        else DeciVolt.pulseWidth m)
     /\ 1 <= DeciVolt.stepAmount m'
     /\ (75 <= DeciVolt.pulseWidth m <= 245 ->
         DeciVolt.stepAmount m' <= 30000 ->
         75 - DeciVolt.stepAmount m' < DeciVolt.pulseWidth m'
                                     < 245 + DeciVolt.stepAmount m')
     /\ 75 <= DeciVolt.pulseWidth (exec DeciVolt.run_charger m') <= 245)
  /\ (forall m : FloatVolt.machine,
     let m' := exec FloatVolt.CVM m in
     FloatVolt.pulseWidth m'
     = (if fgt (FloatVolt.panelVolts m) (FloatVolt.Vcvm m') then
          if FloatVolt.pulseWidth m <? 245
          then to_int (FloatVolt.pulseWidth m + FloatVolt.stepAmount m') else 245
        else if flt (FloatVolt.panelVolts m) (FloatVolt.Vcvm m') then
          if FloatVolt.pulseWidth m >? 100
          then to_int (FloatVolt.pulseWidth m - FloatVolt.stepAmount m') else 100
        else FloatVolt.pulseWidth m)
     /\ 1 <= FloatVolt.stepAmount m'
     /\ (100 <= FloatVolt.pulseWidth m <= 245 ->
         FloatVolt.stepAmount m' <= 30000 ->
         100 - FloatVolt.stepAmount m' < FloatVolt.pulseWidth m'
                                       < 245 + FloatVolt.stepAmount m')
     /\ 100 <= FloatVolt.pulseWidth (exec FloatVolt.run_charger m') <= 245).
Proof.
  split; intros m m'; subst m'.
  - split; [apply CVM_pulseWidth |].
    split; [apply CVM_stepAmount_range |].
    split; [| rewrite run_charger_pulseWidth; apply constrain_range; lia].
    intros Hp Hs. rewrite CVM_pulseWidth.
    pose proof (CVM_stepAmount_range m).
    repeat match goal with
           | |- context [?a >? ?b] => rewrite (Z.gtb_ltb a b)
           | |- context [?a <? ?b] => destruct (Z.ltb_spec a b)
           end; try rewrite to_int_small; lia.
  - split; [apply float_CVM_pulseWidth |].
    split; [apply float_CVM_stepAmount_range |].
    split; [| rewrite float_run_charger_pulseWidth; apply constrain_range; lia].
    intros Hp Hs. rewrite float_CVM_pulseWidth.
    pose proof (float_CVM_stepAmount_range m).
    destruct (fgt _ _); [| destruct (flt _ _)];
    repeat match goal with
           | |- context [?a >? ?b] => rewrite (Z.gtb_ltb a b)
           | |- context [?a <? ?b] => destruct (Z.ltb_spec a b)
           end; try rewrite to_int_small; lia.
Qed.

(** C5 at work: the two machines of the counterexample. *)
Lemma CVM_adjusts_duty_by_step_witness :
  let m' := exec DeciVolt.CVM
              (DeciVolt.set_pulseWidth 76
                 (DeciVolt.set_Vcvm 200
                    (DeciVolt.set_panelVolts 100
                       (DeciVolt.power_on (steady_adc 0 0) steady_clock)))) in
  75 - DeciVolt.stepAmount m' < DeciVolt.pulseWidth m'
                              < 245 + DeciVolt.stepAmount m'.
Proof.
  cbv zeta.
  apply (proj1 (proj2 (proj2 (proj1 CVM_adjusts_duty_by_step _))));
    vm_compute; try split; discriminate.
Defined.

(** ** C6: the step amount *)

(** C6 fails on the code. In the integer variant the step is computed from
    the signed difference [Vcvm - panelVolts], without the absolute value:
    with the panel 5 V over the target the code steps by 1 where the
    specification's formula gives 5. In both variants the step is at least 1;
    in the floating-point variant it is the absolute difference, truncated;
    in the integer variant it agrees with the specification's formula when the
    panel is not over the target. *)
Theorem integer_step_drops_absolute_value :
  (let m := DeciVolt.set_Vcvm 130
              (DeciVolt.set_panelVolts 180
                 (DeciVolt.power_on (steady_adc 0 0) steady_clock)) in
   DeciVolt.Vcvm (exec DeciVolt.CVM m) = 130
   /\ DeciVolt.stepAmount (exec DeciVolt.CVM m) = 1
   /\ DeciVolt.spec_stepAmount 130 180 = 5)
  /\ (forall m : DeciVolt.machine,
     let m' := exec DeciVolt.CVM m in
     DeciVolt.stepAmount m'
     = Z.max 1 (to_int (to_long
                          (to_long (DeciVolt.Vcvm m' - DeciVolt.panelVolts m)
                           ÷ 10)))
     /\ 1 <= DeciVolt.stepAmount m'
     /\ (0 <= DeciVolt.panelVolts m <= DeciVolt.Vcvm m' ->
         DeciVolt.Vcvm m' <= 100000 ->
         DeciVolt.stepAmount m'
         = DeciVolt.spec_stepAmount (DeciVolt.Vcvm m') (DeciVolt.panelVolts m)))
  /\ (forall m : FloatVolt.machine,
     let m' := exec FloatVolt.CVM m in
     FloatVolt.stepAmount m'
     = Z.max 1 (to_int (truncate
                          (abs (fsub (FloatVolt.Vcvm m') (FloatVolt.panelVolts m)))))
     /\ 1 <= FloatVolt.stepAmount m').
Proof.
  split; [vm_compute; repeat split | split; intros m m'; subst m'].
  - split; [apply CVM_stepAmount |].
    split; [apply CVM_stepAmount_range |].
    intros Hp Hv. rewrite CVM_stepAmount. unfold DeciVolt.spec_stepAmount.
    set (d := DeciVolt.Vcvm (exec DeciVolt.CVM m) - DeciVolt.panelVolts m) in *.
    assert (0 <= d <= 100000) by (unfold d; lia).
    assert (0 <= d ÷ 10 <= 10000).
    { rewrite Z.quot_div_nonneg by lia.
      split; [apply Z.div_pos; lia | apply Z.div_le_upper_bound; lia]. }
    rewrite (to_long_small d) by lia.
    rewrite (to_long_small (d ÷ 10)) by lia.
    rewrite to_int_small by lia.
    rewrite Z.abs_eq by lia. reflexivity.
  - split; [apply float_CVM_stepAmount | apply float_CVM_stepAmount_range].
Qed.

(** C6 at work: the panel 5 V under the target. *)
Lemma integer_step_drops_absolute_value_witness :
  let m' := exec DeciVolt.CVM
              (DeciVolt.set_Vcvm 180
                 (DeciVolt.set_panelVolts 130
                    (DeciVolt.power_on (steady_adc 0 0) steady_clock))) in
  DeciVolt.stepAmount m' = DeciVolt.spec_stepAmount (DeciVolt.Vcvm m') 130.
Proof.
  cbv zeta.
  apply (proj2 (proj2 (proj1 (proj2 integer_step_drops_absolute_value)
           (DeciVolt.set_Vcvm 180
              (DeciVolt.set_panelVolts 130
                 (DeciVolt.power_on (steady_adc 0 0) steady_clock))))));
    vm_compute; try split; discriminate.
Defined.

(** ** C7: oversampling *)

(** C7 fails on the code. The floating-point variant never clears its
    accumulators: [read_data] adds the hundred samples to the voltage the
    previous tick left in [panelVolts] and [batteryVolts], and [update_Vcvm]
    adds them to the previous [Voc]. With every sample of the panel at 442 and
    every sample of the battery at 601, the first tick gives the scaled mean
    for the panel (which starts at 0) but not for the battery (which starts at
    12), and the second tick gives it for neither. The integer variant clears
    its accumulators first: there, whatever the variables held before, each
    calibrated value is the mean of the hundred fresh samples, after C's
    truncating division, times the channel's scale. *)
Theorem float_average_keeps_previous_value :
  (let m0 := FloatVolt.power_on (steady_adc 442 601) steady_clock in
   let m1 := exec FloatVolt.read_data m0 in
   let m2 := exec FloatVolt.read_data m1 in
   let panel_mean := fmul (fdiv (of_int (100 * 442)) (of_int 100))
                       FloatVolt.panel_scale in
   let battery_mean := fmul (fdiv (of_int (100 * 601)) (of_int 100))
                         FloatVolt.battery_scale in
   FloatVolt.panelVolts m1 = panel_mean
   /\ FloatVolt.batteryVolts m1 <> battery_mean
   /\ FloatVolt.panelVolts m2 <> panel_mean
   /\ FloatVolt.batteryVolts m2 <> battery_mean
   /\ FloatVolt.Voc (exec FloatVolt.update_Vcvm m0) = panel_mean
   /\ FloatVolt.Voc (exec FloatVolt.update_Vcvm (exec FloatVolt.update_Vcvm m0))
      <> panel_mean)
  /\ (forall m : DeciVolt.machine,
     (forall pin k, 0 <= DeciVolt.adc m pin k <= 1023) ->
     DeciVolt.panelVolts (exec DeciVolt.read_data m)
     = (sum_samples (DeciVolt.adc m) DeciVolt.panelMeter
          (DeciVolt.adc_count m) 100 ÷ 100 * 488) ÷ 1197
     /\ DeciVolt.batteryVolts (exec DeciVolt.read_data m)
        = (sum_samples (DeciVolt.adc m) DeciVolt.batteryMeter
             (DeciVolt.adc_count m + 100) 100 ÷ 100 * 488) ÷ 2441
     /\ DeciVolt.Voc (exec DeciVolt.update_Vcvm m)
        = (sum_samples (DeciVolt.adc m) DeciVolt.panelMeter
             (DeciVolt.adc_count m) 100 ÷ 100 * 488) ÷ 1197).
Proof.
  split.
  - vm_compute. repeat split; discriminate.
  - intros m H.
    destruct (read_data_calibrated m H) as [Hp Hb].
    split; [exact Hp |]. split; [exact Hb |].
    apply update_Vcvm_calibrated, H.
Qed.

(** C7 at work: the integer variant on a steady ADC. *)
Lemma float_average_keeps_previous_value_witness :
  DeciVolt.panelVolts
    (exec DeciVolt.read_data
       (DeciVolt.set_panelVolts 417
          (DeciVolt.power_on (steady_adc 442 601) steady_clock)))
  = (sum_samples (steady_adc 442 601) DeciVolt.panelMeter 0 100 ÷ 100 * 488) ÷ 1197.
Proof.
  apply (proj2 float_average_keeps_previous_value
           (DeciVolt.set_panelVolts 417
              (DeciVolt.power_on (steady_adc 442 601) steady_clock))).
  intros pin k. unfold steady_adc. simpl.
  destruct (pin =? A0); split; discriminate.
Defined.

(** ** C8: the guard on the target voltage *)

(** C8, as stated, fails: the integer variant has the guard commented out.
    With the target at 5.0 V, under a battery at 12.0 V, CVM keeps the target
    at 5.0 V and computes its step from it. *)
Lemma integer_CVM_runs_below_battery :
  let m := DeciVolt.set_Vcvm 50
             (DeciVolt.set_panelVolts 100
                (DeciVolt.power_on (steady_adc 0 0) steady_clock)) in
  DeciVolt.batteryVolts (exec DeciVolt.CVM m) = 120
  /\ DeciVolt.Vcvm (exec DeciVolt.CVM m) = 50
  /\ DeciVolt.stepAmount (exec DeciVolt.CVM m) = 1
  /\ DeciVolt.pulseWidth (exec DeciVolt.CVM m) = 101.
Proof. vm_compute. repeat split. Qed.

(** C8, amended. In the floating-point variant, in every CVM invocation,
    after the timer part and before the step is computed, a target [Vcvm]
    below [batteryVolts] is replaced by [batteryVolts + 1]; the step is
    computed from the target so guarded, which, for every valid binary32
    battery voltage, is not below the battery voltage. In the integer variant
    there is no guard: CVM leaves [Vcvm] as its timer part left it. *)
Theorem float_CVM_guards_target :
  (forall m : FloatVolt.machine,
     let m' := exec FloatVolt.CVM m in
     let v0 := FloatVolt.Vcvm (exec FloatVolt.CVM_timer m) in
     FloatVolt.Vcvm m'
     = (if flt v0 (FloatVolt.batteryVolts m)
        then fadd (FloatVolt.batteryVolts m) (of_int 1) else v0)
     /\ FloatVolt.stepAmount m'
        = Z.max 1 (to_int (truncate
                             (abs (fsub (FloatVolt.Vcvm m')
                                        (FloatVolt.panelVolts m)))))
     /\ (valid_binary prec emax (FloatVolt.batteryVolts m) = true ->
         flt (FloatVolt.Vcvm m') (FloatVolt.batteryVolts m) = false))
  /\ (forall m : DeciVolt.machine,
     DeciVolt.Vcvm (exec DeciVolt.CVM m)
     = DeciVolt.Vcvm (exec DeciVolt.CVM_timer m)).
Proof.
  split; intro m; [| apply CVM_Vcvm].
  cbv zeta. split; [apply float_CVM_Vcvm |].
  split; [apply float_CVM_stepAmount |].
  intro Hv. rewrite float_CVM_Vcvm.
  destruct (flt (FloatVolt.Vcvm (exec FloatVolt.CVM_timer m))
              (FloatVolt.batteryVolts m)) eqn:E.
  - apply fadd_one_not_below, Hv.
  - exact E.
Qed.

(** C8 at work: at power-on, the target at 0 V under a battery at 12 V. *)
Lemma float_CVM_guards_target_witness :
  let m := FloatVolt.power_on (steady_adc 0 0) steady_clock in
  flt (FloatVolt.Vcvm (exec FloatVolt.CVM m)) (FloatVolt.batteryVolts m) = false.
Proof.
  cbv zeta.
  apply (proj2 (proj2 (proj1 float_CVM_guards_target
           (FloatVolt.power_on (steady_adc 0 0) steady_clock)))).
  reflexivity.
Defined.

(** * Further properties of the code *)

(** ** Reasoning with pre- and postconditions *)

Section HoareFacts.
Context {S : Type}.
Implicit Types P Q R : S -> Prop.

Lemma hoare_conseq {A} P P' Q Q' (c : M A) :
  (forall s, P' s -> P s) -> (forall s, Q s -> Q' s) ->
  hoare P c Q -> hoare P' c Q'.
Proof. intros HP HQ H s Hs. apply HQ, H, HP, Hs. Qed.

Lemma hoare_ret {A} P (a : A) : hoare P (ret a) P.
Proof. intros s Hs. exact Hs. Qed.

Lemma hoare_gets {A} P (g : S -> A) : hoare P (gets g) P.
Proof. intros s Hs. exact Hs. Qed.

Lemma hoare_modify P Q (g : S -> S) :
  (forall s, P s -> Q (g s)) -> hoare P (modify g) Q.
Proof. intros H s Hs. apply H, Hs. Qed.

Lemma hoare_bind {A B} P R Q (c : M A) (k : A -> M B) :
  hoare P c R -> (forall a, hoare R (k a) Q) -> hoare P (bind c k) Q.
Proof. intros Hc Hk s Hs. rewrite exec_bind. apply Hk, Hc, Hs. Qed.

Lemma hoare_ifM P Q (c : S -> bool) (t e : M unit) :
  hoare (fun s => P s /\ c s = true) t Q ->
  hoare (fun s => P s /\ c s = false) e Q ->
  hoare P (ifM c t e) Q.
Proof.
  intros Ht He s Hs. rewrite exec_ifM.
  destruct (c s) eqn:E; [apply Ht | apply He]; split; assumption.
Qed.

Lemma hoare_when P (c : S -> bool) (t : M unit) :
  hoare P t P -> hoare P (when c t) P.
Proof.
  intros Ht s Hs. rewrite exec_when. destruct (c s); [apply Ht |]; exact Hs.
Qed.

Lemma hoare_for_loop P (n : nat) (body : M unit) :
  hoare P body P -> hoare P (for_loop n body) P.
Proof.
  intro Hb. induction n as [|n IH]; intros s Hs.
  - exact Hs.
  - rewrite exec_for_loop_S. apply IH, Hb, Hs.
Qed.

(** A computation that keeps an observation keeps what is said of it. *)
Lemma hoare_preserves {A B} (f : S -> B) (I : B -> Prop) (c : M A) :
  preserves f c -> hoare (fun s => I (f s)) c (fun s => I (f s)).
Proof. intros H s Hs. rewrite H. exact Hs. Qed.
End HoareFacts.

(** An invariant whatever the condition of the branch. *)
Lemma hoare_branch {S} (P Q : S -> Prop) (c : S -> bool) (t e : M unit) :
  hoare P t Q -> hoare P e Q -> hoare P (ifM c t e) Q.
Proof.
  intros Ht He. apply hoare_ifM.
  - intros s [Hs _]. apply Ht, Hs.
  - intros s [Hs _]. apply He, Hs.
Qed.

(** Whatever a computation starts from, it ends somewhere. *)
Lemma hoare_any {S A} (P : S -> Prop) (c : M A) : hoare P c (fun _ => True).
Proof. intros s _. exact I. Qed.

(** The last of [n + 1] passes starts where the first [n] end. *)
Lemma exec_for_loop_last {S} (n : nat) (body : M unit) (s : S) :
  exec (for_loop (Datatypes.S n) body) s = exec body (exec (for_loop n body) s).
Proof.
  revert s. induction n as [|n IH]; intro s.
  - reflexivity.
  - rewrite exec_for_loop_S, IH. reflexivity.
Qed.

(** The structure of the computation is followed, [leaf] closes the
    primitive steps. *)
Ltac maintain leaf :=
  repeat lazymatch goal with
  | |- hoare _ (ret _) _ => apply hoare_ret
  | |- hoare _ (gets _) _ => apply hoare_gets
  | |- hoare ?P (bind _ _) ?Q => apply (hoare_bind P P Q); [| intro]
  | |- hoare _ (ifM _ _ _) _ => apply hoare_branch
  | |- hoare _ (when _ _) _ => apply hoare_when
  | |- hoare _ (for_loop _ _) _ => apply hoare_for_loop
  | |- hoare _ (match ?x with _ => _ end) _ => destruct x
  | |- hoare _ _ _ => leaf
  end.

(** ** Readings of a trace *)

Lemma last_level_snoc pin evs e :
  last_level pin (evs ++ [e])
  = match e with
    | DigitalWrite p l => if p =? pin then Some l else last_level pin evs
    | _ => last_level pin evs
    end.
Proof.
  induction evs as [|x evs IH].
  - destruct e; reflexivity.
  - change ((x :: evs) ++ [e]) with (x :: (evs ++ [e])).
    cbn [last_level]. rewrite IH.
    destruct e; try reflexivity.
    destruct (pin0 =? pin); reflexivity.
Qed.

Lemma delay_total_app xs ys :
  delay_total (xs ++ ys) = delay_total xs + delay_total ys.
Proof.
  induction xs as [|x xs IH]; [reflexivity |].
  destruct x; cbn [app delay_total]; lia.
Qed.

Section DelayFacts.
Context {S : Type}.
Variable tr : S -> list event.

Lemma delayed_quiet {A} (c : M A) : preserves tr c -> delayed tr 0 0 c.
Proof.
  intros H s. exists []. rewrite app_nil_r.
  split; [apply H | simpl; lia].
Qed.

Lemma delayed_bind {A B} lo1 hi1 lo2 hi2 (c : M A) (k : A -> M B) :
  delayed tr lo1 hi1 c -> (forall a, delayed tr lo2 hi2 (k a)) ->
  delayed tr (lo1 + lo2) (hi1 + hi2) (bind c k).
Proof.
  intros Hc Hk s. rewrite exec_bind.
  destruct (Hc s) as (xs & Exs & Pxs).
  destruct (Hk (eval c s) (exec c s)) as (ys & Eys & Pys).
  exists (xs ++ ys). rewrite delay_total_app.
  split; [rewrite Eys, Exs, app_assoc; reflexivity | lia].
Qed.

Lemma delayed_weaken {A} lo hi lo' hi' (c : M A) :
  delayed tr lo hi c -> lo' <= lo -> hi <= hi' -> delayed tr lo' hi' c.
Proof.
  intros Hc Hl Hh s. destruct (Hc s) as (xs & Exs & Pxs).
  exists xs. split; [exact Exs | lia].
Qed.

Lemma delayed_ifM lo1 hi1 lo2 hi2 (c : S -> bool) (t e : M unit) :
  delayed tr lo1 hi1 t -> delayed tr lo2 hi2 e ->
  delayed tr (Z.min lo1 lo2) (Z.max hi1 hi2) (ifM c t e).
Proof.
  intros Ht He s. rewrite exec_ifM.
  destruct (c s);
    [destruct (Ht s) as (xs & E & Px) | destruct (He s) as (xs & E & Px)];
    exists xs; (split; [exact E | lia]).
Qed.

Lemma delayed_when lo hi (c : S -> bool) (t : M unit) :
  delayed tr lo hi t -> delayed tr (Z.min lo 0) (Z.max hi 0) (when c t).
Proof.
  intro Ht. apply delayed_ifM; [exact Ht |].
  apply delayed_quiet. intro s. reflexivity.
Qed.

Lemma delayed_for_loop lo hi (n : nat) (body : M unit) :
  delayed tr lo hi body ->
  delayed tr (Z.of_nat n * lo) (Z.of_nat n * hi) (for_loop n body).
Proof.
  intro Hb. induction n as [|n IH].
  - apply delayed_quiet. intro s. reflexivity.
  - apply (delayed_weaken (lo + Z.of_nat n * lo) (hi + Z.of_nat n * hi));
      [| lia | lia].
    apply (delayed_bind lo hi _ _ body (fun _ => for_loop n body));
      [exact Hb | intros _; exact IH].
Qed.
End DelayFacts.

(** The bounds of a composed computation are collected along its structure;
    [emits] closes a write to the trace, and what is left writes nothing. *)
Ltac wait1 emits :=
  lazymatch goal with
  | |- delayed _ _ _ (bind _ _) => eapply delayed_bind; [| intro]
  | |- delayed _ _ _ (ifM _ _ _) => eapply delayed_ifM
  | |- delayed _ _ _ (when _ _) => eapply delayed_when
  | |- delayed _ _ _ (for_loop ?n _) =>
      first [ is_var n; apply delayed_quiet; keep | eapply delayed_for_loop ]
  | |- delayed _ _ _ (match ?x with _ => _ end) => destruct x
  | |- delayed _ _ _ _ => first [emits | apply delayed_quiet; intro; reflexivity]
  end.
Ltac waits emits := repeat wait1 emits.

(** ** The integer variant: what every tick keeps *)

Section DeciVoltInvariants.
Import DeciVolt.
Local Open Scope mppt_scope.

Let duty_in_bounds (m : machine) : Prop := 75 <= pulseWidth m <= 245.
Let valid_state (m : machine) : Prop := mode_of_code (charger_state m) <> None.

Lemma run_charger_establishes_duty P : hoare P run_charger duty_in_bounds.
Proof.
  intros m _. unfold duty_in_bounds. rewrite run_charger_pulseWidth.
  apply constrain_range. lia.
Qed.

Lemma keeps_duty {A} (c : M A) :
  preserves pulseWidth c -> hoare duty_in_bounds c duty_in_bounds.
Proof. apply (hoare_preserves pulseWidth (fun v => 75 <= v <= 245)). Qed.

Lemma set_charger_keeps_duty : hoare duty_in_bounds set_charger duty_in_bounds.
Proof.
  unfold set_charger.
  apply (hoare_bind _ duty_in_bounds); [apply hoare_gets | intro cs].
  destruct (mode_of_code cs) as [[]|].
  - apply keeps_duty.
    unfold disable_charger, error_blink, digitalWrite, emit. keep.
  - intros m _. unfold duty_in_bounds.
    replace (pulseWidth _) with 100 by reflexivity. lia.
  - apply (hoare_bind _ (fun _ => True)); [apply hoare_any | intros _].
    apply (hoare_bind _ (fun _ => True)); [apply hoare_any | intros _].
    apply (hoare_bind _ duty_in_bounds);
      [apply run_charger_establishes_duty | intros _].
    apply keeps_duty. unfold digitalWrite, emit. keep.
  - apply (hoare_bind _ (fun _ => True)); [apply hoare_any | intros _].
    apply (hoare_bind _ duty_in_bounds);
      [intros m _; unfold duty_in_bounds; simpl; lia | intros _].
    apply (hoare_bind _ duty_in_bounds).
    + apply hoare_branch; [apply run_charger_establishes_duty |].
      apply keeps_duty. unfold disable_charger, digitalWrite, emit. keep.
    + intros _. apply keeps_duty. unfold digitalWrite, emit. keep.
  - apply keeps_duty.
    unfold disable_charger, error_blink, digitalWrite, emit. keep.
  - apply keeps_duty.
    unfold disable_charger, error_blink, digitalWrite, emit. keep.
Qed.

Lemma loop_keeps_duty : hoare duty_in_bounds loop duty_in_bounds.
Proof.
  unfold loop.
  apply (hoare_bind _ duty_in_bounds);
    [apply keeps_duty; unfold read_data; keep | intros _].
  apply (hoare_bind _ duty_in_bounds);
    [apply keeps_duty; unfold mode_select; keep | intros _].
  apply (hoare_bind _ duty_in_bounds); [apply set_charger_keeps_duty | intros _].
  apply keeps_duty. apply outputs_keep_pulseWidth.
Qed.

(** X1. Integer variant: when [pulseWidth] is within 75..245, it is within
    75..245 again after any number of passes of [loop()], whatever the
    inputs read: between two ticks the stored duty cycle never leaves the
    bounds, although [CVM] steps over them within a tick. *)
Theorem ticks_keep_duty (n : nat) (m : machine) :
  75 <= pulseWidth m <= 245 ->
  75 <= pulseWidth (exec (ticks n) m) <= 245.
Proof.
  apply (hoare_for_loop duty_in_bounds n loop loop_keeps_duty m).
Qed.

Lemma ticks_keep_duty_witness :
  75 <= pulseWidth (exec (ticks 3) (power_on (steady_adc 700 601) steady_clock))
  <= 245.
Proof.
  apply (ticks_keep_duty 3 (power_on (steady_adc 700 601) steady_clock)).
  simpl. lia.
Defined.

Lemma mode_select_keeps_valid : hoare valid_state mode_select valid_state.
Proof.
  unfold mode_select.
  repeat first
    [ apply hoare_branch
    | apply hoare_when
    | apply hoare_ret
    | apply hoare_modify; intros s _; unfold valid_state; simpl; discriminate ].
Qed.

Lemma keeps_valid {A} (c : M A) :
  preserves charger_state c -> hoare valid_state c valid_state.
Proof.
  apply (hoare_preserves charger_state (fun z => mode_of_code z <> None)).
Qed.

Lemma loop_keeps_valid : hoare valid_state loop valid_state.
Proof.
  unfold loop.
  apply (hoare_bind _ valid_state);
    [apply keeps_valid; unfold read_data; keep | intros _].
  apply (hoare_bind _ valid_state); [apply mode_select_keeps_valid | intros _].
  apply (hoare_bind _ valid_state);
    [apply keeps_valid, set_charger_keeps_state | intros _].
  apply keeps_valid, outputs_keep_state.
Qed.

Lemma set_charger_label m c :
  mode_of_code (charger_state m) = Some c ->
  SOC (exec set_charger m)
  = match c with
    | no_battery => "No Battery!" | sleep => "Sleep" | bulk => "Bulk"
    | Float => "Float" | error => "Error"
    end%string
  /\ state (exec set_charger m) = mode_code c.
Proof.
  intro H. unfold set_charger. rewrite exec_bind.
  change (eval (gets charger_state) m) with (charger_state m).
  rewrite H.
  assert (K : forall (s : string) (rest : M unit) m0, preserves SOC rest ->
             SOC (exec (modify (set_SOC s) ;; rest) m0) = s).
  { intros s rest m0 Hr. rewrite exec_bind, Hr. reflexivity. }
  destruct c; (split; [| reflexivity]).
  - reflexivity.
  - rewrite exec_bind. apply K.
    unfold sleep_blink, digitalWrite, emit. keep.
  - apply K.
    unfold CVM, CVM_timer, CVM_adjust, update_Vcvm, run_charger,
      disable_charger, pwmWrite, digitalWrite, delay, emit. keep.
  - apply K.
    unfold run_charger, disable_charger, pwmWrite, digitalWrite, emit. keep.
  - reflexivity.
Qed.

Lemma outputs_keep_SOC : preserves SOC (run_load ;; run_fan ;; print_data).
Proof. unfold run_load, run_fan, print_data, digitalWrite, emit. keep. Qed.

Lemma outputs_keep_gui_state : preserves state (run_load ;; run_fan ;; print_data).
Proof. unfold run_load, run_fan, print_data, digitalWrite, emit. keep. Qed.

(** X2. Integer variant: when [charger_state] holds one of the five
    enumerators, then after any positive number of passes of [loop()] it
    holds one of the five again, the label [SOC] that [print_data] reports
    is the name of that state, and the number [state] is its code: the
    [default] branch of [set_charger] and its label are never reached. *)
Theorem ticks_keep_state_named (n : nat) (m : machine) :
  mode_of_code (charger_state m) <> None ->
  let m' := exec (ticks (Datatypes.S n)) m in
  exists c,
    mode_of_code (charger_state m') = Some c
    /\ SOC m' = match c with
                | no_battery => "No Battery!" | sleep => "Sleep"
                | bulk => "Bulk" | Float => "Float" | error => "Error"
                end%string
    /\ state m' = charger_state m'.
Proof.
  intros Hv. cbv zeta. unfold ticks. rewrite exec_for_loop_last.
  pose proof (hoare_for_loop valid_state n loop loop_keeps_valid m Hv) as Hn.
  set (m0 := exec (for_loop n loop) m) in *.
  pose proof (loop_keeps_valid m0 Hn) as H1. unfold valid_state in H1.
  destruct (mode_of_code (charger_state (exec loop m0))) as [c|] eqn:Ec;
    [| congruence].
  exists c. split; [reflexivity |].
  assert (Ecode : charger_state (exec loop m0) = mode_code c).
  { revert Ec. generalize (charger_state (exec loop m0)). intros z Hz.
    unfold mode_of_code in Hz.
    repeat match type of Hz with
           | match ?x with _ => _ end = _ => destruct x; try discriminate
           end; injection Hz as <-; reflexivity. }
  rewrite Ecode.
  rewrite loop_stages, outputs_keep_state, set_charger_keeps_state in Ec.
  rewrite loop_stages, outputs_keep_SOC, outputs_keep_gui_state.
  apply set_charger_label, Ec.
Qed.

Lemma ticks_keep_state_named_witness :
  let m' := exec (ticks 2) (power_on (steady_adc 700 601) steady_clock) in
  exists c,
    mode_of_code (charger_state m') = Some c
    /\ SOC m' = match c with
                | no_battery => "No Battery!" | sleep => "Sleep"
                | bulk => "Bulk" | Float => "Float" | error => "Error"
                end%string
    /\ state m' = charger_state m'.
Proof.
  apply (ticks_keep_state_named 1 (power_on (steady_adc 700 601) steady_clock)).
  simpl. discriminate.
Defined.
End DeciVoltInvariants.

(** ** The integer variant: the thresholds of the mode selector *)

Section DeciVoltModes.
Import DeciVolt.
Local Open Scope mppt_scope.

Ltac fields :=
  cbv beta iota delta [set_panelVolts set_batteryVolts set_Voc set_Vcvm
    set_pulseWidth set_pwm set_b set_stepAmount set_state set_LEDstate set_time
    set_time2 set_enable set_SOC set_Load set_charger_state set_adc
    set_adc_count set_clock set_clock_count set_trace
    panelVolts batteryVolts Voc Vcvm pulseWidth
    pwm b stepAmount state LEDstate time time2 enable SOC Load charger_state
    adc adc_count clock clock_count trace].

(** X3. Integer variant: [mode_select] writes no state, and leaves the whole
    machine as it was, when the panel is at 15.0 V or more and the battery
    reads exactly 10.0 V or exactly 15.0 V, or is strictly between them while
    the panel reads exactly 15.0 V; on every other reading it changes nothing
    but [charger_state], which it sets to the state that the decision order
    gives. *)
Theorem mode_select_on_boundaries (m : machine) :
  if (panelVolts m >=? 150)
     && ((batteryVolts m =? 100) || (batteryVolts m =? 150)
         || ((100 <? batteryVolts m) && (batteryVolts m <? 150)
             && (panelVolts m =? 150)))
  then exec mode_select m = m
  else exec mode_select m
       = set_charger_state
           (mode_code (classify (panelVolts m) (batteryVolts m))) m.
Proof.
  destruct m.
  cbv beta iota delta [exec mode_select ifM when modify ret snd classify
    to_int wrap_signed Vmax Vfloat].
  fields.
  change ((136 - 1 + 2 ^ (16 - 1)) mod 2 ^ 16 - 2 ^ (16 - 1)) with (136 - 1).
  rewrite !Z.gtb_ltb.
  repeat match goal with
         | |- context [?a <? ?b] => destruct (Z.ltb_spec a b)
         | |- context [?a >=? ?b] => destruct (Z.geb_spec a b)
         | |- context [?a =? ?b] => destruct (Z.eqb_spec a b)
         end; cbn [andb orb]; try reflexivity; lia.
Qed.

(** X4. Integer variant: with the panel above 15.0 V and the battery from
    13.5 V to below 15.0 V, [mode_select] then [set_charger] end in the
    float state with [pulseWidth] at 245; the converter is driven, at duty
    245, only when the battery reads exactly 13.5 V, and is switched off at
    every reading from 13.6 V up: the float state is entered at
    [Vfloat - 1] but charges only below [Vfloat]. *)
Theorem float_state_charges_only_at_135 (m : machine) :
  135 <= batteryVolts m < 150 -> 150 < panelVolts m ->
  let m' := exec set_charger (exec mode_select m) in
  charger_state m' = mode_code Float
  /\ pulseWidth m' = 245
  /\ (batteryVolts m = 135 ->
      enable m' = "On"%string
      /\ trace m' = trace m ++ [PwmWrite driver 245; DigitalWrite shutDown HIGH;
                                DigitalWrite 13 LOW])
  /\ (batteryVolts m <> 135 ->
      enable m' = "Off"%string
      /\ trace m' = trace m ++ [DigitalWrite shutDown LOW; DigitalWrite 13 LOW]).
Proof.
  intros Hb Hp. cbv zeta.
  assert (E : exec mode_select m = set_charger_state (mode_code Float) m).
  { rewrite mode_select_exec.
    rewrite mode_select_classify by (unfold Vmax; lia).
    unfold classify, Vmax, Vfloat. rewrite !Z.gtb_ltb.
    destruct (Z.ltb_spec (batteryVolts m) 100); [lia |].
    destruct (Z.ltb_spec 150 (batteryVolts m)); [lia |].
    destruct (Z.ltb_spec 150 (panelVolts m)); [| lia].
    destruct (Z.geb_spec (batteryVolts m) (136 - 1)); [reflexivity | lia]. }
  rewrite E. destruct m.
  cbv beta iota delta [exec set_charger bind gets modify ifM run_charger
    disable_charger pwmWrite digitalWrite emit fst snd mode_code mode_of_code
    Vfloat].
  fields. cbn [batteryVolts panelVolts] in Hb, Hp.
  change (to_uint8 (constrain 245 75 245)) with 245.
  change (to_uint8 HIGH) with HIGH. change (to_uint8 LOW) with LOW.
  destruct (Z.ltb_spec batteryVolts0 136); fields; rewrite <- !app_assoc;
    cbn [app]; repeat split; try reflexivity; intros; try lia;
    split; reflexivity.
Qed.

Lemma float_state_charges_only_at_135_witness :
  let m := set_panelVolts 180 (set_batteryVolts 140
             (power_on (steady_adc 0 0) steady_clock)) in
  let m' := exec set_charger (exec mode_select m) in
  charger_state m' = mode_code Float
  /\ pulseWidth m' = 245
  /\ (batteryVolts m = 135 ->
      enable m' = "On"%string
      /\ trace m' = trace m ++ [PwmWrite driver 245; DigitalWrite shutDown HIGH;
                                DigitalWrite 13 LOW])
  /\ (batteryVolts m <> 135 ->
      enable m' = "Off"%string
      /\ trace m' = trace m ++ [DigitalWrite shutDown LOW; DigitalWrite 13 LOW]).
Proof.
  apply (float_state_charges_only_at_135
           (set_panelVolts 180 (set_batteryVolts 140
              (power_on (steady_adc 0 0) steady_clock)))); simpl; lia.
Defined.
End DeciVoltModes.

(** ** The integer variant: what the telemetry says and what the pins do *)

Section DeciVoltTelemetry.
Import DeciVolt.
Local Open Scope mppt_scope.

Let driver_agrees (m : machine) : Prop :=
  (enable m = "On"%string /\ last_level shutDown (trace m) = Some HIGH)
  \/ (enable m = "Off"%string /\ last_level shutDown (trace m) = Some LOW).

Let load_agrees (m : machine) : Prop :=
  if batteryVolts m >? lowBatt
  then Load m = "On"%string /\ last_level load (trace m) = Some LOW
  else Load m = "Off"%string /\ last_level load (trace m) = Some HIGH.

Let fan_agrees (m : machine) : Prop :=
  last_level fan (trace m)
  = Some match mode_of_code (charger_state m) with
         | Some bulk => HIGH
         | _ => LOW
         end.

Ltac agree_leaf :=
  intros s Hs; unfold driver_agrees, load_agrees, fan_agrees in *;
  cbv beta iota delta [exec emit modify analogRead millis snd fst];
  cbn [enable Load trace batteryVolts charger_state
    set_panelVolts set_batteryVolts set_Voc set_Vcvm
    set_pulseWidth set_pwm set_b set_stepAmount set_state set_LEDstate set_time
    set_time2 set_SOC set_Load set_enable set_charger_state
    set_adc_count set_clock_count set_trace];
  rewrite ?last_level_snoc; exact Hs.

Lemma run_charger_agrees P : hoare P run_charger driver_agrees.
Proof.
  intros s _. left. split; [reflexivity |].
  rewrite run_charger_trace.
  match goal with
  | |- context [?t ++ [?x; ?y]] =>
      replace (t ++ [x; y]) with ((t ++ [x]) ++ [y])
        by (rewrite <- app_assoc; reflexivity)
  end.
  rewrite last_level_snoc. reflexivity.
Qed.

Lemma disable_charger_agrees P : hoare P disable_charger driver_agrees.
Proof.
  intros s _. right. split; [reflexivity |].
  unfold disable_charger, digitalWrite, emit, exec, bind, modify. simpl.
  rewrite last_level_snoc. reflexivity.
Qed.

Lemma update_Vcvm_agrees P : hoare P update_Vcvm driver_agrees.
Proof.
  unfold update_Vcvm.
  apply (hoare_bind _ driver_agrees); [apply disable_charger_agrees | intros _].
  unfold delay. maintain agree_leaf.
Qed.

Lemma error_blink_agrees : hoare driver_agrees error_blink driver_agrees.
Proof. unfold error_blink, digitalWrite. maintain agree_leaf. Qed.

Lemma sleep_blink_agrees : hoare driver_agrees sleep_blink driver_agrees.
Proof. unfold sleep_blink, digitalWrite. maintain agree_leaf. Qed.

Lemma set_charger_agrees P : hoare P set_charger driver_agrees.
Proof.
  unfold set_charger.
  apply (hoare_bind _ (fun _ => True)); [apply hoare_any | intro cs].
  destruct (mode_of_code cs) as [[]|].
  - apply (hoare_bind _ driver_agrees); [apply disable_charger_agrees | intros _].
    apply (hoare_bind _ driver_agrees); [apply error_blink_agrees | intros _].
    maintain agree_leaf.
  - apply (hoare_bind _ driver_agrees); [apply disable_charger_agrees | intros _].
    apply (hoare_bind _ driver_agrees); [maintain agree_leaf | intros _].
    apply (hoare_bind _ driver_agrees); [apply sleep_blink_agrees | intros _].
    maintain agree_leaf.
  - apply (hoare_bind _ (fun _ => True)); [apply hoare_any | intros _].
    apply (hoare_bind _ (fun _ => True)); [apply hoare_any | intros _].
    apply (hoare_bind _ driver_agrees); [apply run_charger_agrees | intros _].
    unfold digitalWrite. maintain agree_leaf.
  - apply (hoare_bind _ (fun _ => True)); [apply hoare_any | intros _].
    apply (hoare_bind _ (fun _ => True)); [apply hoare_any | intros _].
    apply (hoare_bind _ driver_agrees).
    + apply hoare_branch; [apply run_charger_agrees | apply disable_charger_agrees].
    + intros _. unfold digitalWrite. maintain agree_leaf.
  - apply (hoare_bind _ driver_agrees); [apply disable_charger_agrees | intros _].
    apply (hoare_bind _ driver_agrees); [apply error_blink_agrees | intros _].
    maintain agree_leaf.
  - apply (hoare_bind _ driver_agrees); [apply disable_charger_agrees | intros _].
    apply (hoare_bind _ driver_agrees); [apply error_blink_agrees | intros _].
    maintain agree_leaf.
Qed.

Lemma loop_driver_agrees : hoare (fun _ => True) loop driver_agrees.
Proof.
  unfold loop.
  apply (hoare_bind _ (fun _ => True)); [apply hoare_any | intros _].
  apply (hoare_bind _ (fun _ => True)); [apply hoare_any | intros _].
  apply (hoare_bind _ driver_agrees); [apply set_charger_agrees | intros _].
  unfold run_load, run_fan, print_data, digitalWrite. maintain agree_leaf.
Qed.

(** X5. Integer variant: at the end of every pass of [loop()] the text
    [enable] that [print_data] reports agrees with the driver-enable pin:
    it is "On" and the last level written to the pin is [HIGH], or it is
    "Off" and the last level written is [LOW]. *)
Theorem loop_reports_driver (m : machine) :
  let m' := exec loop m in
  (enable m' = "On"%string /\ last_level shutDown (trace m') = Some HIGH)
  \/ (enable m' = "Off"%string /\ last_level shutDown (trace m') = Some LOW).
Proof. apply (loop_driver_agrees m I). Qed.

Lemma run_load_agrees P : hoare P run_load load_agrees.
Proof.
  intros s _. destruct s. unfold load_agrees, run_load.
  cbv beta iota delta [exec ifM bind digitalWrite emit modify fst snd].
  cbn [batteryVolts].
  destruct (batteryVolts0 >? lowBatt) eqn:Hb;
    cbn [batteryVolts Load trace set_Load set_trace]; rewrite Hb;
    (split; [reflexivity |]); rewrite last_level_snoc; reflexivity.
Qed.

Lemma run_fan_agrees P : hoare P run_fan fan_agrees.
Proof.
  intros s _. destruct s. unfold fan_agrees, run_fan.
  cbv beta iota delta [exec bind gets fst snd].
  cbn [charger_state].
  destruct (mode_of_code charger_state0) as [[]|] eqn:E;
    cbv beta iota delta [exec digitalWrite emit modify snd];
    cbn [trace charger_state set_trace]; rewrite E, last_level_snoc;
    reflexivity.
Qed.

Lemma loop_load_fan_agree :
  hoare (fun _ => True) loop (fun m => load_agrees m /\ fan_agrees m).
Proof.
  unfold loop.
  apply (hoare_bind _ (fun _ => True)); [apply hoare_any | intros _].
  apply (hoare_bind _ (fun _ => True)); [apply hoare_any | intros _].
  apply (hoare_bind _ (fun _ => True)); [apply hoare_any | intros _].
  apply (hoare_bind _ load_agrees); [apply run_load_agrees | intros _].
  apply (hoare_bind _ (fun m => load_agrees m /\ fan_agrees m)).
  - intros s Hs. split; [| apply (run_fan_agrees (fun _ => True) s I)].
    revert s Hs. change (hoare load_agrees run_fan load_agrees).
    unfold run_fan, digitalWrite. maintain agree_leaf.
  - intros _. intros s [H1 H2]. split; revert s H1 H2.
    + intros s H1 _. revert s H1.
      change (hoare load_agrees print_data load_agrees).
      unfold print_data. maintain agree_leaf.
    + intros s _ H2. revert s H2.
      change (hoare fan_agrees print_data fan_agrees).
      unfold print_data. maintain agree_leaf.
Qed.

(** X6. Integer variant: at the end of every pass of [loop()] the load is
    connected (pin [load] low, [Load] reported "On") exactly when the battery
    voltage of this tick is above 11.0 V, and the fan runs (pin [fan] high)
    exactly when the charger state is bulk. *)
Theorem loop_switches_load_and_fan (m : machine) :
  let m' := exec loop m in
  (if batteryVolts m' >? 110
   then Load m' = "On"%string /\ last_level load (trace m') = Some LOW
   else Load m' = "Off"%string /\ last_level load (trace m') = Some HIGH)
  /\ last_level fan (trace m')
     = Some match mode_of_code (charger_state m') with
            | Some bulk => HIGH
            | _ => LOW
            end.
Proof. apply (loop_load_fan_agree m I). Qed.
End DeciVoltTelemetry.

(** ** The integer variant: acquisition *)

Lemma quot_scale_bounds total num den hi :
  0 <= total -> 0 < den -> 0 <= num ->
  (total ÷ 100 * num) <= hi * den + (den - 1) ->
  0 <= (total ÷ 100 * num) ÷ den <= hi.
Proof.
  intros Ht Hd Hn Hu.
  assert (0 <= total ÷ 100)
    by (rewrite Z.quot_div_nonneg by lia; apply Z.div_pos; lia).
  rewrite Z.quot_div_nonneg by nia.
  split; [apply Z.div_pos; nia |].
  apply Z.lt_succ_r. apply Z.div_lt_upper_bound; lia.
Qed.

Lemma sum_samples_steady adc pin start n c :
  (forall k, adc pin k = c) -> sum_samples adc pin start n = Z.of_nat n * c.
Proof.
  intro H. revert start. induction n as [|n IH]; intro start.
  - reflexivity.
  - change (sum_samples adc pin start (S n))
      with (adc pin start + sum_samples adc pin (S start) n).
    rewrite H, IH. lia.
Qed.

Section DeciVoltRanges.
Import DeciVolt.
Local Open Scope mppt_scope.

(** X7. Integer variant: with every sample of the 10-bit converter between
    0 and 1023, [read_data] leaves the panel voltage between 0 and 41.7 V
    and the battery voltage between 0 and 20.4 V (in deci-volts), no
    intermediate value wrapping; it takes exactly 200 samples and writes
    nothing. *)
Theorem read_data_ranges (m : machine) :
  (forall pin k, 0 <= adc m pin k <= 1023) ->
  0 <= panelVolts (exec read_data m) <= 417
  /\ 0 <= batteryVolts (exec read_data m) <= 204
  /\ adc_count (exec read_data m) = (adc_count m + 200)%nat
  /\ trace (exec read_data m) = trace m.
Proof.
  intro H. destruct (read_data_calibrated m H) as [-> ->].
  pose proof (sum_samples_bounds (adc m) panelMeter (adc_count m) 100 (H _))
    as Hp.
  pose proof (sum_samples_bounds (adc m) batteryMeter (adc_count m + 100) 100
                (H _)) as Hb.
  assert (Hq : forall t, 0 <= t <= 102300 -> 0 <= t ÷ 100 <= 1023).
  { intros t Ht. rewrite Z.quot_div_nonneg by lia.
    split; [apply Z.div_pos; lia | apply Z.div_le_upper_bound; lia]. }
  split; [apply quot_scale_bounds; try lia; specialize (Hq _ Hp); lia |].
  split; [apply quot_scale_bounds; try lia; specialize (Hq _ Hb); lia |].
  rewrite read_data_exec. cbv zeta. split; [simpl; lia | reflexivity].
Qed.

Lemma read_data_ranges_witness :
  let m := power_on (steady_adc 700 601) steady_clock in
  0 <= panelVolts (exec read_data m) <= 417
  /\ 0 <= batteryVolts (exec read_data m) <= 204
  /\ adc_count (exec read_data m) = (adc_count m + 200)%nat
  /\ trace (exec read_data m) = trace m.
Proof.
  apply (read_data_ranges (power_on (steady_adc 700 601) steady_clock)).
  intros pin k. unfold power_on, adc, steady_adc.
  destruct (pin =? A0); lia.
Defined.

(** X8. Integer variant: on steady inputs, the panel channel reading [p]
    and the battery channel reading [q] at every sample, [read_data] leaves
    [p * 488 / 1197] and [q * 488 / 2441]: the voltages are those of this
    tick alone, whatever the tick before left. *)
Theorem read_data_steady (m : machine) (p q : Z) :
  0 <= p <= 1023 -> 0 <= q <= 1023 ->
  (forall k, adc m panelMeter k = p) -> (forall k, adc m batteryMeter k = q) ->
  panelVolts (exec read_data m) = p * 488 / 1197
  /\ batteryVolts (exec read_data m) = q * 488 / 2441.
Proof.
  intros Hp Hq Ep Eq.
  rewrite read_data_exec. cbv zeta.
  cbn [panelVolts batteryVolts set_batteryVolts set_panelVolts].
  rewrite (sum_samples_steady _ _ _ _ p Ep), (sum_samples_steady _ _ _ _ q Eq).
  change (Z.of_nat 100) with 100.
  rewrite !scale_no_wrap by lia.
  rewrite (Z.mul_comm 100 p), (Z.mul_comm 100 q).
  rewrite !Z.quot_mul by lia.
  rewrite !Z.quot_div_nonneg by lia. split; reflexivity.
Qed.

Lemma read_data_steady_witness :
  let m := power_on (steady_adc 700 601) steady_clock in
  panelVolts (exec read_data m) = 700 * 488 / 1197
  /\ batteryVolts (exec read_data m) = 601 * 488 / 2441.
Proof.
  apply (read_data_steady (power_on (steady_adc 700 601) steady_clock) 700 601);
    [lia | lia | reflexivity | reflexivity].
Defined.
End DeciVoltRanges.

(** ** The integer variant: the timer and the recalibration of [CVM] *)

(** Unsigned subtraction recovers the time elapsed, also across the wrap of the
    32-bit counter. *)
Lemma to_ulong_elapsed t d :
  0 <= d < 2 ^ 32 -> to_ulong (to_ulong (t + d) - t) = d.
Proof.
  intros Hd. unfold to_ulong.
  rewrite Zminus_mod_idemp_l.
  replace (t + d - t) with d by lia. apply Z.mod_small. exact Hd.
Qed.

Section DeciVoltTimer.
Import DeciVolt.
Local Open Scope mppt_scope.

Ltac fields :=
  cbv beta iota delta [set_panelVolts set_batteryVolts set_Voc set_Vcvm
    set_pulseWidth set_pwm set_b set_stepAmount set_state set_LEDstate set_time
    set_time2 set_enable set_SOC set_Load set_charger_state set_adc
    set_adc_count set_clock set_clock_count set_trace
    panelVolts batteryVolts Voc Vcvm pulseWidth
    pwm b stepAmount state LEDstate time time2 enable SOC Load charger_state
    adc adc_count clock clock_count trace].

(** X9. Integer variant: with the timer running ([b = 0]) and the clock [d]
    milliseconds past the stamp [time], counted modulo 2^32, the first part of
    [CVM] reads the clock once and recalibrates ([update_Vcvm]) exactly when
    [d] is at least 15000: the interval is measured right across the wrap of
    the millisecond counter. *)
Theorem CVM_timer_elapsed (m : machine) (d : Z) :
  b m = 0 -> 0 <= d < 2 ^ 32 ->
  to_ulong (clock m (clock_count m)) = to_ulong (time m + d) ->
  exec CVM_timer m
  = if d >=? 15000
    then exec update_Vcvm (set_clock_count (S (clock_count m)) m)
    else set_clock_count (S (clock_count m)) m.
Proof.
  intros Hb Hd Hc. unfold CVM_timer. rewrite exec_bind.
  change (eval (gets (fun m0 => Z.to_nat (b m0))) m) with (Z.to_nat (b m)).
  rewrite Hb. change (Z.to_nat 0) with 0%nat.
  change (exec (gets (fun m0 => Z.to_nat (b m0))) m) with m.
  cbn [for_loop]. rewrite !exec_bind.
  change (exec (ret tt) m) with m.
  change (eval millis m) with (to_ulong (clock m (clock_count m))).
  change (exec millis m) with (set_clock_count (S (clock_count m)) m).
  rewrite exec_when.
  change (time (set_clock_count (S (clock_count m)) m)) with (time m).
  rewrite Hc, to_ulong_elapsed by exact Hd. reflexivity.
Qed.

(** X9 across the wrap: stamped 5000 ms before the counter wraps, read
    10000 ms after it. *)
Lemma CVM_timer_elapsed_witness :
  let m := set_b 0 (set_time (2 ^ 32 - 5000)
             (power_on (steady_adc 700 601) (fun _ => 10000))) in
  exec CVM_timer m
  = exec update_Vcvm (set_clock_count (S (clock_count m)) m).
Proof.
  apply (CVM_timer_elapsed
           (set_b 0 (set_time (2 ^ 32 - 5000)
              (power_on (steady_adc 700 601) (fun _ => 10000)))) 15000);
    [reflexivity | lia | reflexivity].
Defined.

Lemma update_Vcvm_exec m :
  exec update_Vcvm m
  = let p := sum_samples (adc m) panelMeter (adc_count m) 100 in
    let voc := to_long (to_long (to_long (to_long (0 + p) ÷ 100) * 488) ÷ 1197) in
    set_b 1
      (set_Vcvm (to_long (to_long (voc * 76) ÷ 100))
         (set_Voc voc
            (set_adc_count (adc_count m + 100)%nat
               (set_trace (trace m ++ [DigitalWrite shutDown LOW; Delay 10])
                  (set_enable "Off" m))))).
Proof.
  unfold update_Vcvm. rewrite !exec_bind.
  rewrite Voc_loop by reflexivity.
  destruct m.
  cbv beta iota delta [exec disable_charger digitalWrite delay emit bind modify
    fst snd].
  fields. rewrite <- app_assoc. reflexivity.
Qed.

(** X10. Integer variant: with every sample between 0 and 1023,
    [update_Vcvm] switches the converter off, waits 10 ms, takes 100 samples
    of the panel and leaves the open-circuit voltage [Voc] at most 41.7 V,
    the target [Vcvm] at 76 % of it, rounded down, and the timer armed
    ([b = 1]); it leaves the converter off and [pulseWidth] as it was. *)
Theorem update_Vcvm_effect (m : machine) :
  (forall pin k, 0 <= adc m pin k <= 1023) ->
  let m' := exec update_Vcvm m in
  Vcvm m' = Voc m' * 76 / 100
  /\ 0 <= Vcvm m' <= Voc m' /\ Voc m' <= 417
  /\ b m' = 1
  /\ enable m' = "Off"%string
  /\ trace m' = trace m ++ [DigitalWrite shutDown LOW; Delay 10]
  /\ adc_count m' = (adc_count m + 100)%nat
  /\ pulseWidth m' = pulseWidth m.
Proof.
  intro H. cbv zeta.
  pose proof (sum_samples_bounds (adc m) panelMeter (adc_count m) 100 (H _)) as Hs.
  rewrite update_Vcvm_exec. cbv zeta.
  cbn [Voc Vcvm b enable trace adc_count pulseWidth set_b set_Vcvm set_Voc
       set_adc_count set_trace set_enable].
  set (p := sum_samples (adc m) panelMeter (adc_count m) 100) in *.
  clearbody p.
  rewrite (scale_no_wrap p 1197) by lia.
  assert (Hq : 0 <= p ÷ 100 <= 1023).
  { rewrite Z.quot_div_nonneg by lia.
    split; [apply Z.div_pos; lia | apply Z.div_le_upper_bound; lia]. }
  assert (Hvoc : 0 <= (p ÷ 100 * 488) ÷ 1197 <= 417).
  { rewrite Z.quot_div_nonneg by lia.
    split; [apply Z.div_pos; lia |].
    apply Z.lt_succ_r, Z.div_lt_upper_bound; lia. }
  set (voc := (p ÷ 100 * 488) ÷ 1197) in *. clearbody voc.
  assert (Hc : 0 <= voc * 76 / 100 <= voc).
  { split; [apply Z.div_pos; lia | apply Z.div_le_upper_bound; lia]. }
  rewrite (to_long_small (voc * 76)) by lia.
  rewrite Z.quot_div_nonneg by lia.
  rewrite to_long_small by lia.
  split; [reflexivity |]. split; [lia |]. split; [lia |].
  repeat split.
Qed.

Lemma update_Vcvm_effect_witness :
  let m := power_on (steady_adc 700 601) steady_clock in
  let m' := exec update_Vcvm m in
  Vcvm m' = Voc m' * 76 / 100
  /\ 0 <= Vcvm m' <= Voc m' /\ Voc m' <= 417
  /\ b m' = 1
  /\ enable m' = "Off"%string
  /\ trace m' = trace m ++ [DigitalWrite shutDown LOW; Delay 10]
  /\ adc_count m' = (adc_count m + 100)%nat
  /\ pulseWidth m' = pulseWidth m.
Proof.
  apply (update_Vcvm_effect (power_on (steady_adc 700 601) steady_clock)).
  intros pin k. unfold power_on, adc, steady_adc.
  destruct (pin =? A0); lia.
Defined.

Lemma CVM_timer_trace m :
  exists pause,
    (pause = [] \/ pause = [DigitalWrite shutDown LOW; Delay 10])
    /\ trace (exec CVM_timer m) = trace m ++ pause.
Proof.
  assert (Hq : forall n, preserves trace
            (for_loop n
               (t <- millis ;;
                modify (set_time t) ;;
                modify (fun m => set_b (to_int (b m - 1)) m)))) by (intro; keep).
  unfold CVM_timer. rewrite !exec_bind, exec_when.
  match goal with
  | |- context [if ?c then _ else _] => destruct c
  end.
  - exists [DigitalWrite shutDown LOW; Delay 10]. split; [right; reflexivity |].
    rewrite update_Vcvm_exec. cbv zeta. cbn [trace set_b set_Vcvm set_Voc
      set_adc_count set_trace].
    f_equal.
    change (trace (set_enable "Off" (exec millis ?s))) with (trace s).
    apply Hq.
  - exists []. split; [left; reflexivity |]. rewrite app_nil_r.
    change (trace (exec millis ?s)) with (trace s).
    apply Hq.
Qed.

(** X11. Integer variant: in the bulk state [set_charger] always ends with
    the converter driven: after at most the recalibration pause (converter
    off, 10 ms) it writes the clamped duty cycle, enables the driver and
    lights the LED, in this order, and reports "On"; the duty cycle written
    is the [pulseWidth] it leaves, within 75..245. *)
Theorem bulk_leaves_converter_on (m : machine) :
  mode_of_code (charger_state m) = Some bulk ->
  let m' := exec set_charger m in
  exists pause,
    (pause = [] \/ pause = [DigitalWrite shutDown LOW; Delay 10])
    /\ trace m' = trace m ++ pause
                  ++ [PwmWrite driver (pulseWidth m');
                      DigitalWrite shutDown HIGH; DigitalWrite 13 HIGH]
    /\ 75 <= pulseWidth m' <= 245
    /\ enable m' = "On"%string.
Proof.
  intro Hs. cbv zeta. unfold set_charger. rewrite exec_bind.
  change (eval (gets charger_state) m) with (charger_state m).
  rewrite Hs. rewrite !exec_bind.
  change (exec (gets charger_state) m) with m.
  set (m1 := exec (modify (set_SOC "Bulk")) m).
  assert (E1 : trace m1 = trace m) by reflexivity.
  rewrite CVM_parts.
  destruct (CVM_timer_trace m1) as (pause & Hp & Et).
  assert (Ea : preserves trace CVM_adjust) by (unfold CVM_adjust; keep).
  set (m2 := exec CVM_adjust (exec CVM_timer m1)) in *.
  assert (E2 : trace m2 = trace m ++ pause).
  { unfold m2. rewrite Ea, Et, E1. reflexivity. }
  clearbody m2.
  exists pause. split; [exact Hp |].
  set (m3 := exec run_charger m2).
  assert (E3 : trace m3 = trace m2 ++ [PwmWrite driver (pulseWidth m3);
                                       DigitalWrite shutDown HIGH]).
  { unfold m3. rewrite run_charger_trace, run_charger_pulseWidth. reflexivity. }
  assert (B3 : 75 <= pulseWidth m3 <= 245).
  { unfold m3. rewrite run_charger_pulseWidth. apply constrain_range. lia. }
  assert (O3 : enable m3 = "On"%string) by reflexivity.
  clearbody m3. destruct m3.
  cbv beta iota delta [exec digitalWrite emit modify snd].
  cbn [trace pulseWidth enable set_state set_trace] in *.
  rewrite E3, E2. change (to_uint8 HIGH) with HIGH.
  rewrite <- !app_assoc. cbn [app].
  split; [reflexivity |]. split; [exact B3 | exact O3].
Qed.

Lemma bulk_leaves_converter_on_witness :
  let m := set_charger_state (mode_code bulk)
             (power_on (steady_adc 700 601) steady_clock) in
  let m' := exec set_charger m in
  exists pause,
    (pause = [] \/ pause = [DigitalWrite shutDown LOW; Delay 10])
    /\ trace m' = trace m ++ pause
                  ++ [PwmWrite driver (pulseWidth m');
                      DigitalWrite shutDown HIGH; DigitalWrite 13 HIGH]
    /\ 75 <= pulseWidth m' <= 245
    /\ enable m' = "On"%string.
Proof.
  apply (bulk_leaves_converter_on
           (set_charger_state (mode_code bulk)
              (power_on (steady_adc 700 601) steady_clock))).
  reflexivity.
Defined.
End DeciVoltTimer.

(** ** The integer variant: one whole tick *)

Section DeciVoltTick2.
Import DeciVolt.
Local Open Scope mppt_scope.

Lemma delayed_emit_delay ms : delayed trace ms ms (emit (Delay ms)).
Proof.
  intro s. exists [Delay ms]. split; [reflexivity | simpl; lia].
Qed.

Lemma delayed_emit_other e : delay_total [e] = 0 -> delayed trace 0 0 (emit e).
Proof.
  intros H s. exists [e]. split; [reflexivity | lia].
Qed.

Ltac emits :=
  idtac;
  lazymatch goal with
  | |- delayed _ _ _ (emit (Delay _)) => apply delayed_emit_delay
  | |- delayed _ _ _ (emit _) => apply delayed_emit_other; reflexivity
  end.

Lemma set_charger_delayed m :
  exists evs,
    trace (exec set_charger m) = trace m ++ evs
    /\ match mode_of_code (charger_state m) with
       | Some bulk => 0 <= delay_total evs <= 10
       | _ => delay_total evs = 0
       end.
Proof.
  unfold set_charger. rewrite exec_bind.
  change (eval (gets charger_state) m) with (charger_state m).
  change (exec (gets charger_state) m) with m.
  assert (Hz : forall c : M unit, delayed trace 0 0 c ->
            exists evs, trace (exec c m) = trace m ++ evs /\ delay_total evs = 0).
  { intros c Hc. destruct (Hc m) as (evs & E & Hd).
    exists evs. split; [exact E | lia]. }
  destruct (mode_of_code (charger_state m)) as [[]|].
  - apply Hz.
    unfold disable_charger, error_blink, digitalWrite.
    eapply delayed_weaken; [waits emits | simpl; lia ..].
  - apply Hz.
    unfold disable_charger, sleep_blink, digitalWrite.
    eapply delayed_weaken; [waits emits | simpl; lia ..].
  - assert (Hc : delayed trace 0 10
              (modify (set_SOC "Bulk") ;; CVM ;; run_charger ;;
               digitalWrite 13 HIGH ;; modify (set_state 2))).
    { unfold CVM, CVM_timer, CVM_adjust, update_Vcvm, run_charger,
        disable_charger, pwmWrite, digitalWrite, delay.
      eapply delayed_weaken; [waits emits | simpl; lia ..]. }
    destruct (Hc m) as (evs & E & Hd). exists evs. split; assumption.
  - apply Hz.
    unfold run_charger, disable_charger, pwmWrite, digitalWrite.
    eapply delayed_weaken; [waits emits | simpl; lia ..].
  - apply Hz.
    unfold disable_charger, error_blink, digitalWrite.
    eapply delayed_weaken; [waits emits | simpl; lia ..].
  - apply Hz.
    unfold disable_charger, error_blink, digitalWrite.
    eapply delayed_weaken; [waits emits | simpl; lia ..].
Qed.

(** X12. Integer variant: one pass of [loop()] only appends to the outputs
    and never blocks in [delay], but for the 10 ms recalibration pause that a
    tick in the bulk state may take. *)
Theorem loop_delay (m : machine) :
  exists evs,
    trace (exec loop m) = trace m ++ evs
    /\ match mode_of_code (charger_state (exec loop m)) with
       | Some bulk => 0 <= delay_total evs <= 10
       | _ => delay_total evs = 0
       end.
Proof.
  assert (Hr : preserves trace read_data) by (unfold read_data; keep).
  assert (Hm : preserves trace mode_select) by (unfold mode_select; keep).
  assert (Ho : delayed trace 0 0 (run_load ;; run_fan ;; print_data)).
  { unfold run_load, run_fan, print_data, digitalWrite.
    eapply delayed_weaken; [waits emits | simpl; lia ..]. }
  rewrite loop_stages, outputs_keep_state, set_charger_keeps_state.
  set (m2 := exec mode_select (exec read_data m)).
  assert (E2 : trace m2 = trace m) by (unfold m2; rewrite Hm; apply Hr).
  destruct (set_charger_delayed m2) as (evs & E & Hd).
  destruct (Ho (exec set_charger m2)) as (outs & Eo & Hz).
  exists (evs ++ outs). rewrite delay_total_app.
  split; [rewrite Eo, E, E2, app_assoc; reflexivity |].
  destruct (mode_of_code (charger_state m2)) as [[]|]; lia.
Qed.

(** X13. Integer variant: a tick whose battery reading is below 10.0 V ends
    in the no_battery state and one whose reading is above 15.0 V in the
    error state; either way the converter is left switched off and reported
    "Off", and [pulseWidth] is as before the tick. Without battery the load
    is disconnected; above 15.0 V it stays connected. *)
Lemma mode_select_fault s :
  batteryVolts s < 100 \/ 150 < batteryVolts s ->
  charger_state (exec mode_select s)
  = mode_code (if batteryVolts s <? 100 then no_battery else error).
Proof.
  intro Hb. destruct s.
  cbv beta iota delta [exec mode_select ifM when modify ret snd
    set_charger_state panelVolts batteryVolts charger_state Vmax] in *.
  rewrite Z.gtb_ltb.
  destruct (Z.ltb_spec batteryVolts0 100); [reflexivity |].
  destruct (Z.ltb_spec 150 batteryVolts0); [reflexivity | lia].
Qed.

Lemma set_charger_fault s :
  mode_of_code (charger_state s) = Some no_battery
  \/ mode_of_code (charger_state s) = Some error ->
  enable (exec set_charger s) = "Off"%string
  /\ pulseWidth (exec set_charger s) = pulseWidth s.
Proof.
  intros Hc. unfold set_charger. rewrite exec_bind.
  change (eval (gets charger_state) s) with (charger_state s).
  change (exec (gets charger_state) s) with s.
  assert (Hk : forall rest : M unit, preserves enable rest ->
            preserves pulseWidth rest ->
            enable (exec (disable_charger ;; rest) s) = "Off"%string
            /\ pulseWidth (exec (disable_charger ;; rest) s) = pulseWidth s).
  { intros rest He Hp. rewrite exec_bind, He, Hp. split; reflexivity. }
  destruct Hc as [-> | ->]; apply Hk;
    unfold error_blink, digitalWrite, emit; keep.
Qed.

Lemma later_stages_keep_batteryVolts :
  preserves batteryVolts
    (mode_select ;; set_charger ;; run_load ;; run_fan ;; print_data).
Proof.
  unfold mode_select, set_charger, CVM, CVM_timer, CVM_adjust, update_Vcvm,
    run_charger, disable_charger, error_blink, sleep_blink, run_load,
    run_fan, print_data, pwmWrite, digitalWrite, delay, emit.
  keep.
Qed.

Lemma outputs_keep_enable : preserves enable (run_load ;; run_fan ;; print_data).
Proof. unfold run_load, run_fan, print_data, digitalWrite, emit. keep. Qed.

Theorem fault_tick_switches_off (m : machine) :
  let bv := batteryVolts (exec read_data m) in
  bv < 100 \/ 150 < bv ->
  let m' := exec loop m in
  charger_state m' = mode_code (if bv <? 100 then no_battery else error)
  /\ enable m' = "Off"%string
  /\ last_level shutDown (trace m') = Some LOW
  /\ pulseWidth m' = pulseWidth m
  /\ Load m' = (if bv <? 100 then "Off"%string else "On"%string)
  /\ last_level load (trace m') = Some (if bv <? 100 then HIGH else LOW).
Proof.
  cbv zeta. intro Hb.
  pose proof (loop_driver_agrees m I) as Hd.
  pose proof (loop_load_fan_agree m I) as [Hl _].
  cbv beta zeta in Hd, Hl.
  assert (Hbv : batteryVolts (exec loop m) = batteryVolts (exec read_data m)).
  { unfold loop. rewrite exec_bind. apply later_stages_keep_batteryVolts. }
  rewrite Hbv in Hl.
  assert (Hst : charger_state (exec loop m)
                = charger_state (exec mode_select (exec read_data m))).
  { rewrite loop_stages, outputs_keep_state, set_charger_keeps_state.
    reflexivity. }
  pose proof (mode_select_fault (exec read_data m) Hb) as Hs.
  assert (He : enable (exec loop m) = "Off"%string
               /\ pulseWidth (exec loop m) = pulseWidth m).
  { rewrite loop_stages, outputs_keep_enable, outputs_keep_pulseWidth.
    destruct (set_charger_fault (exec mode_select (exec read_data m)))
      as [H1 H2].
    { rewrite Hs.
      destruct (batteryVolts (exec read_data m) <? 100);
        [left | right]; reflexivity. }
    rewrite H1, H2. split; [reflexivity |]. apply inputs_keep_pulseWidth. }
  destruct He as [He Hp].
  rewrite Hst. clear Hst Hbv.
  generalize dependent (exec loop m). intros m' Hd Hl He Hp.
  generalize dependent (exec read_data m). intros m1 Hb Hs Hl.
  split; [exact Hs |].
  split; [exact He |].
  split; [destruct Hd as [[Hon _] | [_ Hlow]]; [congruence | exact Hlow] |].
  split; [exact Hp |].
  rewrite Z.gtb_ltb in Hl. unfold lowBatt in Hl.
  destruct (Z.ltb_spec (batteryVolts m1) 100) as [Hlt | Hge].
  - destruct (Z.ltb_spec 110 (batteryVolts m1)); [lia | exact Hl].
  - destruct (Z.ltb_spec 110 (batteryVolts m1)); [exact Hl | lia].
Qed.

Lemma fault_tick_switches_off_witness :
  let m := power_on (steady_adc 700 0) steady_clock in
  let bv := batteryVolts (exec read_data m) in
  let m' := exec loop m in
  charger_state m' = mode_code (if bv <? 100 then no_battery else error)
  /\ enable m' = "Off"%string
  /\ last_level shutDown (trace m') = Some LOW
  /\ pulseWidth m' = pulseWidth m
  /\ Load m' = (if bv <? 100 then "Off"%string else "On"%string)
  /\ last_level load (trace m') = Some (if bv <? 100 then HIGH else LOW).
Proof.
  apply (fault_tick_switches_off (power_on (steady_adc 700 0) steady_clock)).
  left. vm_compute. reflexivity.
Defined.
End DeciVoltTick2.

(** ** The floating-point variant: what every tick keeps *)

(** The order of [float] is antisymmetric: at or above excludes below. *)
Lemma fge_not_flt x y : fge x y = true -> flt x y = false.
Proof.
  unfold fge, flt, SFleb, SFltb.
  assert (H : forall c, SFcompare y x = Some c -> SFcompare x y = Some (CompOpp c)).
  { destruct x as [sx|sx| |sx mx ex], y as [sy|sy| |sy my ey];
      try destruct sx; try destruct sy; simpl; intros c Hc;
      try discriminate; try (injection Hc as <-; reflexivity).
    - injection Hc as <-. rewrite (Z.compare_antisym ey ex).
      destruct (ey ?= ex); simpl; try reflexivity.
      rewrite (Pos.compare_cont_antisym my mx Eq). reflexivity.
    - injection Hc as <-. rewrite (Z.compare_antisym ey ex).
      destruct (ey ?= ex); simpl; try reflexivity.
      rewrite (Pos.compare_cont_antisym my mx Eq). reflexivity. }
  destruct (SFcompare y x) as [c|]; [| discriminate].
  rewrite (H c eq_refl). destruct c; simpl; intro; congruence.
Qed.

Section FloatVoltInvariants.
Import FloatVolt.
Local Open Scope mppt_scope.

Ltac ffields :=
  cbv beta iota delta [set_panelVolts set_batteryVolts set_Voc set_Vcvm
    set_pulseWidth set_pwm set_b set_stepAmount set_time
    set_enable set_SOC set_Load set_charger_state set_adc
    set_adc_count set_clock set_clock_count set_trace
    panelVolts batteryVolts Voc Vcvm pulseWidth
    pwm b stepAmount time enable SOC Load charger_state
    adc adc_count clock clock_count trace].

Let duty_in_bounds (m : machine) : Prop := 100 <= pulseWidth m <= 245.
Let valid_state (m : machine) : Prop := mode_of_code (charger_state m) <> None.

Lemma float_run_charger_establishes_duty P : hoare P run_charger duty_in_bounds.
Proof.
  intros m _. unfold duty_in_bounds. rewrite float_run_charger_pulseWidth.
  apply constrain_range. lia.
Qed.

Lemma float_keeps_duty {A} (c : M A) :
  preserves pulseWidth c -> hoare duty_in_bounds c duty_in_bounds.
Proof. apply (hoare_preserves pulseWidth (fun v => 100 <= v <= 245)). Qed.

Lemma float_set_charger_keeps_duty :
  hoare duty_in_bounds set_charger duty_in_bounds.
Proof.
  unfold set_charger.
  apply (hoare_bind _ duty_in_bounds); [apply hoare_gets | intro cs].
  destruct (mode_of_code cs) as [[]|].
  - apply float_keeps_duty.
    unfold disable_charger, error_blink, digitalWrite, delay, emit. keep.
  - apply float_keeps_duty.
    unfold disable_charger, sleep_blink, digitalWrite, delay, emit. keep.
  - apply (hoare_bind _ (fun _ => True)); [apply hoare_any | intros _].
    apply (hoare_bind _ (fun _ => True)); [apply hoare_any | intros _].
    apply (hoare_bind _ duty_in_bounds);
      [apply float_run_charger_establishes_duty | intros _].
    apply float_keeps_duty. unfold digitalWrite, emit. keep.
  - apply (hoare_bind _ (fun _ => True)); [apply hoare_any | intros _].
    apply (hoare_bind _ duty_in_bounds);
      [intros m _; unfold duty_in_bounds; simpl; lia | intros _].
    apply (hoare_bind _ duty_in_bounds).
    + apply hoare_branch; [apply float_run_charger_establishes_duty |].
      apply float_keeps_duty. unfold disable_charger, digitalWrite, emit. keep.
    + intros _. apply float_keeps_duty. unfold digitalWrite, emit. keep.
  - apply float_keeps_duty.
    unfold disable_charger, error_blink, digitalWrite, delay, emit. keep.
  - apply float_keeps_duty.
    unfold disable_charger, error_blink, digitalWrite, delay, emit. keep.
Qed.

Lemma float_loop_keeps_duty : hoare duty_in_bounds loop duty_in_bounds.
Proof.
  unfold loop.
  apply (hoare_bind _ duty_in_bounds);
    [apply float_keeps_duty; unfold read_data, delay, emit; keep | intros _].
  apply (hoare_bind _ duty_in_bounds);
    [apply float_keeps_duty; unfold mode_select; keep | intros _].
  apply (hoare_bind _ duty_in_bounds);
    [apply float_set_charger_keeps_duty | intros _].
  apply float_keeps_duty. apply float_outputs_keep_pulseWidth.
Qed.

(** X14. Floating-point variant: when [pulseWidth] is within 100..245, it is
    within 100..245 again after any number of passes of [loop()], whatever
    the inputs read. *)
Theorem float_ticks_keep_duty (n : nat) (m : machine) :
  100 <= pulseWidth m <= 245 ->
  100 <= pulseWidth (exec (ticks n) m) <= 245.
Proof.
  apply (hoare_for_loop duty_in_bounds n loop float_loop_keeps_duty m).
Qed.

Lemma float_ticks_keep_duty_witness :
  100 <= pulseWidth (exec (ticks 3) (power_on (steady_adc 700 601) steady_clock))
  <= 245.
Proof.
  apply (float_ticks_keep_duty 3 (power_on (steady_adc 700 601) steady_clock)).
  simpl. lia.
Defined.

Lemma float_mode_select_keeps_valid : hoare valid_state mode_select valid_state.
Proof.
  unfold mode_select.
  repeat first
    [ apply hoare_branch
    | apply hoare_when
    | apply hoare_ret
    | apply hoare_modify; intros s _; unfold valid_state; simpl; discriminate ].
Qed.

Lemma float_keeps_valid {A} (c : M A) :
  preserves charger_state c -> hoare valid_state c valid_state.
Proof.
  apply (hoare_preserves charger_state (fun z => mode_of_code z <> None)).
Qed.

Lemma float_loop_keeps_valid : hoare valid_state loop valid_state.
Proof.
  unfold loop.
  apply (hoare_bind _ valid_state);
    [apply float_keeps_valid; unfold read_data, delay, emit; keep | intros _].
  apply (hoare_bind _ valid_state);
    [apply float_mode_select_keeps_valid | intros _].
  apply (hoare_bind _ valid_state);
    [apply float_keeps_valid, float_set_charger_keeps_state | intros _].
  apply float_keeps_valid, float_outputs_keep_state.
Qed.

Lemma float_set_charger_label m c :
  mode_of_code (charger_state m) = Some c ->
  SOC (exec set_charger m)
  = match c with
    | no_battery => "No Battery!" | sleep => "Sleep" | bulk => "Bulk"
    | Float => "Float" | error => "Error"
    end%string.
Proof.
  intro H. unfold set_charger. rewrite exec_bind.
  change (eval (gets charger_state) m) with (charger_state m).
  rewrite H.
  assert (K : forall (s : string) (rest : M unit) m0, preserves SOC rest ->
             SOC (exec (modify (set_SOC s) ;; rest) m0) = s).
  { intros s rest m0 Hr. rewrite exec_bind, Hr. reflexivity. }
  destruct c.
  - reflexivity.
  - rewrite exec_bind. apply K.
    unfold sleep_blink, digitalWrite, delay, emit. keep.
  - apply K.
    unfold CVM, CVM_timer, CVM_guard, CVM_adjust, update_Vcvm, run_charger,
      disable_charger, pwmWrite, digitalWrite, delay, emit. keep.
  - apply K.
    unfold run_charger, disable_charger, pwmWrite, digitalWrite, emit. keep.
  - reflexivity.
Qed.

Lemma float_outputs_keep_SOC : preserves SOC (run_load ;; print_data).
Proof. unfold run_load, print_data, digitalWrite, emit. keep. Qed.

(** X15. Floating-point variant: when [charger_state] holds one of the five
    enumerators, then after any positive number of passes of [loop()] it
    holds one of the five again and the label [SOC] that [print_data]
    reports is the name of that state: the [default] branch of
    [set_charger] and its label are never reached. *)
Theorem float_ticks_keep_state_named (n : nat) (m : machine) :
  mode_of_code (charger_state m) <> None ->
  let m' := exec (ticks (Datatypes.S n)) m in
  exists c,
    mode_of_code (charger_state m') = Some c
    /\ SOC m' = match c with
                | no_battery => "No Battery!" | sleep => "Sleep"
                | bulk => "Bulk" | Float => "Float" | error => "Error"
                end%string.
Proof.
  intros Hv. cbv zeta. unfold ticks. rewrite exec_for_loop_last.
  pose proof (hoare_for_loop valid_state n loop float_loop_keeps_valid m Hv)
    as Hn.
  set (m0 := exec (for_loop n loop) m) in *.
  pose proof (float_loop_keeps_valid m0 Hn) as H1. unfold valid_state in H1.
  destruct (mode_of_code (charger_state (exec loop m0))) as [c|] eqn:Ec;
    [| congruence].
  exists c. split; [reflexivity |].
  rewrite float_loop_stages, float_outputs_keep_state,
    float_set_charger_keeps_state in Ec.
  rewrite float_loop_stages, float_outputs_keep_SOC.
  apply float_set_charger_label, Ec.
Qed.

Lemma float_ticks_keep_state_named_witness :
  let m' := exec (ticks 2) (power_on (steady_adc 700 601) steady_clock) in
  exists c,
    mode_of_code (charger_state m') = Some c
    /\ SOC m' = match c with
                | no_battery => "No Battery!" | sleep => "Sleep"
                | bulk => "Bulk" | Float => "Float" | error => "Error"
                end%string.
Proof.
  apply (float_ticks_keep_state_named 1
           (power_on (steady_adc 700 601) steady_clock)).
  simpl. discriminate.
Defined.

(** X16. Floating-point variant: on readings that the decision order
    classifies as Float (battery at or above 13.6 V), [mode_select] then
    [set_charger] end in the float state with [pulseWidth] at 245 and the
    converter switched off: the branch of the float state that drives the
    converter is not taken on the readings that enter the state. *)
Theorem float_state_entry_disables (m : machine) :
  classify (panelVolts m) (batteryVolts m) = Some Float ->
  let m' := exec set_charger (exec mode_select m) in
  charger_state m' = mode_code Float
  /\ pulseWidth m' = 245
  /\ enable m' = "Off"%string
  /\ trace m' = trace m ++ [DigitalWrite shutDown LOW; DigitalWrite 13 LOW].
Proof.
  intro Hc. cbv zeta.
  assert (Hge : flt (batteryVolts m) Vfloat = false).
  { apply fge_not_flt. revert Hc. unfold classify.
    repeat match goal with
           | |- context [if ?c then _ else _] => destruct c eqn:?
           end; try discriminate.
    intros _. reflexivity. }
  assert (E : exec mode_select m = set_charger_state (mode_code Float) m).
  { rewrite float_mode_select_exec, float_mode_select_classify, Hc. reflexivity. }
  rewrite E. destruct m.
  cbv beta iota delta [exec set_charger bind gets modify ifM run_charger
    disable_charger pwmWrite digitalWrite emit fst snd mode_code mode_of_code].
  ffields. cbn [batteryVolts] in Hge. rewrite Hge. ffields.
  change (to_uint8 LOW) with LOW.
  rewrite <- !app_assoc. cbn [app]. repeat split.
Qed.

Lemma float_state_entry_disables_witness :
  let m := set_panelVolts (of_int 18) (set_batteryVolts (of_int 14)
             (power_on (steady_adc 0 0) steady_clock)) in
  let m' := exec set_charger (exec mode_select m) in
  charger_state m' = mode_code Float
  /\ pulseWidth m' = 245
  /\ enable m' = "Off"%string
  /\ trace m' = trace m ++ [DigitalWrite shutDown LOW; DigitalWrite 13 LOW].
Proof.
  apply (float_state_entry_disables
           (set_panelVolts (of_int 18) (set_batteryVolts (of_int 14)
              (power_on (steady_adc 0 0) steady_clock)))).
  vm_compute. reflexivity.
Defined.
End FloatVoltInvariants.

(** ** The floating-point variant: one whole tick *)

Section FloatVoltTick2.
Import FloatVolt.
Local Open Scope mppt_scope.

Let driver_agrees (m : machine) : Prop :=
  (enable m = "On"%string /\ last_level shutDown (trace m) = Some HIGH)
  \/ (enable m = "Off"%string /\ last_level shutDown (trace m) = Some LOW).

Let load_agrees (m : machine) : Prop :=
  if fgt (batteryVolts m) (of_int 11)
  then Load m = "On"%string /\ last_level load (trace m) = Some LOW
  else Load m = "Off"%string /\ last_level load (trace m) = Some HIGH.

Ltac fagree_leaf :=
  intros s Hs; unfold driver_agrees, load_agrees in *;
  cbv beta iota delta [exec emit modify analogRead millis snd fst];
  cbn [enable Load trace batteryVolts charger_state
    set_panelVolts set_batteryVolts set_Voc set_Vcvm
    set_pulseWidth set_pwm set_b set_stepAmount set_time
    set_SOC set_Load set_enable set_charger_state
    set_adc_count set_clock_count set_trace];
  rewrite ?last_level_snoc; exact Hs.

Lemma float_run_charger_agrees P : hoare P run_charger driver_agrees.
Proof.
  intros s _. left. split; [reflexivity |].
  rewrite float_run_charger_trace.
  match goal with
  | |- context [?t ++ [?x; ?y]] =>
      replace (t ++ [x; y]) with ((t ++ [x]) ++ [y])
        by (rewrite <- app_assoc; reflexivity)
  end.
  rewrite last_level_snoc. reflexivity.
Qed.

Lemma float_disable_charger_agrees P : hoare P disable_charger driver_agrees.
Proof.
  intros s _. right. split; [reflexivity |].
  unfold disable_charger, digitalWrite, emit, exec, bind, modify. simpl.
  rewrite last_level_snoc. reflexivity.
Qed.

Lemma float_error_blink_agrees : hoare driver_agrees error_blink driver_agrees.
Proof. unfold error_blink, digitalWrite, delay. maintain fagree_leaf. Qed.

Lemma float_sleep_blink_agrees : hoare driver_agrees sleep_blink driver_agrees.
Proof. unfold sleep_blink, digitalWrite, delay. maintain fagree_leaf. Qed.

Lemma float_set_charger_agrees P : hoare P set_charger driver_agrees.
Proof.
  unfold set_charger.
  apply (hoare_bind _ (fun _ => True)); [apply hoare_any | intro cs].
  destruct (mode_of_code cs) as [[]|].
  - apply (hoare_bind _ driver_agrees);
      [apply float_disable_charger_agrees | intros _].
    apply (hoare_bind _ driver_agrees);
      [apply float_error_blink_agrees | intros _].
    maintain fagree_leaf.
  - apply (hoare_bind _ driver_agrees);
      [apply float_disable_charger_agrees | intros _].
    apply (hoare_bind _ driver_agrees); [maintain fagree_leaf | intros _].
    apply float_sleep_blink_agrees.
  - apply (hoare_bind _ (fun _ => True)); [apply hoare_any | intros _].
    apply (hoare_bind _ (fun _ => True)); [apply hoare_any | intros _].
    apply (hoare_bind _ driver_agrees);
      [apply float_run_charger_agrees | intros _].
    unfold digitalWrite. maintain fagree_leaf.
  - apply (hoare_bind _ (fun _ => True)); [apply hoare_any | intros _].
    apply (hoare_bind _ (fun _ => True)); [apply hoare_any | intros _].
    apply (hoare_bind _ driver_agrees).
    + apply hoare_branch;
        [apply float_run_charger_agrees | apply float_disable_charger_agrees].
    + intros _. unfold digitalWrite. maintain fagree_leaf.
  - apply (hoare_bind _ driver_agrees);
      [apply float_disable_charger_agrees | intros _].
    apply (hoare_bind _ driver_agrees);
      [apply float_error_blink_agrees | intros _].
    maintain fagree_leaf.
  - apply (hoare_bind _ driver_agrees);
      [apply float_disable_charger_agrees | intros _].
    apply (hoare_bind _ driver_agrees);
      [apply float_error_blink_agrees | intros _].
    maintain fagree_leaf.
Qed.

Lemma float_run_load_agrees P : hoare P run_load load_agrees.
Proof.
  intros s _. destruct s. unfold load_agrees, run_load.
  cbv beta iota delta [exec ifM bind digitalWrite emit modify fst snd].
  cbn [batteryVolts].
  change (of_int lowBatt) with (of_int 11).
  destruct (fgt batteryVolts0 (of_int 11)) eqn:Hb;
    cbn [batteryVolts Load trace set_Load set_trace]; rewrite Hb;
    (split; [reflexivity |]); rewrite last_level_snoc; reflexivity.
Qed.

Lemma float_loop_agrees :
  hoare (fun _ => True) loop (fun m => driver_agrees m /\ load_agrees m).
Proof.
  unfold loop.
  apply (hoare_bind _ (fun _ => True)); [apply hoare_any | intros _].
  apply (hoare_bind _ (fun _ => True)); [apply hoare_any | intros _].
  apply (hoare_bind _ driver_agrees); [apply float_set_charger_agrees | intros _].
  apply (hoare_bind _ (fun m => driver_agrees m /\ load_agrees m)).
  - intros s Hs. split; [| apply (float_run_load_agrees (fun _ => True) s I)].
    revert s Hs. change (hoare driver_agrees run_load driver_agrees).
    unfold run_load, digitalWrite. maintain fagree_leaf.
  - intros _. intros s [H1 H2]. split; revert s H1 H2.
    + intros s H1 _. revert s H1.
      change (hoare driver_agrees print_data driver_agrees).
      unfold print_data. maintain fagree_leaf.
    + intros s _ H2. revert s H2.
      change (hoare load_agrees print_data load_agrees).
      unfold print_data. maintain fagree_leaf.
Qed.

(** X17. Floating-point variant: at the end of every pass of [loop()] the
    text [enable] that [print_data] reports agrees with the last level
    written to the driver-enable pin, and the load is connected (pin [load]
    low, [Load] reported "On") exactly when the battery voltage of this tick
    is above 11 V. *)
Theorem float_loop_reports_outputs (m : machine) :
  let m' := exec loop m in
  ((enable m' = "On"%string /\ last_level shutDown (trace m') = Some HIGH)
   \/ (enable m' = "Off"%string /\ last_level shutDown (trace m') = Some LOW))
  /\ (if fgt (batteryVolts m') (of_int 11)
      then Load m' = "On"%string /\ last_level load (trace m') = Some LOW
      else Load m' = "Off"%string /\ last_level load (trace m') = Some HIGH).
Proof. apply (float_loop_agrees m I). Qed.

Lemma float_delayed_emit_delay ms : delayed trace ms ms (emit (Delay ms)).
Proof.
  intro s. exists [Delay ms]. split; [reflexivity | simpl; lia].
Qed.

Lemma float_delayed_emit_other e :
  delay_total [e] = 0 -> delayed trace 0 0 (emit e).
Proof.
  intros H s. exists [e]. split; [reflexivity | lia].
Qed.

Ltac femits :=
  idtac;
  lazymatch goal with
  | |- delayed _ _ _ (emit (Delay _)) => apply float_delayed_emit_delay
  | |- delayed _ _ _ (emit _) => apply float_delayed_emit_other; reflexivity
  end.

Lemma float_set_charger_delayed m :
  exists evs,
    trace (exec set_charger m) = trace m ++ evs
    /\ match mode_of_code (charger_state m) with
       | Some sleep => delay_total evs = 4000
       | Some bulk => 0 <= delay_total evs <= 200
       | Some Float => delay_total evs = 0
       | _ => delay_total evs = 800
       end.
Proof.
  unfold set_charger. rewrite exec_bind.
  change (eval (gets charger_state) m) with (charger_state m).
  change (exec (gets charger_state) m) with m.
  assert (Hz : forall k (c : M unit), delayed trace k k c ->
            exists evs, trace (exec c m) = trace m ++ evs /\ delay_total evs = k).
  { intros k c Hc. destruct (Hc m) as (evs & E & Hd).
    exists evs. split; [exact E | lia]. }
  destruct (mode_of_code (charger_state m)) as [[]|].
  - apply Hz.
    unfold disable_charger, error_blink, digitalWrite, delay.
    eapply delayed_weaken; [waits femits | simpl; lia ..].
  - apply Hz.
    unfold disable_charger, sleep_blink, digitalWrite, delay.
    eapply delayed_weaken; [waits femits | simpl; lia ..].
  - assert (Hc : delayed trace 0 200
              (modify (set_SOC "Bulk") ;; CVM ;; run_charger ;;
               digitalWrite 13 HIGH)).
    { unfold CVM, CVM_timer, CVM_guard, CVM_adjust, update_Vcvm, run_charger,
        disable_charger, pwmWrite, digitalWrite, delay.
      eapply delayed_weaken; [waits femits | simpl; lia ..]. }
    destruct (Hc m) as (evs & E & Hd). exists evs. split; assumption.
  - apply Hz.
    unfold run_charger, disable_charger, pwmWrite, digitalWrite.
    eapply delayed_weaken; [waits femits | simpl; lia ..].
  - apply Hz.
    unfold disable_charger, error_blink, digitalWrite, delay.
    eapply delayed_weaken; [waits femits | simpl; lia ..].
  - apply Hz.
    unfold disable_charger, error_blink, digitalWrite, delay.
    eapply delayed_weaken; [waits femits | simpl; lia ..].
Qed.

(** X18. Floating-point variant: one pass of [loop()] only appends to the
    outputs, and the time it blocks in [delay] is decided by the state it
    ends in: 4.2 s in the sleep state, 1 s in the no_battery and error
    states, 0.2 s in the float state, and from 0.2 s to 0.4 s in the bulk
    state; the inputs are read, and the load switched, no more often than
    that. *)
Theorem float_loop_delay (m : machine) :
  exists evs,
    trace (exec loop m) = trace m ++ evs
    /\ match mode_of_code (charger_state (exec loop m)) with
       | Some sleep => delay_total evs = 4200
       | Some bulk => 200 <= delay_total evs <= 400
       | Some Float => delay_total evs = 200
       | _ => delay_total evs = 1000
       end.
Proof.
  assert (Hr : delayed trace 200 200 read_data).
  { unfold read_data, delay.
    eapply delayed_weaken; [waits femits | simpl; lia ..]. }
  assert (Hm : preserves trace mode_select) by (unfold mode_select; keep).
  assert (Ho : delayed trace 0 0 (run_load ;; print_data)).
  { unfold run_load, print_data, digitalWrite.
    eapply delayed_weaken; [waits femits | simpl; lia ..]. }
  rewrite float_loop_stages, float_outputs_keep_state,
    float_set_charger_keeps_state.
  destruct (Hr m) as (ins & Ei & Hi).
  set (m2 := exec mode_select (exec read_data m)).
  assert (E2 : trace m2 = trace m ++ ins) by (unfold m2; rewrite Hm; exact Ei).
  destruct (float_set_charger_delayed m2) as (evs & E & Hd).
  destruct (Ho (exec set_charger m2)) as (outs & Eo & Hz).
  exists (ins ++ evs ++ outs). rewrite !delay_total_app.
  split; [rewrite Eo, E, E2, <- !app_assoc; reflexivity |].
  destruct (mode_of_code (charger_state m2)) as [[]|]; lia.
Qed.
End FloatVoltTick2.

(** ** The floating-point variant: the bulk state and the blink routines *)

Section FloatVoltBulk.
Import FloatVolt.
Local Open Scope mppt_scope.

Ltac ffields :=
  cbv beta iota delta [set_panelVolts set_batteryVolts set_Voc set_Vcvm
    set_pulseWidth set_pwm set_b set_stepAmount set_time
    set_enable set_SOC set_Load set_charger_state set_adc
    set_adc_count set_clock set_clock_count set_trace
    panelVolts batteryVolts Voc Vcvm pulseWidth
    pwm b stepAmount time enable SOC Load charger_state
    adc adc_count clock clock_count trace].

Lemma float_Voc_loop_trace n : forall m,
  trace (exec (for_loop n
                 (v <- analogRead panelMeter ;;
                  modify (fun m => set_Voc (fadd (Voc m) (of_int v)) m) ;;
                  delay 1)) m)
  = trace m ++ repeat (Delay 1) n.
Proof.
  induction n as [|n IH]; intro m.
  - simpl. rewrite app_nil_r. reflexivity.
  - rewrite exec_for_loop_S, IH. cbn [repeat].
    change (trace (exec _ m)) with (trace m ++ [Delay 1]).
    rewrite <- app_assoc. reflexivity.
Qed.

Lemma float_update_Vcvm_trace m :
  trace (exec update_Vcvm m)
  = trace m ++ DigitalWrite shutDown LOW :: Delay 100 :: repeat (Delay 1) 100.
Proof.
  assert (Hs : preserves trace
            (modify (fun m => set_Voc (fdiv (Voc m) (of_int 100)) m) ;;
             modify (fun m => set_Voc (fmul (Voc m) panel_scale) m) ;;
             modify (fun m => set_Vcvm (fmul (Voc m) lit_0_76) m) ;;
             modify (set_b 1))) by keep.
  unfold update_Vcvm. rewrite 3!exec_bind. cbv beta.
  rewrite Hs, float_Voc_loop_trace.
  change (trace (exec (delay 100) (exec disable_charger m)))
    with ((trace m ++ [DigitalWrite shutDown LOW]) ++ [Delay 100]).
  rewrite <- !app_assoc. reflexivity.
Qed.

Lemma float_CVM_timer_trace m :
  exists pause,
    (pause = []
     \/ pause = DigitalWrite shutDown LOW :: Delay 100 :: repeat (Delay 1) 100)
    /\ trace (exec CVM_timer m) = trace m ++ pause.
Proof.
  assert (Hq : forall n, preserves trace
            (for_loop n
               (t <- millis ;;
                modify (set_time t) ;;
                modify (fun m => set_b (to_int (b m - 1)) m)))) by (intro; keep).
  unfold CVM_timer. rewrite !exec_bind, exec_when.
  match goal with
  | |- context [if ?c then _ else _] => destruct c
  end.
  - eexists. split; [right; reflexivity |].
    rewrite float_update_Vcvm_trace. f_equal.
    change (trace (exec millis ?s)) with (trace s).
    apply Hq.
  - exists []. split; [left; reflexivity |]. rewrite app_nil_r.
    change (trace (exec millis ?s)) with (trace s).
    apply Hq.
Qed.

(** X19. Floating-point variant: in the bulk state [set_charger] always ends
    with the converter driven: after at most the recalibration pause
    (converter off, 100 ms, then 100 samples 1 ms apart) it writes the
    clamped duty cycle, enables the driver and lights the LED, in this
    order, and reports "On"; the duty cycle written is the [pulseWidth] it
    leaves, within 100..245. *)
Theorem float_bulk_leaves_converter_on (m : machine) :
  mode_of_code (charger_state m) = Some bulk ->
  let m' := exec set_charger m in
  exists pause,
    (pause = []
     \/ pause = DigitalWrite shutDown LOW :: Delay 100 :: repeat (Delay 1) 100)
    /\ trace m' = trace m ++ pause
                  ++ [PwmWrite driver (pulseWidth m');
                      DigitalWrite shutDown HIGH; DigitalWrite 13 HIGH]
    /\ 100 <= pulseWidth m' <= 245
    /\ enable m' = "On"%string.
Proof.
  intro Hs. cbv zeta. unfold set_charger. rewrite exec_bind.
  change (eval (gets charger_state) m) with (charger_state m).
  rewrite Hs. rewrite !exec_bind.
  change (exec (gets charger_state) m) with m.
  set (m1 := exec (modify (set_SOC "Bulk")) m).
  assert (E1 : trace m1 = trace m) by reflexivity.
  rewrite float_CVM_parts.
  destruct (float_CVM_timer_trace m1) as (pause & Hp & Et).
  assert (Ea : preserves trace CVM_adjust) by (unfold CVM_adjust; keep).
  assert (Eg : preserves trace CVM_guard) by (unfold CVM_guard; keep).
  set (m2 := exec CVM_adjust (exec CVM_guard (exec CVM_timer m1))) in *.
  assert (E2 : trace m2 = trace m ++ pause).
  { unfold m2. rewrite Ea, Eg, Et, E1. reflexivity. }
  clearbody m2.
  exists pause. split; [exact Hp |].
  set (m3 := exec run_charger m2).
  assert (E3 : trace m3 = trace m2 ++ [PwmWrite driver (pulseWidth m3);
                                       DigitalWrite shutDown HIGH]).
  { unfold m3. rewrite float_run_charger_trace, float_run_charger_pulseWidth.
    reflexivity. }
  assert (B3 : 100 <= pulseWidth m3 <= 245).
  { unfold m3. rewrite float_run_charger_pulseWidth.
    apply constrain_range. lia. }
  assert (O3 : enable m3 = "On"%string) by reflexivity.
  clearbody m3. destruct m3.
  cbv beta iota delta [exec digitalWrite emit modify snd].
  cbn [trace pulseWidth enable set_trace] in *.
  rewrite E3, E2. change (to_uint8 HIGH) with HIGH.
  rewrite <- !app_assoc. cbn [app].
  split; [reflexivity |]. split; [exact B3 | exact O3].
Qed.

Lemma float_bulk_leaves_converter_on_witness :
  let m := set_charger_state (mode_code bulk)
             (power_on (steady_adc 700 601) steady_clock) in
  let m' := exec set_charger m in
  exists pause,
    (pause = []
     \/ pause = DigitalWrite shutDown LOW :: Delay 100 :: repeat (Delay 1) 100)
    /\ trace m' = trace m ++ pause
                  ++ [PwmWrite driver (pulseWidth m');
                      DigitalWrite shutDown HIGH; DigitalWrite 13 HIGH]
    /\ 100 <= pulseWidth m' <= 245
    /\ enable m' = "On"%string.
Proof.
  apply (float_bulk_leaves_converter_on
           (set_charger_state (mode_code bulk)
              (power_on (steady_adc 700 601) steady_clock))).
  reflexivity.
Defined.

(** X20. Floating-point variant: each of the four blink routines changes
    nothing but the outputs, writes nothing but the LED pin, leaves the LED
    off and blocks for the whole of its pattern: [error_blink] for 0.8 s,
    [sleep_blink] for 4 s, and the two that [set_charger] no longer calls,
    [bulk_blink] and [float_blink], for 1.5 s and 1 s. *)
Theorem blink_routines_block (m : machine) :
  let blinks c ms :=
    exists evs,
      exec c m = set_trace (trace m ++ evs) m
      /\ delay_total evs = ms
      /\ last_level 13 evs = Some LOW
      /\ Forall (fun e => match e with
                          | DigitalWrite p _ => p = 13
                          | Delay _ => True
                          | _ => False
                          end) evs in
  blinks error_blink 800 /\ blinks sleep_blink 4000
  /\ blinks bulk_blink 1500 /\ blinks float_blink 1000.
Proof.
  cbv zeta.
  repeat split;
    (eexists; split;
     [ destruct m;
       cbv beta iota delta [exec error_blink sleep_blink bulk_blink float_blink
         bind digitalWrite delay emit modify fst snd];
       ffields; rewrite <- !app_assoc; cbn [app]; reflexivity
     | split; [reflexivity | split; [reflexivity |]];
       repeat constructor ]).
Qed.
End FloatVoltBulk.

(** ** The duty cycle as a percentage *)

Section Percent.
Local Open Scope mppt_scope.

Lemma map_percent x : 0 <= x <= 255 -> map x 0 255 0 100 = x * 100 / 255.
Proof.
  intro H. unfold map.
  rewrite Z.sub_0_r. change (to_long (100 - 0)) with 100.
  change (to_long (255 - 0)) with 255.
  rewrite (to_long_small x) by lia.
  rewrite (to_long_small (x * 100)) by lia.
  rewrite Z.quot_div_nonneg by lia.
  assert (0 <= x * 100 / 255 <= 100).
  { split; [apply Z.div_pos; lia | apply Z.div_le_upper_bound; lia]. }
  rewrite (to_long_small (x * 100 / 255)) by lia.
  rewrite Z.add_0_r. apply to_long_small. lia.
Qed.

(** X21. In both variants the percentage [pwm] that [run_charger] leaves
    for [print_data] is the clamped duty cycle times 100 over 255, rounded
    down, [map] and the 16-bit store losing nothing: from 29 to 96 in the
    integer variant and from 39 to 96 in the floating-point variant, never
    0 and never 100. *)
Theorem run_charger_percent :
  (forall m : DeciVolt.machine,
     let m' := exec DeciVolt.run_charger m in
     DeciVolt.pwm m' = DeciVolt.pulseWidth m' * 100 / 255
     /\ 29 <= DeciVolt.pwm m' <= 96)
  /\ (forall m : FloatVolt.machine,
     let m' := exec FloatVolt.run_charger m in
     FloatVolt.pwm m' = FloatVolt.pulseWidth m' * 100 / 255
     /\ 39 <= FloatVolt.pwm m' <= 96).
Proof.
  split; intro m; cbv zeta.
  - change (DeciVolt.pwm (exec DeciVolt.run_charger m))
      with (to_int (map (DeciVolt.pulseWidth (exec DeciVolt.run_charger m))
                      0 255 0 100)).
    rewrite run_charger_pulseWidth.
    pose proof (constrain_range (DeciVolt.pulseWidth m) 75 245 ltac:(lia)) as Hc.
    set (d := constrain (DeciVolt.pulseWidth m) 75 245) in *. clearbody d.
    rewrite map_percent by lia.
    assert (29 <= d * 100 / 255 <= 96).
    { split; [apply Z.div_le_lower_bound; lia |].
      apply Z.lt_succ_r, Z.div_lt_upper_bound; lia. }
    rewrite to_int_small by lia. split; [reflexivity | lia].
  - change (FloatVolt.pwm (exec FloatVolt.run_charger m))
      with (to_int (map (FloatVolt.pulseWidth (exec FloatVolt.run_charger m))
                      0 255 0 100)).
    rewrite float_run_charger_pulseWidth.
    pose proof (constrain_range (FloatVolt.pulseWidth m) 100 245 ltac:(lia)) as Hc.
    set (d := constrain (FloatVolt.pulseWidth m) 100 245) in *. clearbody d.
    rewrite map_percent by lia.
    assert (39 <= d * 100 / 255 <= 96).
    { split; [apply Z.div_le_lower_bound; lia |].
      apply Z.lt_succ_r, Z.div_lt_upper_bound; lia. }
    rewrite to_int_small by lia. split; [reflexivity | lia].
Qed.
End Percent.
